(** * A one-shot Bedrock client: request construction, response decoding
      and error classification of [main.go]

    The development embeds [main] and [handleInvokeError] of [src/main.go]
    together with the parts of the Go library they run through
    ([strings.Contains], [fmt], [log], [unicode/utf8], [encoding/json]).
    Go strings are byte sequences; they are [string] here, one [ascii] per
    byte, and a Go [int] is a [Z] in the 64-bit range.  The library is the
    one of Go 1.22: the encoder writes backspace and form feed as [\b] and
    [\f]. *)

From Stdlib Require Import ZArith List String Ascii Bool Lia.
Import ListNotations.
Local Open Scope string_scope.
Local Open Scope Z_scope.

Set Implicit Arguments.

(* ================================================================= *)
(** ** Bytes and byte strings *)

Module Bytes.

Definition byteZ (c : ascii) : Z := Z.of_N (N_of_ascii c).

(** Go's conversion [byte(x)]: the low eight bits. *)
Definition byte (z : Z) : ascii := ascii_of_N (Z.to_N (z mod 256)).

Definition quote : ascii := "034"%char.
Definition backslash : ascii := "\"%char.

(** [s[n:]] for [n <= len(s)]. *)
Fixpoint drop (n : nat) (s : string) : string :=
  match n, s with
  | O, _ => s
  | S n', String _ s' => drop n' s'
  | S _, EmptyString => EmptyString
  end.

(** [s[:n]] for [n <= len(s)]. *)
Fixpoint take (n : nat) (s : string) : string :=
  match n, s with
  | O, _ => EmptyString
  | S n', String c s' => String c (take n' s')
  | S _, EmptyString => EmptyString
  end.

(** JSON texts are written below with ['] for the double quote. *)
Fixpoint dq (s : string) : string :=
  match s with
  | EmptyString => EmptyString
  | String c s' => String (if Ascii.eqb c "'" then quote else c) (dq s')
  end.

End Bytes.
Import Bytes.

(* ================================================================= *)
(** ** Package [strings] *)

Module strings.

Fixpoint HasPrefix (s prefix : string) : bool :=
  match prefix, s with
  | EmptyString, _ => true
  | String p prefix', String c s' => Ascii.eqb c p && HasPrefix s' prefix'
  | String _ _, EmptyString => false
  end.

(** [strings.Index]: the index of the first instance of [substr] in [s],
    or [-1]. *)
Fixpoint Index (s substr : string) : Z :=
  if HasPrefix s substr then 0
  else match s with
       | EmptyString => -1
       | String _ s' =>
           let i := Index s' substr in
           if i <? 0 then -1 else i + 1
       end.

(** [strings.Contains(s, substr)] is [Index(s, substr) >= 0]. *)
Definition Contains (s substr : string) : bool := Index s substr >=? 0.

End strings.

(* ================================================================= *)
(** ** Package [unicode/utf8] and [unicode/utf16] *)

Module utf8.

Definition RuneError : Z := 0xFFFD.
Definition RuneSelf : Z := 0x80.
Definition MaxRune : Z := 0x10FFFF.
Definition UTFMax : nat := 4.

Definition surrogateMin : Z := 0xD800.
Definition surrogateMax : Z := 0xDFFF.

Definition t2 : Z := 0xC0.
Definition t3 : Z := 0xE0.
Definition t4 : Z := 0xF0.
Definition tx : Z := 0x80.
Definition maskx : Z := 0x3F.
Definition mask2 : Z := 0x1F.
Definition mask3 : Z := 0x0F.
Definition mask4 : Z := 0x07.

Definition rune1Max : Z := 0x7F.
Definition rune2Max : Z := 0x7FF.
Definition rune3Max : Z := 0xFFFF.

Definition locb : Z := 0x80.
Definition hicb : Z := 0xBF.

(** One entry of the table [first]: an ASCII byte, an invalid leading byte,
    or the size of the sequence with the accepted range of its second
    byte. *)
Inductive firstInfo : Type :=
| as_ : firstInfo
| xx : firstInfo
| sz : nat -> Z -> Z -> firstInfo.

Definition first (p0 : Z) : firstInfo :=
  if p0 <? 0x80 then as_
  else if p0 <? 0xC2 then xx
  else if p0 <? 0xE0 then sz 2 locb hicb
  else if p0 =? 0xE0 then sz 3 0xA0 hicb
  else if p0 <? 0xED then sz 3 locb hicb
  else if p0 =? 0xED then sz 3 locb 0x9F
  else if p0 <? 0xF0 then sz 3 locb hicb
  else if p0 =? 0xF0 then sz 4 0x90 hicb
  else if p0 <? 0xF4 then sz 4 locb hicb
  else if p0 =? 0xF4 then sz 4 locb 0x8F
  else xx.

Definition cont (b : Z) : bool := (locb <=? b) && (b <=? hicb).

(** [utf8.DecodeRune]: the first rune of [p] and its width in bytes;
    [(RuneError, 0)] on the empty string, [(RuneError, 1)] on an invalid
    encoding. *)
Definition DecodeRune (p : string) : Z * nat :=
  match p with
  | EmptyString => (RuneError, 0%nat)
  | String c0 p1 =>
      let p0 := byteZ c0 in
      match first p0 with
      | as_ => (p0, 1%nat)
      | xx => (RuneError, 1%nat)
      | sz n lo hi =>
          if (String.length p <? n)%nat then (RuneError, 1%nat)
          else
            match p1 with
            | EmptyString => (RuneError, 1%nat)
            | String c1 p2 =>
                let b1 := byteZ c1 in
                if (b1 <? lo) || (hi <? b1) then (RuneError, 1%nat)
                else if (n <=? 2)%nat then
                  (Z.lor (Z.shiftl (Z.land p0 mask2) 6) (Z.land b1 maskx),
                   2%nat)
                else
                  match p2 with
                  | EmptyString => (RuneError, 1%nat)
                  | String c2 p3 =>
                      let b2 := byteZ c2 in
                      if negb (cont b2) then (RuneError, 1%nat)
                      else if (n <=? 3)%nat then
                        (Z.lor (Z.lor (Z.shiftl (Z.land p0 mask3) 12)
                                      (Z.shiftl (Z.land b1 maskx) 6))
                               (Z.land b2 maskx), 3%nat)
                      else
                        match p3 with
                        | EmptyString => (RuneError, 1%nat)
                        | String c3 _ =>
                            let b3 := byteZ c3 in
                            if negb (cont b3) then (RuneError, 1%nat)
                            else
                              (Z.lor (Z.lor (Z.lor
                                 (Z.shiftl (Z.land p0 mask4) 18)
                                 (Z.shiftl (Z.land b1 maskx) 12))
                                 (Z.shiftl (Z.land b2 maskx) 6))
                                 (Z.land b3 maskx), 4%nat)
                        end
                  end
            end
      end
  end.

Definition enc3 (r : Z) : string :=
  String (byte (Z.lor t3 (Z.shiftr r 12)))
    (String (byte (Z.lor tx (Z.land (Z.shiftr r 6) maskx)))
       (String (byte (Z.lor tx (Z.land r maskx))) EmptyString)).

(** [utf8.EncodeRune] (as [AppendRune] on an empty buffer): the rune is
    compared as a [uint32], so a negative rune is out of range and is
    written as [RuneError], like a surrogate. *)
Definition EncodeRune (r : Z) : string :=
  let i := r mod 2 ^ 32 in
  if i <=? rune1Max then String (byte r) EmptyString
  else if i <=? rune2Max then
    String (byte (Z.lor t2 (Z.shiftr r 6)))
      (String (byte (Z.lor tx (Z.land r maskx))) EmptyString)
  else if (MaxRune <? i) || ((surrogateMin <=? i) && (i <=? surrogateMax))
  then enc3 RuneError
  else if i <=? rune3Max then enc3 r
  else
    String (byte (Z.lor t4 (Z.shiftr r 18)))
      (String (byte (Z.lor tx (Z.land (Z.shiftr r 12) maskx)))
         (String (byte (Z.lor tx (Z.land (Z.shiftr r 6) maskx)))
            (String (byte (Z.lor tx (Z.land r maskx))) EmptyString))).

(** [utf8.ValidString]: no position decodes to an encoding error.  The loop
    advances by the width of the rune read; [fuel] bounds its iterations and
    [String.length s] is enough. *)
Fixpoint validFrom (fuel : nat) (s : string) : bool :=
  match s with
  | EmptyString => true
  | String _ _ =>
      match fuel with
      | O => false
      | S fuel' =>
          let '(r, size) := DecodeRune s in
          if (r =? RuneError) && (size =? 1)%nat then false
          else validFrom fuel' (drop size s)
      end
  end.

Definition ValidString (s : string) : bool := validFrom (String.length s) s.

End utf8.

Module utf16.

Definition surr1 : Z := 0xD800.
Definition surr2 : Z := 0xDC00.
Definition surr3 : Z := 0xE000.
Definition surrSelf : Z := 0x10000.
Definition replacementChar : Z := 0xFFFD.

Definition IsSurrogate (r : Z) : bool := (surr1 <=? r) && (r <? surr3).

Definition DecodeRune (r1 r2 : Z) : Z :=
  if (surr1 <=? r1) && (r1 <? surr2) && (surr2 <=? r2) && (r2 <? surr3)
  then Z.lor (Z.shiftl (r1 - surr1) 10) (r2 - surr2) + surrSelf
  else replacementChar.

End utf16.

(* ================================================================= *)
(** ** Errors and results *)

(** A Go [error] value, as far as the program looks at it: the errors of the
    SDK are known by their display text only, those of [encoding/json] by
    their type. *)
Inductive error : Type :=
| errorString (text : string)
| SyntaxError (msg : string)
| UnmarshalTypeError (Value Type_ Struct Field : string)
| UnsupportedTypeError (type_ : string).

(** A Go pair [(x, err)] with [err == nil] ([OK x]) or not ([Err err]). *)
Inductive result (A : Type) : Type :=
| OK (a : A)
| Err (e : error).
Arguments OK {A} a.
Arguments Err {A} e.

Definition rbind {A B} (r : result A) (k : A -> result B) : result B :=
  match r with
  | OK a => k a
  | Err e => Err e
  end.

Notation "x <- r ;; k" := (rbind r (fun x => k))
  (at level 61, r at next level, right associativity).
Notation "' p <- r ;; k" := (rbind r (fun p => k))
  (at level 61, p pattern, r at next level, right associativity).

Fixpoint mapM {A B} (f : A -> result B) (l : list A) : result (list B) :=
  match l with
  | [] => OK []
  | a :: l' =>
      b <- f a ;;
      bs <- mapM f l' ;;
      OK (b :: bs)
  end.

Fixpoint join (sep : string) (l : list string) : string :=
  match l with
  | [] => EmptyString
  | [x] => x
  | x :: l' => x ++ sep ++ join sep l'
  end.

(* ================================================================= *)
(** ** Package [strconv], base 10 *)

Module strconv.

Definition isDigit (c : ascii) : bool :=
  (48 <=? byteZ c) && (byteZ c <=? 57).

Definition digit (d : Z) : ascii := byte (48 + d).

(** The decimal digits of [n >= 0], most significant first; [fuel] bounds
    their number. *)
Fixpoint formatBits (fuel : nat) (n : Z) : string :=
  match fuel with
  | O => EmptyString
  | S fuel' =>
      if n <? 10 then String (digit n) EmptyString
      else formatBits fuel' (n / 10) ++ String (digit (n mod 10)) EmptyString
  end.

(** [strconv.FormatInt(i, 10)] for a 64-bit [i]: at most 20 digits. *)
Definition FormatInt (i : Z) : string :=
  if i <? 0 then String "-" (formatBits 20 (- i)) else formatBits 20 i.

(** The value of a digit string read from the left with [acc] so far;
    [None] on a byte that is no digit. *)
Fixpoint parseDigits (acc : Z) (s : string) : option Z :=
  match s with
  | EmptyString => Some acc
  | String c s' =>
      if isDigit c then parseDigits (acc * 10 + (byteZ c - 48)) s'
      else None
  end.

Definition minInt64 : Z := - 2 ^ 63.
Definition maxInt64 : Z := 2 ^ 63 - 1.

(** [strconv.ParseInt(s, 10, 64)]: an optional sign, then one digit or
    more; [None] on a syntax error or a value out of the 64-bit range. *)
Definition ParseInt (s : string) : option Z :=
  let '(neg, digits) :=
    match s with
    | String "-" s' => (true, s')
    | String "+" s' => (false, s')
    | _ => (false, s)
    end in
  match digits with
  | EmptyString => None
  | _ =>
      match parseDigits 0 digits with
      | None => None
      | Some n =>
          let v := if neg then - n else n in
          if (minInt64 <=? v) && (v <=? maxInt64) then Some v else None
      end
  end.

End strconv.

(* ================================================================= *)
(** ** Package [reflect]: the values [json.Marshal] walks *)

Module reflect.

(** A Go value as the encoder sees it through reflection: its kind and its
    parts.  A struct is the list of its exported fields in declaration
    order, each under the name of its [json] tag; a nil slice is [None]. *)
#[warnings="-register-all"]
Inductive Value : Type :=
| VBool (b : bool)
| VInt (i : Z)
| VString (s : string)
| VSlice (elems : option (list Value))
| VStruct (fields : list (string * Value))
| VChan (type_ : string)
| VFunc (type_ : string).

End reflect.
Import reflect.

(* ================================================================= *)
(** ** Package [encoding/json]: encoding *)

Module json.

Definition hex (n : Z) : ascii :=
  match String.get (Z.to_nat n) "0123456789abcdef" with
  | Some c => c
  | None => "0"%char
  end.

(** [htmlSafeSet]: the ASCII bytes written as they are, with HTML escaping
    on (the default of [Marshal]). *)
Definition htmlSafeSet (b : Z) : bool :=
  (0x20 <=? b) && (b <? 0x80) &&
  negb ((b =? 34) || (b =? 38) || (b =? 60) || (b =? 62) || (b =? 92)).

(** The escape of an ASCII byte outside [htmlSafeSet]. *)
Definition escapeByte (c : ascii) : string :=
  let b := byteZ c in
  if (b =? 92) || (b =? 34) then String backslash (String c EmptyString)
  else if b =? 8 then "\b"
  else if b =? 12 then "\f"
  else if b =? 10 then "\n"
  else if b =? 13 then "\r"
  else if b =? 9 then "\t"
  else "\u00" ++ String (hex (Z.shiftr b 4))
                   (String (hex (Z.land b 0xF)) EmptyString).

(** The loop of [appendString] between the two quotes: [src] from the
    current position on.  An invalid byte is written as the escape of U+FFFD; [fuel]
    bounds the iterations and [String.length src] is enough. *)
Fixpoint appendBody (fuel : nat) (src : string) : string :=
  match src with
  | EmptyString => EmptyString
  | String c rest =>
      match fuel with
      | O => EmptyString
      | S fuel' =>
          let b := byteZ c in
          if b <? utf8.RuneSelf then
            if htmlSafeSet b then String c (appendBody fuel' rest)
            else escapeByte c ++ appendBody fuel' rest
          else
            let '(r, size) := utf8.DecodeRune (take utf8.UTFMax src) in
            if (r =? utf8.RuneError) && (size =? 1)%nat then
              "\ufffd" ++ appendBody fuel' (drop size src)
            else if (r =? 0x2028) || (r =? 0x2029) then
              "\u202" ++ String (hex (Z.land r 0xF))
                           (appendBody fuel' (drop size src))
            else take size src ++ appendBody fuel' (drop size src)
      end
  end.

Definition appendString (src : string) : string :=
  String quote (appendBody (String.length src) src ++ String quote EmptyString).

(** [json.Marshal] on a reflected value.  A channel or a function has no
    encoding ([UnsupportedTypeError]). *)
Fixpoint encode (v : Value) : result string :=
  match v with
  | VBool b => OK (if b then "true" else "false")
  | VInt i => OK (strconv.FormatInt i)
  | VString s => OK (appendString s)
  | VSlice None => OK "null"
  | VSlice (Some elems) =>
      ts <- mapM encode elems ;;
      OK ("[" ++ join "," ts ++ "]")
  | VStruct fields =>
      ts <- mapM (fun kv : string * Value =>
                    let '(k, fv) := kv in
                    t <- encode fv ;;
                    OK (appendString k ++ ":" ++ t)) fields ;;
      OK ("{" ++ join "," ts ++ "}")
  | VChan t => Err (UnsupportedTypeError t)
  | VFunc t => Err (UnsupportedTypeError t)
  end.

(* ----------------------------------------------------------------- *)
(** *** Decoding: the syntax of a JSON text *)

(** A parsed JSON text.  A number keeps its literal, as the decoder reads
    it only when it knows the type it goes into. *)
#[warnings="-register-all"]
Inductive jvalue : Type :=
| JNull
| JBool (b : bool)
| JNumber (lit : string)
| JString (s : string)
| JArray (elems : list jvalue)
| JObject (members : list (string * jvalue)).

Definition isPrint (r : Z) : bool :=
  ((0x20 <=? r) && (r <=? 0x7E)) ||
  ((0xA1 <=? r) && (r <=? 0xFF) && negb (r =? 0xAD)).

(** [quoteChar]: a byte as the scanner shows it in an error; the byte is
    first read as the code point of the same number. *)
Definition quoteChar (c : ascii) : string :=
  let r := byteZ c in
  if r =? 39 then "'\''"
  else if r =? 34 then String "'" (String quote "'")
  else
    "'" ++
    (if r =? 92 then "\\"
     else if isPrint r then utf8.EncodeRune r
     else if r =? 7 then "\a"
     else if r =? 8 then "\b"
     else if r =? 12 then "\f"
     else if r =? 10 then "\n"
     else if r =? 13 then "\r"
     else if r =? 9 then "\t"
     else if r =? 11 then "\v"
     else if (r <? 0x20) || (r =? 0x7F) then
       "\x" ++ String (hex (Z.shiftr r 4)) (String (hex (Z.land r 0xF)) EmptyString)
     else
       "\u00" ++ String (hex (Z.shiftr r 4)) (String (hex (Z.land r 0xF)) EmptyString))
    ++ "'".

Definition syntaxAt {A} (c : ascii) (context : string) : result A :=
  Err (SyntaxError ("invalid character " ++ quoteChar c ++ " " ++ context)).

Definition unexpectedEnd {A} : result A :=
  Err (SyntaxError "unexpected end of JSON input").

(** [scanner.eof]: at the end of the input the scanner steps once more, on
    a space.  A state that takes the space reports the end of the input;
    a state that refuses it reports that space. *)
Definition eofByte : ascii := " "%char.

Definition isSpace (c : ascii) : bool :=
  let b := byteZ c in (b =? 32) || (b =? 9) || (b =? 13) || (b =? 10).

Fixpoint skipSpace (s : string) : string :=
  match s with
  | String c s' => if isSpace c then skipSpace s' else s
  | EmptyString => s
  end.

Definition consFst {A} (c : ascii) (r : result (string * A))
  : result (string * A) :=
  '(lit, rest) <- r ;; OK (String c lit, rest).

Definition isHex (c : ascii) : bool :=
  let b := byteZ c in
  ((48 <=? b) && (b <=? 57)) || ((97 <=? b) && (b <=? 102)) ||
  ((65 <=? b) && (b <=? 70)).

(** The scanner inside a string literal: [stateInString],
    [stateInStringEsc] and [stateInStringEscU] with the count of the hex
    digits read. *)
Inductive strState : Type :=
| inString
| inStringEsc
| inStringEscU (k : nat).

(** From after the opening quote: the bytes of the literal up to the
    closing quote, and the text after it.  At the end of the input
    [stateInString] takes the space of [scanner.eof]; the states of an
    escape refuse it. *)
Fixpoint scanString (st : strState) (s : string) : result (string * string) :=
  match s with
  | EmptyString =>
      match st with
      | inString => unexpectedEnd
      | inStringEsc => syntaxAt eofByte "in string escape code"
      | inStringEscU _ => syntaxAt eofByte "in \u hexadecimal character escape"
      end
  | String c s' =>
      let b := byteZ c in
      match st with
      | inString =>
          if b =? 34 then OK (EmptyString, s')
          else if b =? 92 then consFst c (scanString inStringEsc s')
          else if b <? 0x20 then syntaxAt c "in string literal"
          else consFst c (scanString inString s')
      | inStringEsc =>
          if (b =? 98) || (b =? 102) || (b =? 110) || (b =? 114) ||
             (b =? 116) || (b =? 92) || (b =? 47) || (b =? 34)
          then consFst c (scanString inString s')
          else if b =? 117 then consFst c (scanString (inStringEscU 0) s')
          else syntaxAt c "in string escape code"
      | inStringEscU k =>
          if isHex c then
            consFst c (scanString (if (k <? 3)%nat then inStringEscU (S k)
                                   else inString) s')
          else syntaxAt c "in \u hexadecimal character escape"
      end
  end.

(** The scanner inside a number literal. *)
Inductive numState : Type :=
| stateNeg | state0 | state1 | stateDot | stateDot0
| stateE | stateESign | stateE0.

Inductive numStep : Type :=
| goOn (st : numState)
| endLit
| bad (context : string).

Definition numNext (st : numState) (c : ascii) : numStep :=
  let b := byteZ c in
  let digit := strconv.isDigit c in
  let isE := (b =? 101) || (b =? 69) in
  match st with
  | stateNeg =>
      if b =? 48 then goOn state0
      else if digit then goOn state1
      else bad "in numeric literal"
  | state1 =>
      if digit then goOn state1
      else if b =? 46 then goOn stateDot
      else if isE then goOn stateE
      else endLit
  | state0 =>
      if b =? 46 then goOn stateDot
      else if isE then goOn stateE
      else endLit
  | stateDot =>
      if digit then goOn stateDot0
      else bad "after decimal point in numeric literal"
  | stateDot0 =>
      if digit then goOn stateDot0
      else if isE then goOn stateE
      else endLit
  | stateE =>
      if (b =? 43) || (b =? 45) then goOn stateESign
      else if digit then goOn stateE0
      else bad "in exponent of numeric literal"
  | stateESign =>
      if digit then goOn stateE0
      else bad "in exponent of numeric literal"
  | stateE0 =>
      if digit then goOn stateE0 else endLit
  end.

(** At the end of the input the state steps on the space of
    [scanner.eof]: the literal ends there, or the state refuses the
    space. *)
Fixpoint scanNumber (st : numState) (s : string) : result (string * string) :=
  match s with
  | EmptyString =>
      match numNext st eofByte with
      | bad context => syntaxAt eofByte context
      | _ => OK (EmptyString, s)
      end
  | String c s' =>
      match numNext st c with
      | goOn st' => consFst c (scanNumber st' s')
      | endLit => OK (EmptyString, s)
      | bad context => syntaxAt c context
      end
  end.

(** The rest of a literal [true], [false] or [null] after its first
    byte.  At the end of the input the byte refused is the space of
    [scanner.eof]. *)
Fixpoint scanWord (name want : string) (s : string) : result string :=
  match want with
  | EmptyString => OK s
  | String w want' =>
      let refuse (c : ascii) : result string :=
        syntaxAt c ("in literal " ++ name ++ " (expecting '" ++ String w "')") in
      match s with
      | EmptyString => refuse eofByte
      | String c s' =>
          if Ascii.eqb c w then scanWord name want' s' else refuse c
      end
  end.

(* ----------------------------------------------------------------- *)
(** *** Decoding: string literals *)

Definition hexVal (c : ascii) : Z :=
  let b := byteZ c in
  if (48 <=? b) && (b <=? 57) then b - 48
  else if (97 <=? b) && (b <=? 102) then b - 97 + 10
  else if (65 <=? b) && (b <=? 70) then b - 65 + 10
  else -1.

(** [getu4]: the code unit of a leading [\uXXXX], or [-1]. *)
Definition getu4 (s : string) : Z :=
  match s with
  | String b0 (String b1 (String h1 (String h2 (String h3 (String h4 _))))) =>
      if (byteZ b0 =? 92) && (byteZ b1 =? 117) then
        fold_left (fun r c =>
                     if (r <? 0) || (hexVal c <? 0) then -1
                     else r * 16 + hexVal c)
                  [h1; h2; h3; h4] 0
      else -1
  | _ => -1
  end.

(** The first loop of [unquoteBytes]: the number of bytes before the first
    backslash, quote, control byte or invalid encoding. *)
Fixpoint scanPlain (fuel : nat) (s : string) : nat :=
  match s with
  | EmptyString => O
  | String c s' =>
      match fuel with
      | O => O
      | S fuel' =>
          let b := byteZ c in
          if (b =? 92) || (b =? 34) || (b <? 0x20) then O
          else if b <? utf8.RuneSelf then S (scanPlain fuel' s')
          else
            let '(rr, size) := utf8.DecodeRune s in
            if (rr =? utf8.RuneError) && (size =? 1)%nat then O
            else (size + scanPlain fuel' (drop size s))%nat
      end
  end.

(** The second loop of [unquoteBytes], from a position [r] on: escapes are
    replaced and every rune is decoded and encoded again. *)
Fixpoint unquoteFrom (fuel : nat) (s : string) : option string :=
  match s with
  | EmptyString => Some EmptyString
  | String c s1 =>
      match fuel with
      | O => None
      | S fuel' =>
          let b := byteZ c in
          if b =? 92 then
            match s1 with
            | EmptyString => None
            | String e s2 =>
                let eb := byteZ e in
                let put (x : Z) := option_map (String (byte x)) (unquoteFrom fuel' s2) in
                if (eb =? 34) || (eb =? 92) || (eb =? 47) || (eb =? 39) then put eb
                else if eb =? 98 then put 8
                else if eb =? 102 then put 12
                else if eb =? 110 then put 10
                else if eb =? 114 then put 13
                else if eb =? 116 then put 9
                else if eb =? 117 then
                  let rr := getu4 s in
                  if rr <? 0 then None
                  else
                    let s6 := drop 6 s in
                    if utf16.IsSurrogate rr then
                      let dec := utf16.DecodeRune rr (getu4 s6) in
                      if negb (dec =? utf16.replacementChar) then
                        option_map (append (utf8.EncodeRune dec))
                                   (unquoteFrom fuel' (drop 6 s6))
                      else
                        option_map (append (utf8.EncodeRune utf16.replacementChar))
                                   (unquoteFrom fuel' s6)
                    else
                      option_map (append (utf8.EncodeRune rr))
                                 (unquoteFrom fuel' s6)
                else None
            end
          else if (b =? 34) || (b <? 0x20) then None
          else if b <? utf8.RuneSelf then
            option_map (String c) (unquoteFrom fuel' s1)
          else
            let '(rr, size) := utf8.DecodeRune s in
            option_map (append (utf8.EncodeRune rr))
                       (unquoteFrom fuel' (drop size s))
      end
  end.

(** [unquoteBytes] on the bytes between the quotes. *)
Definition unquoteBytes (s : string) : option string :=
  let r := scanPlain (String.length s) s in
  if (r =? String.length s)%nat then Some s
  else option_map (append (take r s))
                  (unquoteFrom (String.length s) (drop r s)).

Definition phaseError {A} : result A :=
  Err (SyntaxError "JSON decoder out of sync - data changing underfoot?").

(** A string literal from after its opening quote. *)
Definition stringLit (s : string) : result (string * string) :=
  '(lit, rest) <- scanString inString s ;;
  match unquoteBytes lit with
  | Some t => OK (t, rest)
  | None => phaseError
  end.

(* ----------------------------------------------------------------- *)
(** *** Decoding: values *)

Section Containers.

(** The parser of a value one level down. *)
Variable P : string -> result (jvalue * string).

(** An object member from after the opening quote of its key. *)
Definition member (s : string) : result ((string * jvalue) * string) :=
  '(key, s1) <- stringLit s ;;
  match skipSpace s1 with
  | EmptyString => unexpectedEnd
  | String c s2 =>
      if byteZ c =? 58 then
        '(v, s3) <- P s2 ;; OK ((key, v), s3)
      else syntaxAt c "after object key"
  end.

(** The members after the first, up to the closing brace.  [n] bounds the
    number of members; the length of the text is enough. *)
Fixpoint objectRest (n : nat) (s : string)
  : result (list (string * jvalue) * string) :=
  match n with
  | O => unexpectedEnd
  | S n' =>
      match skipSpace s with
      | EmptyString => unexpectedEnd
      | String c s1 =>
          if byteZ c =? 125 then OK ([], s1)
          else if byteZ c =? 44 then
            match skipSpace s1 with
            | EmptyString => unexpectedEnd
            | String c2 s2 =>
                if byteZ c2 =? 34 then
                  '(m, s3) <- member s2 ;;
                  '(ms, s4) <- objectRest n' s3 ;;
                  OK (m :: ms, s4)
                else syntaxAt c2 "looking for beginning of object key string"
            end
          else syntaxAt c "after object key:value pair"
      end
  end.

(** The elements after the first, up to the closing bracket. *)
Fixpoint arrayRest (n : nat) (s : string) : result (list jvalue * string) :=
  match n with
  | O => unexpectedEnd
  | S n' =>
      match skipSpace s with
      | EmptyString => unexpectedEnd
      | String c s1 =>
          if byteZ c =? 93 then OK ([], s1)
          else if byteZ c =? 44 then
            '(v, s2) <- P s1 ;;
            '(vs, s3) <- arrayRest n' s2 ;;
            OK (v :: vs, s3)
          else syntaxAt c "after array element"
      end
  end.

End Containers.

Definition maxNestingDepth : nat := 100 * 100.

(** One value with the text after it; [d] is the number of levels of
    nesting still allowed. *)
Fixpoint value (d : nat) (s : string) : result (jvalue * string) :=
  match skipSpace s with
  | EmptyString => unexpectedEnd
  | String c s1 =>
      let b := byteZ c in
      if b =? 123 then
        match d with
        | O => syntaxAt c "exceeded max depth"
        | S d' =>
            match skipSpace s1 with
            | EmptyString => unexpectedEnd
            | String c2 s2 =>
                if byteZ c2 =? 125 then OK (JObject [], s2)
                else if byteZ c2 =? 34 then
                  '(m, s3) <- member (value d') s2 ;;
                  '(ms, s4) <- objectRest (value d') (String.length s3) s3 ;;
                  OK (JObject (m :: ms), s4)
                else syntaxAt c2 "looking for beginning of object key string"
            end
        end
      else if b =? 91 then
        match d with
        | O => syntaxAt c "exceeded max depth"
        | S d' =>
            match skipSpace s1 with
            | EmptyString => unexpectedEnd
            | String c2 s2 =>
                if byteZ c2 =? 93 then OK (JArray [], s2)
                else
                  '(v, s3) <- value d' s1 ;;
                  '(vs, s4) <- arrayRest (value d') (String.length s3) s3 ;;
                  OK (JArray (v :: vs), s4)
            end
        end
      else if b =? 34 then
        '(t, s2) <- stringLit s1 ;; OK (JString t, s2)
      else if b =? 45 then
        '(lit, s2) <- scanNumber stateNeg s1 ;; OK (JNumber (String c lit), s2)
      else if b =? 48 then
        '(lit, s2) <- scanNumber state0 s1 ;; OK (JNumber (String c lit), s2)
      else if strconv.isDigit c then
        '(lit, s2) <- scanNumber state1 s1 ;; OK (JNumber (String c lit), s2)
      else if b =? 116 then
        s2 <- scanWord "true" "rue" s1 ;; OK (JBool true, s2)
      else if b =? 102 then
        s2 <- scanWord "false" "alse" s1 ;; OK (JBool false, s2)
      else if b =? 110 then
        s2 <- scanWord "null" "ull" s1 ;; OK (JNull, s2)
      else syntaxAt c "looking for beginning of value"
  end.

(** The whole text: one value, then only white space ([checkValid]). *)
Definition parse (data : string) : result jvalue :=
  '(v, rest) <- value maxNestingDepth data ;;
  match skipSpace rest with
  | EmptyString => OK v
  | String c _ => syntaxAt c "after top-level value"
  end.

(* ----------------------------------------------------------------- *)
(** *** Decoding: a parsed text into a Go value *)

(** The struct and the path of fields the decoder is in, for its type
    errors. *)
Record errorContext : Type := {
  ctxStruct : string;
  FieldStack : list string
}.

Definition describe (j : jvalue) : string :=
  match j with
  | JNull => "null"
  | JBool _ => "bool"
  | JNumber _ => "number"
  | JString _ => "string"
  | JArray _ => "array"
  | JObject _ => "object"
  end.

Definition typeError {A} (ctx : errorContext) (v t : string) : result A :=
  Err (UnmarshalTypeError v t (ctxStruct ctx) (join "." (FieldStack ctx))).

(** What the codec needs of a Go type: its name, its zero value, its
    value under reflection, and how a JSON value is stored into a variable
    of the type that holds [cur]. *)
Class GoType (A : Type) : Type := {
  typeString : string;
  zero : A;
  valueOf : A -> Value;
  decode : errorContext -> jvalue -> A -> result A
}.

#[export] Instance GoString : GoType string := {
  typeString := "string";
  zero := EmptyString;
  valueOf := VString;
  decode ctx j cur :=
    match j with
    | JNull => OK cur
    | JString s => OK s
    | _ => typeError ctx (describe j) "string"
    end
}.

#[export] Instance GoInt : GoType Z := {
  typeString := "int";
  zero := 0;
  valueOf := VInt;
  decode ctx j cur :=
    match j with
    | JNull => OK cur
    | JNumber lit =>
        match strconv.ParseInt lit with
        | Some n => OK n
        | None => typeError ctx ("number " ++ lit) "int"
        end
    | _ => typeError ctx (describe j) "int"
    end
}.

(** A Go slice: [None] is the nil slice. *)
Definition slice (A : Type) : Type := option (list A).

(** The elements of a JSON array stored one by one: element [i] goes into
    the old element [i] of the slice where it has one, and into a zero
    value otherwise.  A slice is its elements up to its length: what the
    array behind it holds above the length is not part of the value.  The
    decoder stores element [i] into that array where its capacity allows,
    so a slice that one call decodes, cuts and extends again (a member
    repeated in one object) can keep, in the elements after the first and
    in the fields that the later element does not name, what the earlier
    array left there; here such a field is zero.  The length of the
    result, its first element, every field that the JSON text names and
    every error are the same. *)
Fixpoint decodeElems {A} `{GoType A} (ctx : errorContext)
    (js : list jvalue) (old : list A) : result (list A) :=
  match js with
  | [] => OK []
  | j :: js' =>
      let '(cur, old') :=
        match old with
        | [] => (zero, [])
        | x :: xs => (x, xs)
        end in
      v <- decode ctx j cur ;;
      vs <- decodeElems ctx js' old' ;;
      OK (v :: vs)
  end.

#[export] Instance GoSlice {A} `{GoType A} : GoType (slice A) := {
  typeString := "[]" ++ typeString (A := A);
  zero := None;
  valueOf o := VSlice (option_map (map valueOf) o);
  decode ctx j cur :=
    match j with
    | JNull => OK None
    | JArray js =>
        vs <- decodeElems ctx js (match cur with Some l => l | None => [] end) ;;
        OK (Some vs)
    | _ => typeError ctx (describe j) ("[]" ++ typeString (A := A))
    end
}.

(** [foldRune] on the runes that matter against ASCII field names: the
    long s and the Kelvin sign fold to [S] and [K]; no other rune outside
    ASCII folds to an ASCII letter. *)
Definition foldRune (r : Z) : Z :=
  if r =? 0x17F then 0x53 else if r =? 0x212A then 0x4B else r.

Fixpoint foldFrom (fuel : nat) (s : string) : string :=
  match s with
  | EmptyString => EmptyString
  | String c s' =>
      match fuel with
      | O => EmptyString
      | S fuel' =>
          let b := byteZ c in
          if b <? utf8.RuneSelf then
            String (if (97 <=? b) && (b <=? 122) then byte (b - 32) else c)
                   (foldFrom fuel' s')
          else
            let '(r, n) := utf8.DecodeRune s in
            utf8.EncodeRune (foldRune r) ++ foldFrom fuel' (drop n s)
      end
  end.

Definition foldName (s : string) : string := foldFrom (String.length s) s.

(** The field a key selects: the one of that exact name, else the first
    whose name is equal under case folding. *)
Definition findField (names : list string) (key : string) : option string :=
  match find (String.eqb key) names with
  | Some f => Some f
  | None => find (fun f => String.eqb (foldName f) (foldName key)) names
  end.

Section Struct.

Variable A : Type.
(** [t.Name()], [t.String()] and the names of the fields. *)
Variables (name typeStr : string) (names : list string).
(** Storing a JSON value into one field. *)
Variable set : string -> errorContext -> jvalue -> A -> result A.

Fixpoint decodeMembers (ctx : errorContext)
    (members : list (string * jvalue)) (cur : A) : result A :=
  match members with
  | [] => OK cur
  | (key, v) :: members' =>
      match findField names key with
      | None => decodeMembers ctx members' cur
      | Some f =>
          cur' <- set f {| ctxStruct := name;
                           FieldStack := FieldStack ctx ++ [f] |} v cur ;;
          decodeMembers ctx members' cur'
      end
  end.

Definition decodeStruct (ctx : errorContext) (j : jvalue) (cur : A)
  : result A :=
  match j with
  | JNull => OK cur
  | JObject members => decodeMembers ctx members cur
  | _ => typeError ctx (describe j) typeStr
  end.

End Struct.

(** [json.Marshal(v)]. *)
Definition Marshal {A} `{GoType A} (v : A) : result string :=
  encode (valueOf v).

(** [json.Unmarshal(data, &v)] where the variable holds [v]: the value it
    holds afterwards, or the error. *)
Definition Unmarshal {A} `{GoType A} (data : string) (v : A) : result A :=
  j <- parse data ;;
  decode {| ctxStruct := EmptyString; FieldStack := [] |} j v.

End json.

Import json.

(** The display text of an error, [err.Error()]. *)
Definition Error (e : error) : string :=
  match e with
  | errorString text => text
  | SyntaxError msg => msg
  | UnmarshalTypeError v t st f =>
      if String.eqb st EmptyString && String.eqb f EmptyString then
        "json: cannot unmarshal " ++ v ++ " into Go value of type " ++ t
      else
        "json: cannot unmarshal " ++ v ++ " into Go struct field "
          ++ st ++ "." ++ f ++ " of type " ++ t
  | UnsupportedTypeError t => "json: unsupported type: " ++ t
  end.

(* ================================================================= *)
(** ** The types of [main.go] *)

Record ClaudeTextContent : Type := {
  Type_ : string;
  Text : string
}.

Record ClaudeRequestMessage : Type := {
  Role : string;
  Content : slice ClaudeTextContent
}.

Record ClaudeRequest : Type := {
  AnthropicVersion : string;
  MaxTokens : Z;
  System : string;
  Messages : slice ClaudeRequestMessage
}.

Record ClaudeUsage : Type := {
  InputTokens : Z;
  OutputTokens : Z
}.

Record ClaudeResponse : Type := {
  ID : string;
  ResponseType : string;
  ResponseRole : string;
  ResponseContent : slice ClaudeTextContent;
  StopReason : string;
  StopSequence : string;
  Usage : ClaudeUsage
}.

#[export] Instance GoClaudeTextContent : GoType ClaudeTextContent := {
  typeString := "main.ClaudeTextContent";
  zero := {| Type_ := zero; Text := zero |};
  valueOf c := VStruct [("type", valueOf (Type_ c)); ("text", valueOf (Text c))];
  decode :=
    decodeStruct "ClaudeTextContent" "main.ClaudeTextContent" ["type"; "text"]
      (fun f ctx j c =>
         if String.eqb f "type" then
           v <- decode ctx j (Type_ c) ;; OK {| Type_ := v; Text := Text c |}
         else
           v <- decode ctx j (Text c) ;; OK {| Type_ := Type_ c; Text := v |})
}.

#[export] Instance GoClaudeRequestMessage : GoType ClaudeRequestMessage := {
  typeString := "main.ClaudeRequestMessage";
  zero := {| Role := zero; Content := zero |};
  valueOf m := VStruct [("role", valueOf (Role m)); ("content", valueOf (Content m))];
  decode :=
    decodeStruct "ClaudeRequestMessage" "main.ClaudeRequestMessage"
      ["role"; "content"]
      (fun f ctx j m =>
         if String.eqb f "role" then
           v <- decode ctx j (Role m) ;; OK {| Role := v; Content := Content m |}
         else
           v <- decode ctx j (Content m) ;; OK {| Role := Role m; Content := v |})
}.

#[export] Instance GoClaudeRequest : GoType ClaudeRequest := {
  typeString := "main.ClaudeRequest";
  zero := {| AnthropicVersion := zero; MaxTokens := zero; System := zero;
             Messages := zero |};
  valueOf r :=
    VStruct [("anthropic_version", valueOf (AnthropicVersion r));
             ("max_tokens", valueOf (MaxTokens r));
             ("system", valueOf (System r));
             ("messages", valueOf (Messages r))];
  decode :=
    decodeStruct "ClaudeRequest" "main.ClaudeRequest"
      ["anthropic_version"; "max_tokens"; "system"; "messages"]
      (fun f ctx j r =>
         if String.eqb f "anthropic_version" then
           v <- decode ctx j (AnthropicVersion r) ;;
           OK {| AnthropicVersion := v; MaxTokens := MaxTokens r;
                 System := System r; Messages := Messages r |}
         else if String.eqb f "max_tokens" then
           v <- decode ctx j (MaxTokens r) ;;
           OK {| AnthropicVersion := AnthropicVersion r; MaxTokens := v;
                 System := System r; Messages := Messages r |}
         else if String.eqb f "system" then
           v <- decode ctx j (System r) ;;
           OK {| AnthropicVersion := AnthropicVersion r;
                 MaxTokens := MaxTokens r; System := v;
                 Messages := Messages r |}
         else
           v <- decode ctx j (Messages r) ;;
           OK {| AnthropicVersion := AnthropicVersion r;
                 MaxTokens := MaxTokens r; System := System r;
                 Messages := v |})
}.

#[export] Instance GoClaudeUsage : GoType ClaudeUsage := {
  typeString := "main.ClaudeUsage";
  zero := {| InputTokens := zero; OutputTokens := zero |};
  valueOf u :=
    VStruct [("input_tokens", valueOf (InputTokens u));
             ("output_tokens", valueOf (OutputTokens u))];
  decode :=
    decodeStruct "ClaudeUsage" "main.ClaudeUsage"
      ["input_tokens"; "output_tokens"]
      (fun f ctx j u =>
         if String.eqb f "input_tokens" then
           v <- decode ctx j (InputTokens u) ;;
           OK {| InputTokens := v; OutputTokens := OutputTokens u |}
         else
           v <- decode ctx j (OutputTokens u) ;;
           OK {| InputTokens := InputTokens u; OutputTokens := v |})
}.

Definition setResponseField (f : string) (ctx : errorContext) (j : jvalue)
    (r : ClaudeResponse) : result ClaudeResponse :=
  let mk i t ro c sr ss u :=
    {| ID := i; ResponseType := t; ResponseRole := ro; ResponseContent := c;
       StopReason := sr; StopSequence := ss; Usage := u |} in
  let '(Build_ClaudeResponse i t ro c sr ss u) := r in
  if String.eqb f "id" then v <- decode ctx j i ;; OK (mk v t ro c sr ss u)
  else if String.eqb f "type" then v <- decode ctx j t ;; OK (mk i v ro c sr ss u)
  else if String.eqb f "role" then v <- decode ctx j ro ;; OK (mk i t v c sr ss u)
  else if String.eqb f "content" then v <- decode ctx j c ;; OK (mk i t ro v sr ss u)
  else if String.eqb f "stop_reason" then v <- decode ctx j sr ;; OK (mk i t ro c v ss u)
  else if String.eqb f "stop_sequence" then v <- decode ctx j ss ;; OK (mk i t ro c sr v u)
  else v <- decode ctx j u ;; OK (mk i t ro c sr ss v).

#[export] Instance GoClaudeResponse : GoType ClaudeResponse := {
  typeString := "main.ClaudeResponse";
  zero := {| ID := zero; ResponseType := zero; ResponseRole := zero;
             ResponseContent := zero; StopReason := zero;
             StopSequence := zero; Usage := zero |};
  valueOf r :=
    VStruct [("id", valueOf (ID r)); ("type", valueOf (ResponseType r));
             ("role", valueOf (ResponseRole r));
             ("content", valueOf (ResponseContent r));
             ("stop_reason", valueOf (StopReason r));
             ("stop_sequence", valueOf (StopSequence r));
             ("usage", valueOf (Usage r))];
  decode :=
    decodeStruct "ClaudeResponse" "main.ClaudeResponse"
      ["id"; "type"; "role"; "content"; "stop_reason"; "stop_sequence"; "usage"]
      setResponseField
}.

(* ================================================================= *)
(** ** The process: standard output, standard error, exit *)

(** What the process wrote, one entry per write, oldest first. *)
Record Console : Type := {
  stdout : list string;
  stderr : list string
}.

(** How a computation stops the process before it returns:
    [os.Exit(code)] or a run-time panic. *)
Inductive Halt : Type :=
| Exit (code : Z)
| Panic (msg : string).

Definition Proc (A : Type) : Type := Console -> Console * (A + Halt).

Definition ret {A} (a : A) : Proc A := fun k => (k, inl a).

Definition pbind {A B} (p : Proc A) (f : A -> Proc B) : Proc B :=
  fun k =>
    match p k with
    | (k', inl a) => f a k'
    | (k', inr h) => (k', inr h)
    end.

Notation "x <~ p ;; f" := (pbind p (fun x => f))
  (at level 61, p at next level, right associativity).
Notation "p ;;; f" := (pbind p (fun _ => f))
  (at level 61, right associativity).

Definition writeOut (s : string) : Proc unit :=
  fun k => ({| stdout := stdout k ++ [s]; stderr := stderr k |}, inl tt).

Definition writeErr (s : string) : Proc unit :=
  fun k => ({| stdout := stdout k; stderr := stderr k ++ [s] |}, inl tt).

Definition halt {A} (h : Halt) : Proc A := fun k => (k, inr h).

Definition nl : string := String "010" EmptyString.

Module os.
Definition Exit {A} (code : Z) : Proc A := halt (Exit code).
End os.

(** Indexing [s[i]] with its bounds check. *)
Definition index {A} (s : slice A) (i : nat) : Proc A :=
  let l := match s with Some l => l | None => [] end in
  match nth_error l i with
  | Some x => ret x
  | None =>
      halt (Panic ("runtime error: index out of range ["
                   ++ strconv.FormatInt (Z.of_nat i) ++ "] with length "
                   ++ strconv.FormatInt (Z.of_nat (List.length l))))
  end.

(** What the process leaves behind: its output and its exit status.  A
    panic that nobody recovers is reported on standard error (the stack
    trace that follows the first line is left out) and exits with 2. *)
Record Outcome : Type := {
  console : Console;
  status : Z
}.

Definition exec (p : Proc unit) : Outcome :=
  match p {| stdout := []; stderr := [] |} with
  | (k, inl _) => {| console := k; status := 0 |}
  | (k, inr (Exit code)) => {| console := k; status := code |}
  | (k, inr (Panic msg)) =>
      {| console := {| stdout := stdout k;
                       stderr := stderr k ++ ["panic: " ++ msg ++ nl] |};
         status := 2 |}
  end.

(* ================================================================= *)
(** ** Packages [fmt] and [log] *)

(** An operand of a formatting call. *)
Inductive any : Type :=
| anyString (s : string)
| anyError (e : error).

Module fmt.

(** The text of an operand under [%s] and [%v]: a string as it is, an
    error through its [Error] method. *)
Definition text (a : any) : string :=
  match a with
  | anyString s => s
  | anyError e => Error e
  end.

(** [fmt.Sprintf] for the verbs the program uses, [%s] and [%v], and for
    [%%]; a verb without operand is reported in the output as [fmt] does.
    Other verbs are outside this model and are copied. *)
Fixpoint Sprintf (format : string) (args : list any) : string :=
  match format with
  | EmptyString => EmptyString
  | String c f1 =>
      if byteZ c =? 37 then
        match f1 with
        | EmptyString => "%!(NOVERB)"
        | String v f2 =>
            if (byteZ v =? 115) || (byteZ v =? 118) then
              match args with
              | a :: args' => text a ++ Sprintf f2 args'
              | [] => "%!" ++ String v "(MISSING)" ++ Sprintf f2 []
              end
            else if byteZ v =? 37 then String v (Sprintf f2 args)
            else String c (String v (Sprintf f2 args))
        end
      else String c (Sprintf f1 args)
  end.

Definition Printf (format : string) (args : list any) : Proc unit :=
  writeOut (Sprintf format args).

(** [fmt.Println] of one string. *)
Definition Println (s : string) : Proc unit := writeOut (s ++ nl).

End fmt.

Module log.

Definition endsWithNewline (s : string) : bool :=
  match String.get (String.length s - 1) s with
  | Some c => byteZ c =? 10
  | None => false
  end.

(** [log.Fatalf] on the standard logger: one write to standard error, the
    date and time [stamp] first and a newline last unless the message has
    one, then [os.Exit(1)]. *)
Definition Fatalf {A} (stamp : string) (format : string) (args : list any)
  : Proc A :=
  let msg := fmt.Sprintf format args in
  writeErr (stamp ++ " " ++ msg ++ (if endsWithNewline msg then EmptyString else nl)) ;;;
  os.Exit 1.

End log.

(* ================================================================= *)
(** ** The world outside the process *)

(** [aws.Config], as far as the program sets it. *)
Record Config : Type := { Region : string }.

(** [bedrockruntime.Client]. *)
Record Client : Type := { options : Config }.

Definition NewFromConfig (cfg : Config) : Client := {| options := cfg |}.

Record InvokeModelInput : Type := {
  ModelId : string;
  ContentType : string;
  Body : string
}.

Record InvokeModelOutput : Type := { OutputBody : string }.

(** The collaborators of the program: the credential and region
    resolution of the SDK, the remote call, and the clock of the
    logger. *)
Record World : Type := {
  LoadDefaultConfig : string -> result Config;
  InvokeModel : Client -> InvokeModelInput -> result InvokeModelOutput;
  stamp : string
}.

(* ================================================================= *)
(** ** [handleInvokeError] and [main] *)

Definition regionUnavailable : string :=
  "エラー: 選択されたリージョンでBedrockサービスが利用できません。リージョンごとのサービス提供状況を https://aws.amazon.com/about-aws/global-infrastructure/regional-product-services/ で確認してください" ++ nl.

Definition modelUnresolved : string :=
  dq "エラー: モデル識別子 '%s' からファンデーションモデルを解決できませんでした。指定されたモデルが存在し、指定されたリージョンでアクセス可能であることを確認してください" ++ nl.

Definition invokeFailed : string :=
  "エラー: Anthropic Claudeの呼び出しに失敗しました: %v" ++ nl.

Definition handleInvokeError (err : error) (modelID : string) : Proc unit :=
  let errMsg := Error err in
  if strings.Contains errMsg "no such host" then
    fmt.Printf regionUnavailable []
  else if strings.Contains errMsg "Could not resolve the foundation model" then
    fmt.Printf modelUnresolved [anyString modelID]
  else
    fmt.Printf invokeFailed [anyError err].

(** The request literal of [main], with its three texts named. *)
Definition buildRequest (system prompt : string) (maxTokens : Z)
  : ClaudeRequest :=
  {| AnthropicVersion := "bedrock-2023-05-31";
     MaxTokens := maxTokens;
     System := system;
     Messages :=
       Some [ {| Role := "user";
                 Content := Some [ {| Type_ := "text"; Text := prompt |} ] |} ]
  |}.

(** The body of [main] for a request with the given system instruction,
    prompt and token cap. *)
Definition mainWith (system prompt : string) (maxTokens : Z) (w : World)
  : Proc unit :=
  let region := "us-east-1" in
  match LoadDefaultConfig w region with
  | Err err =>
      log.Fatalf (stamp w) "AWSの設定読み込みに失敗しました: %v" [anyError err]
  | OK cfg =>
      let client := NewFromConfig cfg in
      let modelID := "anthropic.claude-3-5-sonnet-20240620-v1:0" in
      let request := buildRequest system prompt maxTokens in
      match Marshal request with
      | Err err =>
          log.Fatalf (stamp w) "リクエストのJSONエンコードに失敗しました: %v"
                     [anyError err]
      | OK body =>
          match InvokeModel w client
                  {| ModelId := modelID;
                     ContentType := "application/json";
                     Body := body |} with
          | Err err =>
              handleInvokeError err modelID ;;;
              os.Exit 1
          | OK result =>
              match Unmarshal (OutputBody result) (zero (A := ClaudeResponse)) with
              | Err err =>
                  log.Fatalf (stamp w) "レスポンスの解析に失敗しました: %v"
                             [anyError err]
              | OK response =>
                  c <~ index (ResponseContent response) 0 ;;
                  fmt.Println (Text c)
              end
          end
      end
  end.

(** The literals of the source. *)
Definition system : string := "幼稚園児を演じてください。".
Definition prompt : string := "タイの首都は？".
Definition request : ClaudeRequest := buildRequest system prompt 1024.

Definition main (w : World) : Proc unit := mainWith system prompt 1024 w.

(* ================================================================= *)
(** * Sanity checks of the model *)

Example ex_utf8_1 :
  utf8.DecodeRune "タイ" = (0x30BF, 3%nat) /\
  utf8.EncodeRune 0x30BF = "タ" /\
  utf8.ValidString "タイの首都は？" = true /\
  utf8.ValidString (String (byte 255) EmptyString) = false.
Proof. vm_compute. repeat split. Qed.

Example ex_encode_1 :
  json.encode (VStruct [("a<b", VString "x"); ("n", VInt (-1024));
                        ("l", VSlice (Some [VBool true; VSlice None]))])
  = OK (dq "{'a\u003cb':'x','n':-1024,'l':[true,null]}").
Proof. vm_compute. reflexivity. Qed.

Example ex_parse_1 :
  json.parse (dq " {'a' : [1, -2.5e+3, 'xé\n', true, null, {}], 'b':'タ'} ")
  = OK (json.JObject
          [("a", json.JArray [json.JNumber "1"; json.JNumber "-2.5e+3";
                              json.JString (String "x" (utf8.EncodeRune 233 ++ String (byte 10) EmptyString));
                              json.JBool true; json.JNull; json.JObject []]);
           ("b", json.JString "タ")]).
Proof. vm_compute. reflexivity. Qed.

Example ex_parse_2 :
  json.parse "[1,]" = Err (SyntaxError "invalid character ']' looking for beginning of value") /\
  json.parse "{" = Err (SyntaxError "unexpected end of JSON input") /\
  json.parse "01" = Err (SyntaxError "invalid character '1' after top-level value") /\
  json.parse "[1 2]" = Err (SyntaxError "invalid character '2' after array element") /\
  json.parse "nul" = Err (SyntaxError "invalid character ' ' in literal null (expecting 'l')") /\
  json.parse "[tr" = Err (SyntaxError "invalid character ' ' in literal true (expecting 'u')") /\
  json.parse "-" = Err (SyntaxError "invalid character ' ' in numeric literal") /\
  json.parse "1." = Err (SyntaxError "invalid character ' ' after decimal point in numeric literal") /\
  json.parse "[1e+" = Err (SyntaxError "invalid character ' ' in exponent of numeric literal") /\
  json.parse "1e5" = OK (json.JNumber "1e5") /\
  json.parse "[1" = Err (SyntaxError "unexpected end of JSON input") /\
  json.parse (String quote "ab") = Err (SyntaxError "unexpected end of JSON input") /\
  json.parse (String quote (String backslash EmptyString))
  = Err (SyntaxError "invalid character ' ' in string escape code") /\
  json.parse (String quote (String backslash "u00"))
  = Err (SyntaxError ("invalid character ' ' in " ++ String backslash "u hexadecimal character escape")) /\
  json.parse "tru3" = Err (SyntaxError "invalid character '3' in literal true (expecting 'e')").
Proof. vm_compute. repeat split. Qed.

Example ex_unmarshal_1 :
  Unmarshal (dq "{'id':'m1','Content':[{'type':'text','text':'Bangkok'},{'text':'x'}],'usage':{'input_tokens':12,'output_tokens':3},'extra':[1,2]}") (zero (A := ClaudeResponse))
  = OK {| ID := "m1"; ResponseType := EmptyString; ResponseRole := EmptyString;
          ResponseContent := Some [ {| Type_ := "text"; Text := "Bangkok" |};
                                    {| Type_ := EmptyString; Text := "x" |} ];
          StopReason := EmptyString; StopSequence := EmptyString;
          Usage := {| InputTokens := 12; OutputTokens := 3 |} |}.
Proof. vm_compute. reflexivity. Qed.

Example ex_unmarshal_2 :
  Unmarshal (dq "{'content':[{'text':5}]}") (zero (A := ClaudeResponse))
  = Err (UnmarshalTypeError "number" "string" "ClaudeTextContent" "content.text").
Proof. vm_compute. reflexivity. Qed.

Example ex_main_1 :
  exec (main {| LoadDefaultConfig := fun r => OK {| Region := r |};
                InvokeModel := fun _ _ =>
                  OK {| OutputBody := dq "{'content':[{'type':'text','text':'Bangkok'}]}" |};
                stamp := "2024/06/21 10:00:00" |})
  = {| console := {| stdout := ["Bangkok" ++ nl]; stderr := [] |}; status := 0 |}.
Proof. vm_compute. reflexivity. Qed.

Example ex_marshal_request :
  Marshal request = OK (dq "{'anthropic_version':'bedrock-2023-05-31','max_tokens':1024,'system':'幼稚園児を演じてください。','messages':[{'role':'user','content':[{'type':'text','text':'タイの首都は？'}]}]}").
Proof. vm_compute. reflexivity. Qed.

(* ================================================================= *)
(** * Properties *)

(** ** Substrings *)

(** [sub] occurs in [s]. *)
Definition occursIn (sub s : string) : Prop :=
  exists pre post, s = pre ++ sub ++ post.

Lemma append_assoc (a b c : string) : (a ++ b) ++ c = a ++ (b ++ c).
Proof. induction a as [|x a IH]; simpl; [reflexivity | now rewrite IH]. Qed.

Lemma append_nil_r (a : string) : a ++ EmptyString = a.
Proof. induction a as [|x a IH]; simpl; [reflexivity | now rewrite IH]. Qed.

Lemma length_append (a b : string) :
  String.length (a ++ b) = (String.length a + String.length b)%nat.
Proof. induction a as [|x a IH]; simpl; [reflexivity | now rewrite IH]. Qed.

Lemma HasPrefix_spec (s p : string) :
  strings.HasPrefix s p = true <-> exists post, s = p ++ post.
Proof.
  revert s; induction p as [|c p IH]; intros s; simpl.
  - split; [intros _; now exists s | intros _; destruct s; reflexivity].
  - destruct s as [|d s].
    + split; [discriminate | intros [post H]; discriminate].
    + simpl. rewrite andb_true_iff, Ascii.eqb_eq, IH. split.
      * intros [-> [post ->]]. now exists post.
      * intros [post H]. injection H as -> ->. split; [reflexivity | now exists post].
Qed.

Lemma Index_lower (s sub : string) : -1 <= strings.Index s sub.
Proof.
  induction s as [|c s IH]; cbn [strings.Index].
  - destruct (strings.HasPrefix EmptyString sub); lia.
  - destruct (strings.HasPrefix (String c s) sub); [lia|].
    destruct (Z.ltb_spec (strings.Index s sub) 0); lia.
Qed.

(** [strings.Contains] decides the occurrence of a substring. *)
Lemma Contains_spec (s sub : string) :
  strings.Contains s sub = true <-> occursIn sub s.
Proof.
  unfold strings.Contains, occursIn. rewrite Z.geb_le.
  induction s as [|c s IH]; cbn [strings.Index].
  - destruct (strings.HasPrefix EmptyString sub) eqn:E.
    + split; [intros _ | lia].
      apply HasPrefix_spec in E as [post E]. exists EmptyString, post. exact E.
    + split; [lia|]. intros (pre & post & H).
      destruct pre; [|discriminate]. simpl in H.
      assert (strings.HasPrefix EmptyString sub = true)
        by (apply HasPrefix_spec; now exists post).
      congruence.
  - destruct (strings.HasPrefix (String c s) sub) eqn:E.
    + split; [intros _ | lia].
      apply HasPrefix_spec in E as [post E]. exists EmptyString, post. exact E.
    + pose proof (Index_lower s sub) as L.
      destruct (Z.ltb_spec (strings.Index s sub) 0) as [Hn|Hn].
      * split; [lia|]. intros (pre & post & H).
        destruct pre as [|d pre]; simpl in H.
        -- assert (strings.HasPrefix (String c s) sub = true)
             by (apply HasPrefix_spec; now exists post).
           congruence.
        -- injection H as _ H.
           assert (0 <= strings.Index s sub)
             by (apply IH; now exists pre, post).
           lia.
      * split; [intros _ | lia].
        destruct (proj1 IH Hn) as (pre & post & ->).
        now exists (String c pre), post.
Qed.

Lemma Contains_false (s sub : string) :
  ~ occursIn sub s -> strings.Contains s sub = false.
Proof.
  intros H. destruct (strings.Contains s sub) eqn:E; [|reflexivity].
  now apply Contains_spec in E.
Qed.

(** ** Formatting *)

Fixpoint noPercent (s : string) : bool :=
  match s with
  | EmptyString => true
  | String c s' => negb (byteZ c =? 37) && noPercent s'
  end.

Lemma Sprintf_literal (p f : string) (args : list any) :
  noPercent p = true -> fmt.Sprintf (p ++ f) args = p ++ fmt.Sprintf f args.
Proof.
  induction p as [|c p IH]; simpl; [reflexivity|].
  intros H. apply andb_true_iff in H as [Hc Hp].
  destruct (byteZ c =? 37); [discriminate|]. now rewrite IH.
Qed.

Lemma Sprintf_plain (p : string) (args : list any) :
  noPercent p = true -> fmt.Sprintf p args = p.
Proof.
  intros H. rewrite <- (append_nil_r p) at 1.
  rewrite Sprintf_literal by exact H. simpl. apply append_nil_r.
Qed.

(** The three diagnostics as they are printed. *)
Definition regionUnavailableLine : string := regionUnavailable.

Definition modelUnresolvedLine (modelID : string) : string :=
  dq "エラー: モデル識別子 '" ++ modelID
  ++ dq "' からファンデーションモデルを解決できませんでした。指定されたモデルが存在し、指定されたリージョンでアクセス可能であることを確認してください"
  ++ nl.

Definition invokeFailedLine (err : error) : string :=
  "エラー: Anthropic Claudeの呼び出しに失敗しました: " ++ Error err ++ nl.

Lemma Sprintf_cons_verb (f : string) (a : any) (args : list any) :
  fmt.Sprintf (String "%" (String "s" f)) (a :: args) = fmt.text a ++ fmt.Sprintf f args.
Proof. reflexivity. Qed.

Lemma modelUnresolved_split :
  modelUnresolved =
    dq "エラー: モデル識別子 '" ++ String "%" (String "s"
     (dq "' からファンデーションモデルを解決できませんでした。指定されたモデルが存在し、指定されたリージョンでアクセス可能であることを確認してください" ++ nl)).
Proof. vm_compute. reflexivity. Qed.

Lemma Sprintf_modelUnresolved (modelID : string) :
  fmt.Sprintf modelUnresolved [anyString modelID] = modelUnresolvedLine modelID.
Proof.
  rewrite modelUnresolved_split.
  rewrite Sprintf_literal.
  - rewrite Sprintf_cons_verb. rewrite Sprintf_plain.
    + reflexivity.
    + vm_compute. reflexivity.
  - vm_compute. reflexivity.
Qed.

Lemma Sprintf_invokeFailed (err : error) :
  fmt.Sprintf invokeFailed [anyError err] = invokeFailedLine err.
Proof.
  unfold invokeFailed, invokeFailedLine.
  change "エラー: Anthropic Claudeの呼び出しに失敗しました: %v"
    with ("エラー: Anthropic Claudeの呼び出しに失敗しました: " ++ String "%" (String "v" EmptyString)).
  rewrite append_assoc, Sprintf_literal by (vm_compute; reflexivity).
  reflexivity.
Qed.

Lemma Sprintf_regionUnavailable :
  fmt.Sprintf regionUnavailable [] = regionUnavailableLine.
Proof. apply Sprintf_plain. vm_compute. reflexivity. Qed.

(** One more write on standard output, nothing on standard error, and the
    computation goes on. *)
Definition prints (line : string) (p : Proc unit) : Prop :=
  forall k, p k = ({| stdout := stdout k ++ [line]; stderr := stderr k |}, inl tt).

(** ** The classifier *)

(** C2. An error whose message contains "no such host" gets the
    region-unavailable diagnostic, whatever else the message contains and
    whatever the model identifier is. *)
Theorem classify_no_such_host (err : error) (modelID : string) :
  occursIn "no such host" (Error err) ->
  prints regionUnavailableLine (handleInvokeError err modelID).
Proof.
  intros H k. unfold handleInvokeError.
  apply Contains_spec in H. rewrite H.
  unfold fmt.Printf, writeOut. now rewrite Sprintf_regionUnavailable.
Qed.

Lemma classify_no_such_host_witness :
  occursIn "no such host"
    (Error (errorString "lookup bedrock: no such host; Could not resolve the foundation model")) /\
  prints regionUnavailableLine
    (handleInvokeError
       (errorString "lookup bedrock: no such host; Could not resolve the foundation model")
       "m").
Proof.
  assert (H : occursIn "no such host"
    (Error (errorString "lookup bedrock: no such host; Could not resolve the foundation model"))).
  { exists "lookup bedrock: ", "; Could not resolve the foundation model". reflexivity. }
  split; [exact H | apply (classify_no_such_host _ "m" H)].
Defined.

(** C3. An error whose message contains "Could not resolve the foundation
    model" and not "no such host" gets the diagnostic that carries the
    model identifier as it was supplied, between double quotes. *)
Theorem classify_model_unresolved (err : error) (modelID : string) :
  occursIn "Could not resolve the foundation model" (Error err) ->
  ~ occursIn "no such host" (Error err) ->
  prints (modelUnresolvedLine modelID) (handleInvokeError err modelID) /\
  occursIn (String quote (modelID ++ String quote EmptyString))
           (modelUnresolvedLine modelID).
Proof.
  intros H1 H2. split.
  - intros k. unfold handleInvokeError.
    rewrite (Contains_false H2). apply Contains_spec in H1. rewrite H1.
    unfold fmt.Printf, writeOut. now rewrite Sprintf_modelUnresolved.
  - unfold modelUnresolvedLine.
    exists "エラー: モデル識別子 ".
    exists (" からファンデーションモデルを解決できませんでした。指定されたモデルが存在し、指定されたリージョンでアクセス可能であることを確認してください" ++ nl).
    change (dq "エラー: モデル識別子 '") with ("エラー: モデル識別子 " ++ String quote EmptyString).
    change (dq "' からファンデーションモデルを解決できませんでした。指定されたモデルが存在し、指定されたリージョンでアクセス可能であることを確認してください")
      with (String quote " からファンデーションモデルを解決できませんでした。指定されたモデルが存在し、指定されたリージョンでアクセス可能であることを確認してください").
    rewrite !append_assoc. simpl. rewrite !append_assoc. reflexivity.
Qed.

Lemma classify_model_unresolved_witness :
  prints (modelUnresolvedLine "anthropic.claude-9")
    (handleInvokeError
       (errorString "ValidationException: Could not resolve the foundation model from the provided model identifier.")
       "anthropic.claude-9") /\
  occursIn (String quote ("anthropic.claude-9" ++ String quote EmptyString))
           (modelUnresolvedLine "anthropic.claude-9").
Proof.
  apply (classify_model_unresolved
           (errorString "ValidationException: Could not resolve the foundation model from the provided model identifier.")
           "anthropic.claude-9").
  - exists "ValidationException: ", " from the provided model identifier.". reflexivity.
  - intros H. apply Contains_spec in H. vm_compute in H. discriminate.
Defined.

(** C4. An error whose message contains neither of the two texts gets the
    generic diagnostic, which carries the display text of the error. *)
Theorem classify_other (err : error) (modelID : string) :
  ~ occursIn "no such host" (Error err) ->
  ~ occursIn "Could not resolve the foundation model" (Error err) ->
  prints (invokeFailedLine err) (handleInvokeError err modelID) /\
  occursIn (Error err) (invokeFailedLine err).
Proof.
  intros H1 H2. split.
  - intros k. unfold handleInvokeError.
    rewrite (Contains_false H1), (Contains_false H2).
    unfold fmt.Printf, writeOut. now rewrite Sprintf_invokeFailed.
  - now exists "エラー: Anthropic Claudeの呼び出しに失敗しました: ", nl.
Qed.

Lemma classify_other_witness :
  prints (invokeFailedLine (errorString "AccessDeniedException: not authorized"))
    (handleInvokeError (errorString "AccessDeniedException: not authorized") "m") /\
  occursIn (Error (errorString "AccessDeniedException: not authorized"))
           (invokeFailedLine (errorString "AccessDeniedException: not authorized")).
Proof.
  apply (classify_other (errorString "AccessDeniedException: not authorized") "m").
  - intros H. apply Contains_spec in H. vm_compute in H. discriminate.
  - intros H. apply Contains_spec in H. vm_compute in H. discriminate.
Defined.

(** ** The run of [main] *)

Definition region : string := "us-east-1".
Definition modelID : string := "anthropic.claude-3-5-sonnet-20240620-v1:0".

(** The input of the remote call for a request body. *)
Definition invokeInput (body : string) : InvokeModelInput :=
  {| ModelId := modelID; ContentType := "application/json"; Body := body |}.

(** The JSON text of the request of [main]. *)
Definition requestBody : string :=
  dq "{'anthropic_version':'bedrock-2023-05-31','max_tokens':1024,'system':'幼稚園児を演じてください。','messages':[{'role':'user','content':[{'type':'text','text':'タイの首都は？'}]}]}".

Lemma Marshal_request : Marshal request = OK requestBody.
Proof. vm_compute. reflexivity. Qed.

(** What is left of [main] once the configuration is loaded and the
    request is encoded. *)
Definition afterInvoke (w : World) (r : result InvokeModelOutput) : Proc unit :=
  match r with
  | Err err => handleInvokeError err modelID ;;; os.Exit 1
  | OK result =>
      match Unmarshal (OutputBody result) (zero (A := ClaudeResponse)) with
      | Err err =>
          log.Fatalf (stamp w) "レスポンスの解析に失敗しました: %v" [anyError err]
      | OK response =>
          c <~ index (ResponseContent response) 0 ;;
          fmt.Println (Text c)
      end
  end.

Lemma mainWith_invokes (sys p : string) (mt : Z) (w : World) (cfg : Config)
    (body : string) :
  LoadDefaultConfig w region = OK cfg ->
  Marshal (buildRequest sys p mt) = OK body ->
  mainWith sys p mt w
  = afterInvoke w (InvokeModel w (NewFromConfig cfg) (invokeInput body)).
Proof.
  intros Hc Hm. unfold mainWith. fold region. rewrite Hc. cbv zeta.
  rewrite Hm. reflexivity.
Qed.

Lemma main_invokes (w : World) (cfg : Config) :
  LoadDefaultConfig w region = OK cfg ->
  main w = afterInvoke w (InvokeModel w (NewFromConfig cfg) (invokeInput requestBody)).
Proof.
  intros Hc. unfold main. apply mainWith_invokes; [exact Hc | exact Marshal_request].
Qed.

Lemma afterInvoke_success (w : World) (out : InvokeModelOutput)
    (resp : ClaudeResponse) (c : ClaudeTextContent) (rest : list ClaudeTextContent) :
  Unmarshal (OutputBody out) (zero (A := ClaudeResponse)) = OK resp ->
  ResponseContent resp = Some (c :: rest) ->
  exec (afterInvoke w (OK out))
  = {| console := {| stdout := [Text c ++ nl]; stderr := [] |}; status := 0 |}.
Proof.
  intros Hu Hc. unfold afterInvoke. rewrite Hu.
  unfold exec, pbind, index. rewrite Hc. reflexivity.
Qed.

Definition okConfig (r : string) : result Config := OK {| Region := r |}.

(** A world whose remote call answers every request with [body]. *)
Definition answering (body : string) : World :=
  {| LoadDefaultConfig := okConfig;
     InvokeModel := fun _ _ => OK {| OutputBody := body |};
     stamp := "2024/06/21 10:00:00" |}.

(** A world whose remote call fails with the message [text]. *)
Definition failing (text : string) : World :=
  {| LoadDefaultConfig := okConfig;
     InvokeModel := fun _ _ => Err (errorString text);
     stamp := "2024/06/21 10:00:00" |}.

(** A world without credentials. *)
Definition unconfigured : World :=
  {| LoadDefaultConfig := fun _ => Err (errorString "failed to load shared config");
     InvokeModel := fun _ _ => Err (errorString "unreachable");
     stamp := "2024/06/21 10:00:00" |}.

(** C1. On a successful remote call the program prints the text of the
    first content block of the decoded response, followed by a newline, and
    nothing else; the blocks after the first play no part. *)
Theorem main_prints_first_text (w : World) (cfg : Config)
    (out : InvokeModelOutput) (resp : ClaudeResponse)
    (c : ClaudeTextContent) (rest : list ClaudeTextContent) :
  LoadDefaultConfig w region = OK cfg ->
  InvokeModel w (NewFromConfig cfg) (invokeInput requestBody) = OK out ->
  Unmarshal (OutputBody out) (zero (A := ClaudeResponse)) = OK resp ->
  ResponseContent resp = Some (c :: rest) ->
  exec (main w)
  = {| console := {| stdout := [Text c ++ nl]; stderr := [] |}; status := 0 |}.
Proof.
  intros Hc Hi Hu Hr. rewrite (main_invokes w Hc), Hi.
  exact (afterInvoke_success w out Hu Hr).
Qed.

Definition bangkokBody : string :=
  dq "{'id':'msg_01','type':'message','role':'assistant','content':[{'type':'text','text':'Bangkok'}],'stop_reason':'end_turn','stop_sequence':null,'usage':{'input_tokens':25,'output_tokens':4}}".

Definition twoBlocksBody : string :=
  dq "{'content':[{'type':'text','text':'Bangkok'},{'type':'text','text':'Krung Thep'}]}".

Lemma main_prints_first_text_witness :
  exec (main (answering bangkokBody))
  = {| console := {| stdout := ["Bangkok" ++ nl]; stderr := [] |}; status := 0 |}
  /\
  exec (main (answering twoBlocksBody))
  = {| console := {| stdout := ["Bangkok" ++ nl]; stderr := [] |}; status := 0 |}.
Proof.
  split.
  - apply (@main_prints_first_text (answering bangkokBody) {| Region := region |}
             {| OutputBody := bangkokBody |}
             {| ID := "msg_01"; ResponseType := "message"; ResponseRole := "assistant";
                ResponseContent := Some [{| Type_ := "text"; Text := "Bangkok" |}];
                StopReason := "end_turn"; StopSequence := EmptyString;
                Usage := {| InputTokens := 25; OutputTokens := 4 |} |}
             {| Type_ := "text"; Text := "Bangkok" |} []);
      vm_compute; reflexivity.
  - apply (@main_prints_first_text (answering twoBlocksBody) {| Region := region |}
             {| OutputBody := twoBlocksBody |}
             {| ID := EmptyString; ResponseType := EmptyString; ResponseRole := EmptyString;
                ResponseContent := Some [{| Type_ := "text"; Text := "Bangkok" |};
                                         {| Type_ := "text"; Text := "Krung Thep" |}];
                StopReason := EmptyString; StopSequence := EmptyString;
                Usage := {| InputTokens := 0; OutputTokens := 0 |} |}
             {| Type_ := "text"; Text := "Bangkok" |}
             [{| Type_ := "text"; Text := "Krung Thep" |}]);
      vm_compute; reflexivity.
Defined.

(** C7. A decoded response without content blocks makes the read of index 0
    a run-time panic: nothing is printed and the process dies with the
    bounds error. *)
Theorem empty_content_panics (w : World) (cfg : Config)
    (out : InvokeModelOutput) (resp : ClaudeResponse) :
  LoadDefaultConfig w region = OK cfg ->
  InvokeModel w (NewFromConfig cfg) (invokeInput requestBody) = OK out ->
  Unmarshal (OutputBody out) (zero (A := ClaudeResponse)) = OK resp ->
  ResponseContent resp = None \/ ResponseContent resp = Some [] ->
  main w {| stdout := []; stderr := [] |}
  = ({| stdout := []; stderr := [] |},
     inr (Panic "runtime error: index out of range [0] with length 0")) /\
  exec (main w)
  = {| console :=
         {| stdout := [];
            stderr := ["panic: runtime error: index out of range [0] with length 0" ++ nl] |};
       status := 2 |}.
Proof.
  intros Hc Hi Hu Hr. rewrite (main_invokes w Hc), Hi.
  unfold exec, afterInvoke. rewrite Hu. unfold pbind, index.
  destruct Hr as [-> | ->]; split; reflexivity.
Qed.

Lemma empty_content_panics_witness :
  exec (main (answering (dq "{'id':'msg_02','content':[],'stop_reason':'max_tokens'}")))
  = {| console :=
         {| stdout := [];
            stderr := ["panic: runtime error: index out of range [0] with length 0" ++ nl] |};
       status := 2 |}.
Proof.
  apply (@empty_content_panics
           (answering (dq "{'id':'msg_02','content':[],'stop_reason':'max_tokens'}"))
           {| Region := region |}
           {| OutputBody := dq "{'id':'msg_02','content':[],'stop_reason':'max_tokens'}" |}
           {| ID := "msg_02"; ResponseType := EmptyString; ResponseRole := EmptyString;
              ResponseContent := Some [];
              StopReason := "max_tokens"; StopSequence := EmptyString;
              Usage := {| InputTokens := 0; OutputTokens := 0 |} |}).
  - vm_compute; reflexivity.
  - vm_compute; reflexivity.
  - vm_compute; reflexivity.
  - right. reflexivity.
Defined.

(** The JSON text of the request for the scenario in English. *)
Definition scenarioBody : string :=
  dq "{'anthropic_version':'bedrock-2023-05-31','max_tokens':1024,'system':'Act as a kindergartner.','messages':[{'role':'user','content':[{'type':'text','text':'What is the capital of Thailand?'}]}]}".

Lemma Marshal_scenario :
  Marshal (buildRequest "Act as a kindergartner." "What is the capital of Thailand?" 1024)
  = OK scenarioBody.
Proof. vm_compute. reflexivity. Qed.

(** The outcome of the scenario. *)
Definition bangkok : Outcome :=
  {| console := {| stdout := ["Bangkok!" ++ nl]; stderr := [] |}; status := 0 |}.

(** C6. [main] sends its request, the scenario in the Japanese of the
    source with 1024 tokens at most, and when the remote call returns a
    response whose first content text is "Bangkok!", it prints "Bangkok!"
    and exits with status 0.  The texts and the token cap play no part in
    that: the body of [main] does the same for every system instruction,
    prompt and token cap, whatever the bytes of the encoded request, so
    for "Act as a kindergartner.", "What is the capital of Thailand?" and
    1024 too. *)
Theorem end_to_end :
  (forall (w : World) (cfg : Config) (out : InvokeModelOutput)
          (resp : ClaudeResponse) (c : ClaudeTextContent)
          (rest : list ClaudeTextContent),
     LoadDefaultConfig w region = OK cfg ->
     InvokeModel w (NewFromConfig cfg) (invokeInput requestBody) = OK out ->
     Unmarshal (OutputBody out) (zero (A := ClaudeResponse)) = OK resp ->
     ResponseContent resp = Some (c :: rest) ->
     Text c = "Bangkok!" ->
     exec (main w) = bangkok) /\
  (forall (sys p : string) (mt : Z) (w : World) (cfg : Config) (body : string)
          (out : InvokeModelOutput) (resp : ClaudeResponse)
          (c : ClaudeTextContent) (rest : list ClaudeTextContent),
     LoadDefaultConfig w region = OK cfg ->
     Marshal (buildRequest sys p mt) = OK body ->
     InvokeModel w (NewFromConfig cfg) (invokeInput body) = OK out ->
     Unmarshal (OutputBody out) (zero (A := ClaudeResponse)) = OK resp ->
     ResponseContent resp = Some (c :: rest) ->
     Text c = "Bangkok!" ->
     exec (mainWith sys p mt w) = bangkok).
Proof.
  assert (G : forall sys p mt w cfg body out resp c rest,
             LoadDefaultConfig w region = OK cfg ->
             Marshal (buildRequest sys p mt) = OK body ->
             InvokeModel w (NewFromConfig cfg) (invokeInput body) = OK out ->
             Unmarshal (OutputBody out) (zero (A := ClaudeResponse)) = OK resp ->
             ResponseContent resp = Some (c :: rest) ->
             Text c = "Bangkok!" ->
             exec (mainWith sys p mt w) = bangkok).
  { intros sys p mt w cfg body out resp c rest Hc Hm Hi Hu Hr Ht.
    rewrite (mainWith_invokes w Hc Hm), Hi. unfold bangkok. rewrite <- Ht.
    exact (afterInvoke_success w out Hu Hr). }
  split; [|exact G].
  intros w cfg out resp c rest Hc Hi Hu Hr Ht. unfold main.
  exact (G system prompt 1024 w cfg requestBody out resp c rest
           Hc Marshal_request Hi Hu Hr Ht).
Qed.

(** The mocked remote call of the scenario: called for the expected model
    with the expected body as JSON it answers with a first content text
    "Bangkok!", and it refuses every other call. *)
Definition bangkokReply : string :=
  dq "{'role':'assistant','content':[{'type':'text','text':'Bangkok!'}]}".

Definition mock (expected : string) : World :=
  {| LoadDefaultConfig := okConfig;
     InvokeModel := fun _ input =>
       if String.eqb (ModelId input) modelID
          && String.eqb (ContentType input) "application/json"
          && String.eqb (Body input) expected
       then OK {| OutputBody := bangkokReply |}
       else Err (errorString "unexpected request");
     stamp := "2024/06/21 10:00:00" |}.

Definition bangkokResponse : ClaudeResponse :=
  {| ID := EmptyString; ResponseType := EmptyString; ResponseRole := "assistant";
     ResponseContent := Some [{| Type_ := "text"; Text := "Bangkok!" |}];
     StopReason := EmptyString; StopSequence := EmptyString;
     Usage := {| InputTokens := 0; OutputTokens := 0 |} |}.

Lemma end_to_end_witness :
  exec (main (mock requestBody)) = bangkok /\
  exec (mainWith "Act as a kindergartner." "What is the capital of Thailand?" 1024
          (mock scenarioBody))
  = bangkok.
Proof.
  split.
  - apply (proj1 end_to_end (mock requestBody) {| Region := region |}
             {| OutputBody := bangkokReply |} bangkokResponse
             {| Type_ := "text"; Text := "Bangkok!" |} []);
      vm_compute; reflexivity.
  - apply (proj2 end_to_end "Act as a kindergartner."
             "What is the capital of Thailand?" 1024 (mock scenarioBody)
             {| Region := region |} scenarioBody
             {| OutputBody := bangkokReply |} bangkokResponse
             {| Type_ := "text"; Text := "Bangkok!" |} []);
      vm_compute; reflexivity.
Defined.

(** ** The request *)

(** The invariant of the data model on a request: it has a message, every
    message is from the user and has a content block, and every block is a
    text block. *)
Definition wellFormed (r : ClaudeRequest) : Prop :=
  exists ms,
    Messages r = Some ms /\ ms <> [] /\
    Forall (fun m =>
              Role m = "user" /\
              exists cs, Content m = Some cs /\ cs <> [] /\
                         Forall (fun c => Type_ c = "text") cs) ms.

(** C8. The request that [main] builds has a message, each of its messages
    has the role "user" and a content block, and each block has the type
    "text"; so has the request built from any other three texts. *)
Theorem request_wellFormed :
  wellFormed request /\
  forall (sys p : string) (mt : Z), wellFormed (buildRequest sys p mt).
Proof.
  assert (H : forall sys p mt, wellFormed (buildRequest sys p mt)).
  { intros sys p mt. unfold wellFormed, buildRequest. cbn [Messages].
    eexists. split; [reflexivity|]. split; [discriminate|].
    constructor; [|constructor]. cbn [Role Content]. split; [reflexivity|].
    eexists. split; [reflexivity|]. split; [discriminate|].
    constructor; [reflexivity | constructor]. }
  split; [apply H | exact H].
Qed.

(** ** The two output channels *)

(** C9, as the specification states it, fails: without credentials the program writes
    nothing on standard output; its diagnostic is on standard error. *)
Lemma stdout_not_on_every_path :
  ~ (forall w : World, stdout (console (exec (main w))) <> []).
Proof.
  intros H. apply (H unconfigured). vm_compute. reflexivity.
Qed.

Lemma handleInvokeError_one_line (err : error) (m : string) :
  exists diag, prints (diag ++ nl) (handleInvokeError err m).
Proof.
  unfold handleInvokeError, fmt.Printf, prints, writeOut.
  destruct (strings.Contains (Error err) "no such host").
  - rewrite Sprintf_regionUnavailable. eexists. intros k. reflexivity.
  - destruct (strings.Contains (Error err) "Could not resolve the foundation model").
    + rewrite Sprintf_modelUnresolved. unfold modelUnresolvedLine.
      rewrite <- !append_assoc. eexists. intros k. reflexivity.
    + rewrite Sprintf_invokeFailed. unfold invokeFailedLine.
      rewrite <- append_assoc. eexists. intros k. reflexivity.
Qed.

Lemma exec_Fatalf (st format : string) (args : list any) :
  exists line,
    exec (log.Fatalf st format args)
    = {| console := {| stdout := []; stderr := [line] |}; status := 1 |}.
Proof. eexists. reflexivity. Qed.

(** C9, amended. On success the program writes one line on standard
    output, the text of the first content block, and nothing on standard
    error.  When the remote call fails it writes one diagnostic line on
    standard output, nothing on standard error, and exits with 1.  When the
    configuration cannot be loaded or the response cannot be decoded it
    writes nothing on standard output: the one diagnostic line is on
    standard error, and it exits with 1. *)
Theorem output_channels (w : World) :
  (forall err,
     LoadDefaultConfig w region = Err err ->
     exists line,
       exec (main w)
       = {| console := {| stdout := []; stderr := [line] |}; status := 1 |}) /\
  (forall cfg err,
     LoadDefaultConfig w region = OK cfg ->
     InvokeModel w (NewFromConfig cfg) (invokeInput requestBody) = Err err ->
     exists diag,
       exec (main w)
       = {| console := {| stdout := [diag ++ nl]; stderr := [] |}; status := 1 |}) /\
  (forall cfg out err,
     LoadDefaultConfig w region = OK cfg ->
     InvokeModel w (NewFromConfig cfg) (invokeInput requestBody) = OK out ->
     Unmarshal (OutputBody out) (zero (A := ClaudeResponse)) = Err err ->
     exists line,
       exec (main w)
       = {| console := {| stdout := []; stderr := [line] |}; status := 1 |}) /\
  (forall cfg out resp c rest,
     LoadDefaultConfig w region = OK cfg ->
     InvokeModel w (NewFromConfig cfg) (invokeInput requestBody) = OK out ->
     Unmarshal (OutputBody out) (zero (A := ClaudeResponse)) = OK resp ->
     ResponseContent resp = Some (c :: rest) ->
     exec (main w)
     = {| console := {| stdout := [Text c ++ nl]; stderr := [] |}; status := 0 |}).
Proof.
  split; [|split; [|split]].
  - intros err Hc. unfold main, mainWith. fold region. rewrite Hc.
    apply exec_Fatalf.
  - intros cfg err Hc Hi. rewrite (main_invokes w Hc), Hi.
    destruct (handleInvokeError_one_line err modelID) as [diag Hd].
    exists diag. unfold afterInvoke, exec, pbind. rewrite Hd. reflexivity.
  - intros cfg out err Hc Hi Hu. rewrite (main_invokes w Hc), Hi.
    unfold afterInvoke. rewrite Hu. apply exec_Fatalf.
  - intros cfg out resp c rest Hc Hi Hu Hr.
    rewrite (main_invokes w Hc), Hi. exact (afterInvoke_success w out Hu Hr).
Qed.

Lemma output_channels_witness :
  (exists line,
     exec (main unconfigured)
     = {| console := {| stdout := []; stderr := [line] |}; status := 1 |}) /\
  (exists diag,
     exec (main (failing "dial tcp: lookup bedrock-runtime.us-east-1.amazonaws.com: no such host"))
     = {| console := {| stdout := [diag ++ nl]; stderr := [] |}; status := 1 |}) /\
  (exists line,
     exec (main (answering "<html>"))
     = {| console := {| stdout := []; stderr := [line] |}; status := 1 |}) /\
  exec (main (answering bangkokBody))
  = {| console := {| stdout := ["Bangkok" ++ nl]; stderr := [] |}; status := 0 |}.
Proof.
  split; [|split; [|split]].
  - apply (proj1 (output_channels unconfigured)
             (errorString "failed to load shared config")).
    reflexivity.
  - apply (proj1 (proj2 (output_channels
             (failing "dial tcp: lookup bedrock-runtime.us-east-1.amazonaws.com: no such host")))
             {| Region := region |}
             (errorString "dial tcp: lookup bedrock-runtime.us-east-1.amazonaws.com: no such host"));
      reflexivity.
  - apply (proj1 (proj2 (proj2 (output_channels (answering "<html>"))))
             {| Region := region |} {| OutputBody := "<html>" |}
             (SyntaxError "invalid character '<' looking for beginning of value"));
      vm_compute; reflexivity.
  - apply (proj2 (proj2 (proj2 (output_channels (answering bangkokBody))))
             {| Region := region |} {| OutputBody := bangkokBody |}
             {| ID := "msg_01"; ResponseType := "message"; ResponseRole := "assistant";
                ResponseContent := Some [{| Type_ := "text"; Text := "Bangkok" |}];
                StopReason := "end_turn"; StopSequence := EmptyString;
                Usage := {| InputTokens := 25; OutputTokens := 4 |} |}
             {| Type_ := "text"; Text := "Bangkok" |} []);
      vm_compute; reflexivity.
Defined.

(** ** Bytes *)

Lemma byteZ_range (c : ascii) : 0 <= byteZ c < 256.
Proof.
  unfold byteZ. pose proof (N_ascii_bounded c) as H. lia.
Qed.

Lemma byte_byteZ (c : ascii) : byte (byteZ c) = c.
Proof.
  unfold byte. rewrite Z.mod_small by apply byteZ_range.
  unfold byteZ. rewrite N2Z.id. apply ascii_N_embedding.
Qed.

Lemma byteZ_byte (z : Z) : 0 <= z < 256 -> byteZ (byte z) = z.
Proof.
  intros H. unfold byte, byteZ. rewrite Z.mod_small by exact H.
  rewrite N_ascii_embedding by lia. lia.
Qed.

Lemma take_drop (n : nat) (s : string) : take n s ++ drop n s = s.
Proof.
  revert s; induction n as [|n IH]; intros [|c s]; simpl; try reflexivity.
  now rewrite IH.
Qed.

Lemma length_drop (n : nat) (s : string) :
  String.length (drop n s) = (String.length s - n)%nat.
Proof.
  revert s; induction n as [|n IH]; intros [|c s]; simpl; try reflexivity.
  apply IH.
Qed.

(** ** Checking a property on every number of a range *)

Definition range (lo : Z) (n : nat) : list Z :=
  map (fun i => lo + Z.of_nat i) (seq 0 n).

Definition allIn (lo : Z) (n : nat) (f : Z -> bool) : bool :=
  forallb f (range lo n).

Lemma allIn_spec (lo : Z) (n : nat) (f : Z -> bool) :
  allIn lo n f = true ->
  forall x, lo <= x < lo + Z.of_nat n -> f x = true.
Proof.
  unfold allIn. rewrite forallb_forall. intros H x Hx. apply H.
  unfold range. apply in_map_iff. exists (Z.to_nat (x - lo)). split; [lia|].
  apply in_seq. lia.
Qed.

(** ** UTF-8: what [DecodeRune] accepts, [EncodeRune] writes back *)

Definition rune2 (p0 b1 : Z) : Z :=
  Z.lor (Z.shiftl (Z.land p0 utf8.mask2) 6) (Z.land b1 utf8.maskx).

Definition rune3 (p0 b1 b2 : Z) : Z :=
  Z.lor (Z.lor (Z.shiftl (Z.land p0 utf8.mask3) 12)
               (Z.shiftl (Z.land b1 utf8.maskx) 6))
        (Z.land b2 utf8.maskx).

Definition rune4 (p0 b1 b2 b3 : Z) : Z :=
  Z.lor (Z.lor (Z.lor (Z.shiftl (Z.land p0 utf8.mask4) 18)
                      (Z.shiftl (Z.land b1 utf8.maskx) 12))
               (Z.shiftl (Z.land b2 utf8.maskx) 6))
        (Z.land b3 utf8.maskx).

(** The leading byte [p0] opens a sequence of [n] bytes and [b1] may
    follow it. *)
Definition opens (n : nat) (p0 b1 : Z) : bool :=
  match utf8.first p0 with
  | utf8.sz m lo hi => (m =? n)%nat && (lo <=? b1) && (b1 <=? hi)
  | _ => false
  end.

Lemma opens_range (n : nat) (p0 b1 : Z) :
  opens n p0 b1 = true ->
  0x80 <= b1 < 0xC0 /\
  (n = 2%nat /\ 0xC2 <= p0 < 0xE0 \/
   n = 3%nat /\ 0xE0 <= p0 < 0xF0 /\
     (p0 = 0xE0 -> 0xA0 <= b1) /\ (p0 = 0xED -> b1 < 0xA0) \/
   n = 4%nat /\ 0xF0 <= p0 < 0xF5 /\
     (p0 = 0xF0 -> 0x90 <= b1) /\ (p0 = 0xF4 -> b1 < 0x90)).
Proof.
  unfold opens, utf8.first, utf8.locb, utf8.hicb.
  repeat match goal with
         | |- context [if ?a <? ?b then _ else _] => destruct (Z.ltb_spec a b)
         | |- context [if ?a =? ?b then _ else _] => destruct (Z.eqb_spec a b)
         end; try discriminate;
    rewrite !andb_true_iff, Nat.eqb_eq, !Z.leb_le; lia.
Qed.

Lemma cont_range (b : Z) : utf8.cont b = true -> 0x80 <= b < 0xC0.
Proof.
  unfold utf8.cont, utf8.locb, utf8.hicb.
  rewrite andb_true_iff, !Z.leb_le. lia.
Qed.

(** Bit operations on the bytes of a sequence, as arithmetic. *)

Lemma land_shiftl_small (a x k : Z) :
  0 <= k -> 0 <= x < 2 ^ k -> Z.land (Z.shiftl a k) x = 0.
Proof.
  intros Hk Hx. apply Z.bits_inj'. intros n Hn.
  rewrite Z.land_spec, Z.bits_0.
  destruct (Z.lt_ge_cases n k) as [L | G].
  - now rewrite Z.shiftl_spec_low.
  - destruct (Z.eq_dec x 0) as [-> | Nz].
    + now rewrite Z.bits_0, andb_false_r.
    + rewrite (Z.bits_above_log2 x n), andb_false_r; [reflexivity | lia |].
      apply Z.log2_lt_pow2; [lia|].
      apply Z.lt_le_trans with (2 ^ k); [lia|].
      apply Z.pow_le_mono_r; lia.
Qed.

Lemma lor_shiftl_small (a x k : Z) :
  0 <= k -> 0 <= x < 2 ^ k -> Z.lor (Z.shiftl a k) x = a * 2 ^ k + x.
Proof.
  intros Hk Hx. rewrite <- Z.shiftl_mul_pow2 by exact Hk.
  rewrite <- Z.lxor_lor by (now apply land_shiftl_small).
  symmetry. apply Z.add_nocarry_lxor. now apply land_shiftl_small.
Qed.

Lemma land_maskx (b : Z) : 0x80 <= b < 0xC0 -> Z.land b utf8.maskx = b - 0x80.
Proof.
  intros H.
  assert (C : allIn 0x80 64 (fun b => Z.land b utf8.maskx =? b - 0x80) = true)
    by (vm_compute; reflexivity).
  apply Z.eqb_eq. exact (@allIn_spec _ _ _ C b ltac:(lia)).
Qed.

Lemma land_mask2 (p : Z) : 0xC0 <= p < 0xE0 -> Z.land p utf8.mask2 = p - 0xC0.
Proof.
  intros H.
  assert (C : allIn 0xC0 32 (fun b => Z.land b utf8.mask2 =? b - 0xC0) = true)
    by (vm_compute; reflexivity).
  apply Z.eqb_eq. exact (@allIn_spec _ _ _ C p ltac:(lia)).
Qed.

Lemma land_mask3 (p : Z) : 0xE0 <= p < 0xF0 -> Z.land p utf8.mask3 = p - 0xE0.
Proof.
  intros H.
  assert (C : allIn 0xE0 16 (fun b => Z.land b utf8.mask3 =? b - 0xE0) = true)
    by (vm_compute; reflexivity).
  apply Z.eqb_eq. exact (@allIn_spec _ _ _ C p ltac:(lia)).
Qed.

Lemma land_mask4 (p : Z) : 0xF0 <= p < 0xF8 -> Z.land p utf8.mask4 = p - 0xF0.
Proof.
  intros H.
  assert (C : allIn 0xF0 8 (fun b => Z.land b utf8.mask4 =? b - 0xF0) = true)
    by (vm_compute; reflexivity).
  apply Z.eqb_eq. exact (@allIn_spec _ _ _ C p ltac:(lia)).
Qed.

Lemma rune2_eq (p0 b1 : Z) :
  0xC0 <= p0 < 0xE0 -> 0x80 <= b1 < 0xC0 ->
  rune2 p0 b1 = (p0 - 0xC0) * 64 + (b1 - 0x80).
Proof.
  intros Hp H1. unfold rune2. rewrite land_mask2, land_maskx by assumption.
  rewrite lor_shiftl_small by lia. lia.
Qed.

Lemma rune3_eq (p0 b1 b2 : Z) :
  0xE0 <= p0 < 0xF0 -> 0x80 <= b1 < 0xC0 -> 0x80 <= b2 < 0xC0 ->
  rune3 p0 b1 b2 = (p0 - 0xE0) * 4096 + (b1 - 0x80) * 64 + (b2 - 0x80).
Proof.
  intros Hp H1 H2. unfold rune3.
  rewrite land_mask3, !land_maskx by assumption.
  replace (Z.shiftl (p0 - 224) 12) with (Z.shiftl (Z.shiftl (p0 - 224) 6) 6)
    by (rewrite Z.shiftl_shiftl by lia; reflexivity).
  rewrite <- Z.shiftl_lor.
  rewrite (@lor_shiftl_small (p0 - 224) (b1 - 128) 6) by lia.
  rewrite lor_shiftl_small by lia. lia.
Qed.

Lemma rune4_eq (p0 b1 b2 b3 : Z) :
  0xF0 <= p0 < 0xF8 -> 0x80 <= b1 < 0xC0 -> 0x80 <= b2 < 0xC0 ->
  0x80 <= b3 < 0xC0 ->
  rune4 p0 b1 b2 b3
  = (p0 - 0xF0) * 262144 + (b1 - 0x80) * 4096 + (b2 - 0x80) * 64 + (b3 - 0x80).
Proof.
  intros Hp H1 H2 H3. unfold rune4.
  rewrite land_mask4, !land_maskx by assumption.
  replace (Z.shiftl (p0 - 240) 18)
    with (Z.shiftl (Z.shiftl (Z.shiftl (p0 - 240) 6) 6) 6)
    by (rewrite !Z.shiftl_shiftl by lia; reflexivity).
  replace (Z.shiftl (b1 - 128) 12) with (Z.shiftl (Z.shiftl (b1 - 128) 6) 6)
    by (rewrite Z.shiftl_shiftl by lia; reflexivity).
  rewrite <- !Z.shiftl_lor.
  rewrite (@lor_shiftl_small (p0 - 240) (b1 - 128) 6) by lia.
  rewrite (@lor_shiftl_small _ (b2 - 128) 6) by lia.
  rewrite lor_shiftl_small by lia. lia.
Qed.

(** The bytes that [EncodeRune] builds. *)

Lemma lor_tx (x : Z) : 0 <= x < 64 -> Z.lor utf8.tx x = 0x80 + x.
Proof.
  intros H. change utf8.tx with (Z.shiftl 2 6).
  rewrite lor_shiftl_small by lia. lia.
Qed.

Lemma lor_t2 (x : Z) : 0 <= x < 32 -> Z.lor utf8.t2 x = 0xC0 + x.
Proof.
  intros H. change utf8.t2 with (Z.shiftl 6 5).
  rewrite lor_shiftl_small by lia. lia.
Qed.

Lemma lor_t3 (x : Z) : 0 <= x < 16 -> Z.lor utf8.t3 x = 0xE0 + x.
Proof.
  intros H. change utf8.t3 with (Z.shiftl 14 4).
  rewrite lor_shiftl_small by lia. lia.
Qed.

Lemma lor_t4 (x : Z) : 0 <= x < 8 -> Z.lor utf8.t4 x = 0xF0 + x.
Proof.
  intros H. change utf8.t4 with (Z.shiftl 30 3).
  rewrite lor_shiftl_small by lia. lia.
Qed.

Lemma land_maskx_mod (y : Z) : Z.land y utf8.maskx = y mod 64.
Proof. change utf8.maskx with (Z.ones 6). now rewrite Z.land_ones by lia. Qed.

Definition str2 (a b : ascii) : string := String a (String b EmptyString).
Definition str3 (a b c : ascii) : string := String a (str2 b c).
Definition str4 (a b c d : ascii) : string := String a (str3 b c d).

(** The comparisons of [EncodeRune] on a rune [r] of known range, and one
    byte of its result. *)
Ltac encode_cases r :=
  unfold utf8.EncodeRune, utf8.rune1Max, utf8.rune2Max, utf8.rune3Max,
    utf8.MaxRune, utf8.surrogateMin, utf8.surrogateMax;
  cbv zeta;
  replace (r mod 2 ^ 32) with r by (symmetry; apply Z.mod_small; lia);
  repeat match goal with
         | |- context [?a <=? ?b] => destruct (Z.leb_spec a b); try lia
         | |- context [?a <? ?b] => destruct (Z.ltb_spec a b); try lia
         end;
  cbn [orb andb].

Ltac encoded_byte r :=
  f_equal; rewrite ?land_maskx_mod, ?Z.shiftr_div_pow2 by lia;
  change (2 ^ 6) with 64; change (2 ^ 12) with 4096;
  change (2 ^ 18) with 262144;
  first [rewrite lor_tx by (subst r; Z.div_mod_to_equations; lia)
        |rewrite lor_t2 by (subst r; Z.div_mod_to_equations; lia)
        |rewrite lor_t3 by (subst r; Z.div_mod_to_equations; lia)
        |rewrite lor_t4 by (subst r; Z.div_mod_to_equations; lia)];
  subst r; Z.div_mod_to_equations; lia.

Lemma encode_rune2 (p0 b1 : Z) :
  opens 2 p0 b1 = true ->
  utf8.EncodeRune (rune2 p0 b1) = str2 (byte p0) (byte b1).
Proof.
  intros H.
  destruct (opens_range _ _ _ H) as (Hb & [(_ & Hp) | [(E & _) | (E & _)]]);
    try discriminate.
  rewrite rune2_eq by lia.
  set (r := (p0 - 192) * 64 + (b1 - 128)).
  assert (Hr : 0x80 <= r < 0x800) by (subst r; lia).
  encode_cases r; unfold str2; (f_equal; [|f_equal]); encoded_byte r.
Qed.

Lemma encode_rune3 (p0 b1 b2 : Z) :
  opens 3 p0 b1 = true -> utf8.cont b2 = true ->
  utf8.EncodeRune (rune3 p0 b1 b2) = str3 (byte p0) (byte b1) (byte b2).
Proof.
  intros H H2.
  destruct (opens_range _ _ _ H) as (Hb & [(E & _) | [(_ & Hp & Hlo & Hhi) | (E & _)]]);
    try discriminate.
  apply cont_range in H2. rewrite rune3_eq by lia.
  set (r := (p0 - 224) * 4096 + (b1 - 128) * 64 + (b2 - 128)).
  assert (Hr : 0x800 <= r < 0x10000 /\ (r < 0xD800 \/ 0xDFFF < r)) by (subst r; lia).
  encode_cases r; unfold utf8.enc3, str3, str2;
    (f_equal; [|f_equal; [|f_equal]]); encoded_byte r.
Qed.

Lemma encode_rune4 (p0 b1 b2 b3 : Z) :
  opens 4 p0 b1 = true -> utf8.cont b2 = true -> utf8.cont b3 = true ->
  utf8.EncodeRune (rune4 p0 b1 b2 b3)
  = str4 (byte p0) (byte b1) (byte b2) (byte b3).
Proof.
  intros H H2 H3.
  destruct (opens_range _ _ _ H) as (Hb & [(E & _) | [(E & _) | (_ & Hp & Hlo & Hhi)]]);
    try discriminate.
  apply cont_range in H2. apply cont_range in H3. rewrite rune4_eq by lia.
  set (r := (p0 - 240) * 262144 + (b1 - 128) * 4096 + (b2 - 128) * 64 + (b3 - 128)).
  assert (Hr : 0x10000 <= r <= 0x10FFFF) by (subst r; lia).
  encode_cases r; unfold str4, str3, str2;
    (f_equal; [|f_equal; [|f_equal; [|f_equal]]]); encoded_byte r.
Qed.

Lemma encode_ascii (b : Z) :
  0 <= b < 0x80 -> utf8.EncodeRune b = String (byte b) EmptyString.
Proof. intros H. encode_cases b; reflexivity. Qed.

(** What [DecodeRune] returns, by cases on the bytes it reads. *)
Inductive decoded : string -> Z -> nat -> Prop :=
| dec_empty : decoded EmptyString utf8.RuneError 0
| dec_ascii c s :
    byteZ c < 0x80 -> decoded (String c s) (byteZ c) 1
| dec_error c s :
    0x80 <= byteZ c -> decoded (String c s) utf8.RuneError 1
| dec_2 c0 c1 s :
    opens 2 (byteZ c0) (byteZ c1) = true ->
    decoded (String c0 (String c1 s)) (rune2 (byteZ c0) (byteZ c1)) 2
| dec_3 c0 c1 c2 s :
    opens 3 (byteZ c0) (byteZ c1) = true -> utf8.cont (byteZ c2) = true ->
    decoded (String c0 (String c1 (String c2 s)))
            (rune3 (byteZ c0) (byteZ c1) (byteZ c2)) 3
| dec_4 c0 c1 c2 c3 s :
    opens 4 (byteZ c0) (byteZ c1) = true -> utf8.cont (byteZ c2) = true ->
    utf8.cont (byteZ c3) = true ->
    decoded (String c0 (String c1 (String c2 (String c3 s))))
            (rune4 (byteZ c0) (byteZ c1) (byteZ c2) (byteZ c3)) 4.

Lemma first_cases (p : Z) :
  match utf8.first p with
  | utf8.as_ => p < 0x80
  | utf8.xx => 0x80 <= p
  | utf8.sz n _ _ => 0xC2 <= p /\ (n = 2 \/ n = 3 \/ n = 4)%nat
  end.
Proof.
  unfold utf8.first.
  repeat match goal with
         | |- context [if ?a <? ?b then _ else _] => destruct (Z.ltb_spec a b)
         | |- context [if ?a =? ?b then _ else _] => destruct (Z.eqb_spec a b)
         end; lia.
Qed.

Lemma DecodeRune_decoded (s : string) :
  decoded s (fst (utf8.DecodeRune s)) (snd (utf8.DecodeRune s)).
Proof.
  destruct s as [|c0 s]; [constructor|].
  unfold utf8.DecodeRune.
  pose proof (first_cases (byteZ c0)) as F.
  destruct (utf8.first (byteZ c0)) as [| |n lo hi] eqn:E.
  - now apply dec_ascii.
  - now apply dec_error.
  - destruct F as [Hp Hn].
    destruct (String.length (String c0 s) <? n)%nat; [apply dec_error; lia|].
    destruct s as [|c1 s]; [apply dec_error; lia|].
    destruct ((byteZ c1 <? lo) || (hi <? byteZ c1)) eqn:B; [apply dec_error; lia|].
    assert (O : opens n (byteZ c0) (byteZ c1) = true).
    { unfold opens. rewrite E, Nat.eqb_refl.
      apply orb_false_iff in B as [B1 B2].
      apply Z.ltb_ge in B1, B2. apply Z.leb_le in B1, B2.
      now rewrite B1, B2. }
    destruct Hn as [-> | [-> | ->]]; simpl (_ <=? _)%nat; cbv iota.
    + now apply dec_2.
    + destruct s as [|c2 s]; [apply dec_error; lia|].
      destruct (utf8.cont (byteZ c2)) eqn:C2; simpl negb; cbv iota;
        [|apply dec_error; lia].
      now apply dec_3.
    + destruct s as [|c2 s]; [apply dec_error; lia|].
      destruct (utf8.cont (byteZ c2)) eqn:C2; simpl negb; cbv iota;
        [|apply dec_error; lia].
      destruct s as [|c3 s]; [apply dec_error; lia|].
      destruct (utf8.cont (byteZ c3)) eqn:C3; simpl negb; cbv iota;
        [|apply dec_error; lia].
      now apply dec_4.
Qed.

Lemma decoded_fun (s : string) (r : Z) (n : nat) :
  utf8.DecodeRune s = (r, n) -> decoded s r n.
Proof.
  intros H. pose proof (DecodeRune_decoded s) as D. now rewrite H in D.
Qed.

Lemma opens_first (n : nat) (p0 b1 : Z) :
  opens n p0 b1 = true ->
  exists lo hi, utf8.first p0 = utf8.sz n lo hi /\
                (b1 <? lo) || (hi <? b1) = false.
Proof.
  unfold opens. destruct (utf8.first p0) as [| |m lo hi]; try discriminate.
  rewrite !andb_true_iff, Nat.eqb_eq, !Z.leb_le. intros [[-> L] U].
  exists lo, hi. split; [reflexivity|].
  apply orb_false_iff. split; apply Z.ltb_ge; assumption.
Qed.

Lemma DecodeRune_ascii (c : ascii) (s : string) :
  byteZ c < 0x80 -> utf8.DecodeRune (String c s) = (byteZ c, 1%nat).
Proof.
  intros H. unfold utf8.DecodeRune, utf8.first.
  destruct (Z.ltb_spec (byteZ c) 128); [reflexivity | lia].
Qed.

Lemma DecodeRune_2 (c0 c1 : ascii) (s : string) :
  opens 2 (byteZ c0) (byteZ c1) = true ->
  utf8.DecodeRune (String c0 (String c1 s))
  = (rune2 (byteZ c0) (byteZ c1), 2%nat).
Proof.
  intros H. destruct (opens_first _ _ _ H) as (lo & hi & F & B).
  unfold utf8.DecodeRune. rewrite F, B. reflexivity.
Qed.

Lemma DecodeRune_3 (c0 c1 c2 : ascii) (s : string) :
  opens 3 (byteZ c0) (byteZ c1) = true -> utf8.cont (byteZ c2) = true ->
  utf8.DecodeRune (String c0 (String c1 (String c2 s)))
  = (rune3 (byteZ c0) (byteZ c1) (byteZ c2), 3%nat).
Proof.
  intros H C2. destruct (opens_first _ _ _ H) as (lo & hi & F & B).
  unfold utf8.DecodeRune. rewrite F, B, C2. reflexivity.
Qed.

Lemma DecodeRune_4 (c0 c1 c2 c3 : ascii) (s : string) :
  opens 4 (byteZ c0) (byteZ c1) = true -> utf8.cont (byteZ c2) = true ->
  utf8.cont (byteZ c3) = true ->
  utf8.DecodeRune (String c0 (String c1 (String c2 (String c3 s))))
  = (rune4 (byteZ c0) (byteZ c1) (byteZ c2) (byteZ c3), 4%nat).
Proof.
  intros H C2 C3. destruct (opens_first _ _ _ H) as (lo & hi & F & B).
  unfold utf8.DecodeRune. rewrite F, B, C2, C3. reflexivity.
Qed.

(** [DecodeRune] reads four bytes at most. *)
Lemma DecodeRune_take (s : string) :
  utf8.DecodeRune (take utf8.UTFMax s) = utf8.DecodeRune s.
Proof.
  destruct s as [|c0 [|c1 [|c2 [|c3 [|c4 s]]]]]; try reflexivity.
  unfold utf8.UTFMax, take, utf8.DecodeRune.
  pose proof (first_cases (byteZ c0)) as F.
  destruct (utf8.first (byteZ c0)) as [| |n lo hi]; try reflexivity.
  destruct F as [_ [-> | [-> | ->]]]; reflexivity.
Qed.

Fixpoint allHigh (s : string) : bool :=
  match s with
  | EmptyString => true
  | String c s' => (0x80 <=? byteZ c) && allHigh s'
  end.

(** A rune that [DecodeRune] accepts: its width, its bytes, and the
    encoding that gives them back. *)
Record accepted (s : string) (r : Z) (n : nat) : Prop := {
  acc_width : (1 <= n <= String.length s)%nat;
  acc_encode : utf8.EncodeRune r = take n s;
  acc_decode : forall t, utf8.DecodeRune (take n s ++ t) = (r, n);
  acc_high : (exists c s', s = String c s' /\ 0x80 <= byteZ c) ->
             allHigh (take n s) = true
}.

Lemma DecodeRune_accepted (s : string) (r : Z) (n : nat) :
  utf8.DecodeRune s = (r, n) ->
  (r =? utf8.RuneError) && (n =? 1)%nat = false ->
  s <> EmptyString ->
  accepted s r n.
Proof.
  intros H E Hs. apply decoded_fun in H. destruct H.
  - congruence.
  - pose proof (byteZ_range c). split; simpl; intros.
    + lia.
    + rewrite encode_ascii by lia. now rewrite byte_byteZ.
    + now apply DecodeRune_ascii.
    + destruct H1 as (c' & s' & [= <- <-] & Hc). lia.
  - discriminate.
  - destruct (opens_range _ _ _ H) as (H1 & _).
    pose proof (first_cases (byteZ c0)) as F.
    destruct (opens_first _ _ _ H) as (lo & hi & F' & _). rewrite F' in F.
    split; simpl; intros.
    + lia.
    + rewrite encode_rune2 by assumption. now rewrite !byte_byteZ.
    + now apply DecodeRune_2.
    + rewrite !andb_true_iff, !Z.leb_le. repeat split; lia.
  - destruct (opens_range _ _ _ H) as (H1 & _).
    apply cont_range in H0 as H2.
    pose proof (first_cases (byteZ c0)) as F.
    destruct (opens_first _ _ _ H) as (lo & hi & F' & _). rewrite F' in F.
    split; simpl; intros.
    + lia.
    + rewrite encode_rune3 by assumption. now rewrite !byte_byteZ.
    + now apply DecodeRune_3.
    + rewrite !andb_true_iff, !Z.leb_le. repeat split; lia.
  - destruct (opens_range _ _ _ H) as (H1' & _).
    apply cont_range in H0 as H2. apply cont_range in H1 as H3.
    pose proof (first_cases (byteZ c0)) as F.
    destruct (opens_first _ _ _ H) as (lo & hi & F' & _). rewrite F' in F.
    split; simpl; intros.
    + lia.
    + rewrite encode_rune4 by assumption. now rewrite !byte_byteZ.
    + now apply DecodeRune_4.
    + rewrite !andb_true_iff, !Z.leb_le. repeat split; lia.
Qed.

(** ** String literals: what the encoder writes, the scanner accepts *)

Definition plainByte (c : ascii) : bool :=
  negb (byteZ c =? 34) && negb (byteZ c =? 92) && negb (byteZ c <? 0x20).

Definition escapeLetter (c : ascii) : bool :=
  let b := byteZ c in
  (b =? 98) || (b =? 102) || (b =? 110) || (b =? 114) ||
  (b =? 116) || (b =? 92) || (b =? 47) || (b =? 34).

(** The bytes between the quotes of a string literal of the JSON grammar. *)
Inductive literal : string -> Prop :=
| lit_nil : literal EmptyString
| lit_plain c s :
    plainByte c = true -> literal s -> literal (String c s)
| lit_esc e s :
    escapeLetter e = true -> literal s ->
    literal (String backslash (String e s))
| lit_u h1 h2 h3 h4 s :
    isHex h1 = true -> isHex h2 = true -> isHex h3 = true ->
    isHex h4 = true -> literal s ->
    literal (String backslash (String "u" (String h1 (String h2 (String h3 (String h4 s)))))).

Lemma scanString_literal (body : string) :
  literal body ->
  forall rest,
    scanString inString (body ++ String quote rest) = OK (body, rest).
Proof.
  induction 1 as [|c s Hc _ IH|e s He _ IH|h1 h2 h3 h4 s H1 H2 H3 H4 _ IH];
    intros rest.
  - reflexivity.
  - simpl. unfold plainByte in Hc.
    apply andb_true_iff in Hc as [Hc C3]. apply andb_true_iff in Hc as [C1 C2].
    apply negb_true_iff in C1, C2, C3. rewrite C1, C2, C3, IH. reflexivity.
  - cbn [append scanString]. change (byteZ backslash =? 34) with false.
    change (byteZ backslash =? 92) with true. cbv iota.
    unfold escapeLetter in He. rewrite He, IH. reflexivity.
  - cbn [append scanString]. change (byteZ backslash =? 34) with false.
    change (byteZ backslash =? 92) with true. cbv iota.
    change (byteZ "u") with 117. cbn [Z.eqb Pos.eqb orb]. cbv iota.
    rewrite H1, H2, H3, H4. cbn [Nat.ltb Nat.leb]. cbv iota.
    rewrite IH. reflexivity.
Qed.

Lemma literal_app (a b : string) : literal a -> literal b -> literal (a ++ b).
Proof.
  induction 1; intros Hb; cbn [append]; [exact Hb | | |].
  - apply lit_plain; auto.
  - apply lit_esc; auto.
  - apply lit_u; auto.
Qed.

Lemma literal_high (a b : string) :
  allHigh a = true -> literal b -> literal (a ++ b).
Proof.
  induction a as [|c a IH]; simpl; [auto|].
  rewrite andb_true_iff, Z.leb_le. intros [Hc Ha] Hb.
  apply lit_plain; [|auto].
  unfold plainByte.
  destruct (Z.eqb_spec (byteZ c) 34); [lia|].
  destruct (Z.eqb_spec (byteZ c) 92); [lia|].
  destruct (Z.ltb_spec (byteZ c) 32); [lia|]. reflexivity.
Qed.

Ltac literal_steps L :=
  repeat first
    [ exact L
    | apply lit_u; [reflexivity | reflexivity | reflexivity | reflexivity |]
    | apply lit_esc; [reflexivity |]
    | apply lit_plain; [reflexivity |] ].

Lemma literal_escapeByte (c : ascii) (s : string) :
  (byteZ c <? utf8.RuneSelf) = true -> literal s ->
  literal (escapeByte c ++ s).
Proof.
  intros H L.
  destruct c as [[] [] [] [] [] [] [] []]; try discriminate H;
    vm_compute; literal_steps L.
Qed.

Lemma drop_app_take (n : nat) (s t : string) :
  (n <= String.length s)%nat -> drop n (take n s ++ t) = t.
Proof.
  revert s; induction n as [|n IH]; intros [|c s]; simpl; intros H;
    try reflexivity; try lia.
  apply IH. lia.
Qed.

Lemma take_S (n : nat) (c : ascii) (s : string) :
  take (S n) (String c s) = String c (take n s).
Proof. reflexivity. Qed.

(** The runes of a string, read as [appendBody], [scanPlain] and
    [unquoteFrom] read them: what [DecodeRune] says at a position that
    holds a byte outside ASCII. *)
Inductive runeAt (s : string) : Type :=
| invalidAt :
    utf8.DecodeRune s = (utf8.RuneError, 1%nat) -> runeAt s
| validAt r n :
    utf8.DecodeRune s = (r, n) ->
    (r =? utf8.RuneError) && (n =? 1)%nat = false ->
    accepted s r n -> runeAt s.

Lemma runeAt_total (c : ascii) (s : string) : runeAt (String c s).
Proof.
  destruct (utf8.DecodeRune (String c s)) as [r n] eqn:E.
  destruct ((r =? utf8.RuneError) && (n =? 1)%nat) eqn:B.
  - apply invalidAt. apply andb_true_iff in B as [B1 B2].
    apply Z.eqb_eq in B1. apply Nat.eqb_eq in B2. now subst.
  - apply (validAt E B). apply DecodeRune_accepted; [exact E | exact B | discriminate].
Qed.

Lemma appendBody_literal (fuel : nat) (s : string) :
  literal (appendBody fuel s).
Proof.
  revert s; induction fuel as [|fuel IH]; intros [|c s]; try constructor.
  cbn [appendBody].
  destruct (byteZ c <? utf8.RuneSelf) eqn:A.
  - destruct (htmlSafeSet (byteZ c)) eqn:S.
    + apply lit_plain; [|apply IH].
      unfold htmlSafeSet in S. unfold plainByte.
      rewrite !andb_true_iff, !negb_true_iff, !orb_false_iff in S.
      destruct S as [[S1 S2] [[[[S3 _] _] _] S4]].
      apply Z.leb_le in S1. rewrite S3, S4.
      destruct (Z.ltb_spec (byteZ c) 32); [lia | reflexivity].
    + apply literal_escapeByte; [exact A | apply IH].
  - rewrite DecodeRune_take.
    destruct (runeAt_total c s) as [E | r n E B Acc].
    + rewrite E. change ((utf8.RuneError =? utf8.RuneError) && (1 =? 1)%nat) with true.
      cbv iota. apply (literal_app (a := String backslash "ufffd")); [|apply IH].
      literal_steps lit_nil.
    + rewrite E, B.
      destruct ((r =? 8232) || (r =? 8233)) eqn:L.
      * apply (lit_u "2" "0" "2"); try reflexivity; [|apply IH].
        apply orb_true_iff in L as [L | L]; apply Z.eqb_eq in L; subst r;
          reflexivity.
      * apply literal_high; [|apply IH].
        apply (acc_high Acc). exists c, s. split; [reflexivity|].
        apply Z.ltb_ge in A. exact A.
Qed.

(** ** String literals: [unquoteBytes] *)

Lemma DecodeRune_width (c : ascii) (s : string) :
  (1 <= snd (utf8.DecodeRune (String c s)))%nat.
Proof.
  destruct (utf8.DecodeRune (String c s)) as [r n] eqn:E.
  apply decoded_fun in E. inversion E; simpl; lia.
Qed.

Lemma option_map_id {A} (o : option A) (f : A -> A) :
  (forall a, f a = a) -> option_map f o = o.
Proof. intros H. destruct o; simpl; [now rewrite H | reflexivity]. Qed.

Lemma option_map_comp {A B C} (f : A -> B) (g : B -> C) (o : option A) :
  option_map g (option_map f o) = option_map (fun a => g (f a)) o.
Proof. now destruct o. Qed.

Lemma option_map_ext {A B} (f g : A -> B) (o : option A) :
  (forall a, f a = g a) -> option_map f o = option_map g o.
Proof. intros H. destruct o; simpl; [now rewrite H | reflexivity]. Qed.

Ltac shorter :=
  rewrite ?length_drop; cbn [String.length] in *; lia.

(** More fuel than the length of the text changes nothing. *)
Lemma unquoteFrom_fuel (f1 : nat) :
  forall (f2 : nat) (t : string),
    (String.length t <= f1)%nat -> (String.length t <= f2)%nat ->
    unquoteFrom f1 t = unquoteFrom f2 t.
Proof.
  induction f1 as [|f1 IH]; intros f2 [|c t1] H1 H2;
    try (cbn [String.length] in *; lia);
    try (destruct f2; reflexivity).
  destruct f2 as [|f2]; [cbn [String.length] in *; lia|].
  cbn [unquoteFrom].
  pose proof (DecodeRune_width c t1) as W.
  destruct (utf8.DecodeRune (String c t1)) as [rr size]. cbn [snd] in W.
  destruct (byteZ c =? 92).
  - destruct t1 as [|e s2]; [reflexivity|].
    rewrite (@IH f2 s2) by shorter.
    rewrite (@IH f2 (drop 6 (String c (String e s2)))) by shorter.
    rewrite (@IH f2 (drop 6 (drop 6 (String c (String e s2))))) by shorter.
    reflexivity.
  - rewrite (@IH f2 t1) by shorter.
    rewrite (@IH f2 (drop size (String c t1))) by shorter.
    reflexivity.
Qed.

Lemma take_add (n m : nat) (s : string) :
  take (n + m) s = take n s ++ take m (drop n s).
Proof.
  revert s; induction n as [|n IH]; intros s; [reflexivity|].
  destruct s as [|c s]; simpl.
  - now destruct m.
  - now rewrite IH.
Qed.

Lemma drop_add (n m : nat) (s : string) :
  drop (n + m) s = drop m (drop n s).
Proof.
  revert s; induction n as [|n IH]; intros s; [reflexivity|].
  destruct s as [|c s]; simpl; [now destruct m | apply IH].
Qed.

(** The first loop of [unquoteBytes] skips what the second would copy. *)
Lemma unquoteFrom_scanPlain (f : nat) :
  forall t : string,
    (String.length t <= f)%nat ->
    unquoteFrom f t
    = option_map (append (take (scanPlain f t) t))
                 (unquoteFrom f (drop (scanPlain f t) t)).
Proof.
  induction f as [|f IH]; intros [|c t1] H;
    try (cbn [String.length] in *; lia); try reflexivity.
  assert (Z0 : forall o : option string, o = option_map (append EmptyString) o)
    by (intros o; symmetry; now apply option_map_id).
  cbn [scanPlain].
  destruct ((byteZ c =? 92) || (byteZ c =? 34) || (byteZ c <? 32)) eqn:U;
    [apply Z0|].
  apply orb_false_iff in U as [U U3]. apply orb_false_iff in U as [U1 U2].
  destruct (byteZ c <? utf8.RuneSelf) eqn:A.
  - cbn [take drop].
    rewrite (@unquoteFrom_fuel (S f) f (drop (scanPlain f t1) t1)) by shorter.
    cbn [unquoteFrom]. rewrite U1, U2, U3, A. cbn [orb].
    rewrite (IH t1) at 1 by shorter. rewrite option_map_comp. reflexivity.
  - destruct (runeAt_total c t1) as [E | r n E B Acc].
    + rewrite E. change ((utf8.RuneError =? utf8.RuneError) && (1 =? 1)%nat) with true.
      apply Z0.
    + rewrite E, B. rewrite take_add, drop_add.
      rewrite (@unquoteFrom_fuel (S f) f (drop _ (drop n (String c t1))))
        by (pose proof (acc_width Acc); shorter).
      cbn [unquoteFrom]. rewrite U1, U2, U3, A, E. cbn [orb].
      rewrite (IH (drop n (String c t1))) at 1
        by (pose proof (acc_width Acc); shorter).
      rewrite option_map_comp, (acc_encode Acc).
      apply option_map_ext. intros a. now rewrite append_assoc.
Qed.

Lemma take_all (s : string) : take (String.length s) s = s.
Proof. induction s as [|c s IH]; simpl; [reflexivity | now rewrite IH]. Qed.

Lemma drop_all (s : string) : drop (String.length s) s = EmptyString.
Proof. induction s as [|c s IH]; simpl; [reflexivity | exact IH]. Qed.

Lemma unquoteFrom_nil (f : nat) : unquoteFrom f EmptyString = Some EmptyString.
Proof. now destruct f. Qed.

(** Both loops of [unquoteBytes] together are the second one alone. *)
Lemma unquoteBytes_eq (t : string) :
  unquoteBytes t = unquoteFrom (String.length t) t.
Proof.
  unfold unquoteBytes. cbv zeta.
  rewrite (@unquoteFrom_scanPlain (String.length t) t) by lia.
  destruct (Nat.eqb_spec (scanPlain (String.length t) t) (String.length t)) as [E | N].
  - rewrite E, take_all, drop_all, unquoteFrom_nil. simpl.
    now rewrite append_nil_r.
  - reflexivity.
Qed.

(** One turn of the second loop, with the rest of the loop as [k]. *)
Definition unquoteStep (k : string -> option string) (s : string)
  : option string :=
  match s with
  | EmptyString => Some EmptyString
  | String c s1 =>
      let b := byteZ c in
      if b =? 92 then
        match s1 with
        | EmptyString => None
        | String e s2 =>
            let eb := byteZ e in
            let put (x : Z) := option_map (String (byte x)) (k s2) in
            if (eb =? 34) || (eb =? 92) || (eb =? 47) || (eb =? 39) then put eb
            else if eb =? 98 then put 8
            else if eb =? 102 then put 12
            else if eb =? 110 then put 10
            else if eb =? 114 then put 13
            else if eb =? 116 then put 9
            else if eb =? 117 then
              let rr := getu4 s in
              if rr <? 0 then None
              else
                let s6 := drop 6 s in
                if utf16.IsSurrogate rr then
                  let dec := utf16.DecodeRune rr (getu4 s6) in
                  if negb (dec =? utf16.replacementChar) then
                    option_map (append (utf8.EncodeRune dec)) (k (drop 6 s6))
                  else
                    option_map (append (utf8.EncodeRune utf16.replacementChar))
                               (k s6)
                else
                  option_map (append (utf8.EncodeRune rr)) (k s6)
            else None
        end
      else if (b =? 34) || (b <? 0x20) then None
      else if b <? utf8.RuneSelf then option_map (String c) (k s1)
      else
        let '(rr, size) := utf8.DecodeRune s in
        option_map (append (utf8.EncodeRune rr)) (k (drop size s))
  end.

Lemma unquoteFrom_S (f : nat) (s : string) :
  s <> EmptyString -> unquoteFrom (S f) s = unquoteStep (unquoteFrom f) s.
Proof. destruct s; [congruence | reflexivity]. Qed.

Lemma unquoteStep_escapeByte (k : string -> option string) (c : ascii)
    (t : string) :
  (byteZ c <? utf8.RuneSelf) = true -> htmlSafeSet (byteZ c) = false ->
  unquoteStep k (escapeByte c ++ t) = option_map (String c) (k t).
Proof.
  intros H S.
  destruct c as [[] [] [] [] [] [] [] []];
    try discriminate H; try discriminate S; vm_compute; reflexivity.
Qed.

Lemma length_escapeByte (c : ascii) : (1 <= String.length (escapeByte c))%nat.
Proof.
  unfold escapeByte.
  repeat match goal with
         | |- context [if ?b then _ else _] => destruct b
         end; simpl; lia.
Qed.

Definition escapeU (h1 h2 h3 h4 : ascii) (t : string) : string :=
  String backslash (String "u" (String h1 (String h2 (String h3 (String h4 t))))).

Lemma unquoteStep_line_separator (k : string -> option string) (t : string) :
  unquoteStep k (escapeU "2" "0" "2" "8" t)
  = option_map (append (utf8.EncodeRune 0x2028)) (k t).
Proof. vm_compute. reflexivity. Qed.

Lemma unquoteStep_paragraph_separator (k : string -> option string) (t : string) :
  unquoteStep k (escapeU "2" "0" "2" "9" t)
  = option_map (append (utf8.EncodeRune 0x2029)) (k t).
Proof. vm_compute. reflexivity. Qed.

(** [unquoteFrom] gives back the bytes of a valid UTF-8 string from what
    [appendBody] made of them. *)
Lemma unquote_appendBody (n : nat) :
  forall (s : string) (f : nat),
    (String.length s <= n)%nat ->
    utf8.validFrom n s = true ->
    (String.length (appendBody n s) <= f)%nat ->
    unquoteFrom f (appendBody n s) = Some s.
Proof.
  induction n as [|n IH]; intros [|c s1] f Hn Hv Hf;
    try (cbn [String.length] in *; lia);
    try (destruct f; reflexivity).
  cbn [appendBody utf8.validFrom] in *.
  destruct (byteZ c <? utf8.RuneSelf) eqn:A.
  - assert (Hc : byteZ c < 128) by (now apply Z.ltb_lt in A).
    rewrite DecodeRune_ascii in Hv by exact Hc.
    replace (byteZ c =? utf8.RuneError) with false in Hv
      by (symmetry; apply Z.eqb_neq; unfold utf8.RuneError; lia).
    cbn [andb drop] in Hv.
    destruct (htmlSafeSet (byteZ c)) eqn:S.
    + destruct f as [|f]; [cbn [String.length] in Hf; lia|].
      cbn [unquoteFrom]. rewrite A.
      unfold htmlSafeSet in S.
      rewrite !andb_true_iff, !negb_true_iff, !orb_false_iff in S.
      destruct S as [[S1 S2] [[[[S3 _] _] _] S4]].
      apply Z.leb_le in S1.
      replace (byteZ c <? 32) with false by (symmetry; apply Z.ltb_ge; lia).
      rewrite S3, S4. cbn [orb].
      rewrite IH; [reflexivity | shorter | exact Hv | shorter].
    + pose proof (length_escapeByte c) as L.
      rewrite length_append in Hf.
      destruct f as [|f]; [lia|].
      rewrite unquoteFrom_S
        by (destruct (escapeByte c); [cbn [String.length] in L; lia | discriminate]).
      rewrite unquoteStep_escapeByte by assumption.
      rewrite IH; [reflexivity | shorter | exact Hv | lia].
  - rewrite DecodeRune_take in *.
    destruct (runeAt_total c s1) as [E | r m E B Acc].
    + rewrite E in Hv. discriminate Hv.
    + rewrite E, B in *. pose proof (acc_width Acc) as W.
      assert (Hd : (String.length (drop m (String c s1)) <= n)%nat) by shorter.
      assert (R : Some (String c s1)
                  = option_map (append (utf8.EncodeRune r))
                               (Some (drop m (String c s1)))).
      { simpl. now rewrite (acc_encode Acc), take_drop. }
      destruct ((r =? 8232) || (r =? 8233)) eqn:L.
      * destruct f as [|f]; [cbn [String.length append] in Hf; lia|].
        rewrite R. cbn [String.length append] in Hf.
        apply orb_true_iff in L as [L | L]; apply Z.eqb_eq in L; subst r.
        -- change (unquoteFrom (S f) (escapeU "2" "0" "2" "8"
                     (appendBody n (drop m (String c s1))))
                   = option_map (append (utf8.EncodeRune 8232))
                       (Some (drop m (String c s1)))).
           rewrite unquoteFrom_S by discriminate.
           rewrite unquoteStep_line_separator, IH; [reflexivity | | exact Hv | lia].
           exact Hd.
        -- change (unquoteFrom (S f) (escapeU "2" "0" "2" "9"
                     (appendBody n (drop m (String c s1))))
                   = option_map (append (utf8.EncodeRune 8233))
                       (Some (drop m (String c s1)))).
           rewrite unquoteFrom_S by discriminate.
           rewrite unquoteStep_paragraph_separator, IH; [reflexivity | | exact Hv | lia].
           exact Hd.
      * rewrite R. rewrite length_append in Hf.
        pose proof (acc_decode Acc (appendBody n (drop m (String c s1)))) as D.
        destruct m as [|m]; [lia|].
        rewrite take_S in *. cbn [append String.length] in *.
        destruct f as [|f]; [lia|].
        cbn [unquoteFrom]. rewrite A, D.
        apply Z.ltb_ge in A. unfold utf8.RuneSelf in A.
        replace (byteZ c =? 92) with false by (symmetry; apply Z.eqb_neq; lia).
        replace (byteZ c =? 34) with false by (symmetry; apply Z.eqb_neq; lia).
        replace (byteZ c <? 32) with false by (symmetry; apply Z.ltb_ge; lia).
        cbn [orb].
        change (String c (take m s1 ++ ?t)) with (take (S m) (String c s1) ++ t).
        rewrite drop_app_take by exact (proj2 W).
        rewrite IH; [reflexivity | exact Hd | exact Hv | lia].
Qed.

(** A string literal that [appendString] wrote for a valid UTF-8 string
    reads back as that string. *)
Lemma stringLit_appendString (s rest : string) :
  utf8.ValidString s = true ->
  stringLit (appendBody (String.length s) s ++ String quote rest) = OK (s, rest).
Proof.
  intros V. unfold stringLit.
  rewrite scanString_literal by apply appendBody_literal.
  cbn [rbind]. rewrite unquoteBytes_eq, unquote_appendBody;
    [reflexivity | lia | exact V | lia].
Qed.

(** ** Integers: [FormatInt], [ParseInt] and the number scanner *)

Fixpoint allDigits (s : string) : bool :=
  match s with
  | EmptyString => true
  | String c s' => strconv.isDigit c && allDigits s'
  end.

Lemma byteZ_digit (d : Z) : 0 <= d < 10 -> byteZ (strconv.digit d) = 48 + d.
Proof. intros H. unfold strconv.digit. apply byteZ_byte. lia. Qed.

Lemma isDigit_digit (d : Z) : 0 <= d < 10 -> strconv.isDigit (strconv.digit d) = true.
Proof.
  intros H. unfold strconv.isDigit. rewrite byteZ_digit by exact H.
  apply andb_true_iff. split; apply Z.leb_le; lia.
Qed.

Lemma allDigits_app (a b : string) :
  allDigits (a ++ b) = allDigits a && allDigits b.
Proof.
  induction a as [|c a IH]; simpl; [reflexivity|].
  now rewrite IH, andb_assoc.
Qed.

(** The digits that [formatBits] writes: ["0"] for zero, else a digit from
    1 to 9 and digits after it. *)
Inductive decimal (n : Z) : string -> Prop :=
| dec_zero : n = 0 -> decimal n "0"
| dec_pos c s :
    0 < n -> 49 <= byteZ c <= 57 -> allDigits s = true ->
    decimal n (String c s).

Lemma formatBits_digit (fuel : nat) (n : Z) :
  0 <= n < 10 -> decimal n (strconv.formatBits (S fuel) n).
Proof.
  intros H. cbn [strconv.formatBits].
  destruct (Z.ltb_spec n 10) as [L | G]; [|lia].
  destruct (Z.eq_dec n 0) as [-> | Nz]; [now apply dec_zero|].
  apply dec_pos; [lia | rewrite byteZ_digit; lia | reflexivity].
Qed.

Lemma formatBits_decimal (fuel : nat) :
  forall n, 0 <= n < 10 ^ Z.of_nat (S fuel) ->
            decimal n (strconv.formatBits (S fuel) n).
Proof.
  induction fuel as [|fuel IH]; intros n H.
  - apply formatBits_digit. change (10 ^ Z.of_nat 1) with 10 in H. exact H.
  - destruct (Z.ltb_spec n 10) as [L | G]; [apply formatBits_digit; lia|].
    change (strconv.formatBits (S (S fuel)) n)
      with (if n <? 10 then String (strconv.digit n) EmptyString
            else strconv.formatBits (S fuel) (n / 10)
                 ++ String (strconv.digit (n mod 10)) EmptyString).
    destruct (Z.ltb_spec n 10) as [L' | _]; [lia|].
    assert (Hq : 0 <= n / 10 < 10 ^ Z.of_nat (S fuel)).
    { rewrite (Nat2Z.inj_succ (S fuel)), Z.pow_succ_r in H by lia.
      split; [apply Z.div_pos; lia | apply Z.div_lt_upper_bound; lia]. }
    destruct (IH _ Hq) as [E | c s Hp Hc Hs].
    + assert (1 <= n / 10) by (apply Z.div_le_lower_bound; lia). lia.
    + cbn [append]. apply dec_pos; [lia | exact Hc |].
      rewrite allDigits_app, Hs. cbn [allDigits andb].
      rewrite isDigit_digit by (apply Z.mod_pos_bound; lia). reflexivity.
Qed.

Lemma parseDigits_formatBits (fuel : nat) :
  forall n acc t,
    0 <= n < 10 ^ Z.of_nat fuel ->
    strconv.parseDigits acc (strconv.formatBits fuel n ++ t)
    = strconv.parseDigits
        (acc * 10 ^ Z.of_nat (String.length (strconv.formatBits fuel n)) + n) t.
Proof.
  induction fuel as [|fuel IH]; intros n acc t H.
  - change (10 ^ Z.of_nat 0) with 1 in H. simpl. f_equal. lia.
  - cbn [strconv.formatBits]. destruct (Z.ltb_spec n 10) as [L | G].
    + cbn [append strconv.parseDigits String.length].
      rewrite isDigit_digit, byteZ_digit by lia.
      change (10 ^ Z.of_nat 1) with 10. f_equal. lia.
    + assert (Hq : 0 <= n / 10 < 10 ^ Z.of_nat fuel).
      { rewrite Nat2Z.inj_succ, Z.pow_succ_r in H by lia.
        split; [apply Z.div_pos; lia | apply Z.div_lt_upper_bound; lia]. }
      rewrite append_assoc, IH by exact Hq.
      cbn [append strconv.parseDigits].
      assert (Hm : 0 <= n mod 10 < 10) by (apply Z.mod_pos_bound; lia).
      rewrite isDigit_digit, byteZ_digit by exact Hm.
      rewrite length_append. cbn [String.length].
      rewrite Nat2Z.inj_add, Z.pow_add_r by lia.
      change (10 ^ Z.of_nat 1) with 10. f_equal.
      pose proof (Z.div_mod n 10 ltac:(lia)). lia.
Qed.

Definition int64 (i : Z) : bool :=
  (strconv.minInt64 <=? i) && (i <=? strconv.maxInt64).

Lemma ParseInt_FormatInt (i : Z) :
  int64 i = true -> strconv.ParseInt (strconv.FormatInt i) = Some i.
Proof.
  intros R. pose proof R as R'. unfold int64 in R'.
  apply andb_true_iff in R' as [R1 R2]. apply Z.leb_le in R1, R2.
  unfold strconv.minInt64, strconv.maxInt64 in R1, R2.
  assert (B : 2 ^ 63 < 10 ^ Z.of_nat 20) by (vm_compute; reflexivity).
  unfold strconv.FormatInt, strconv.ParseInt.
  destruct (Z.ltb_spec i 0) as [N | P].
  - assert (H : 0 <= - i < 10 ^ Z.of_nat 20) by lia.
    pose proof (@parseDigits_formatBits 20 _ 0 EmptyString H) as E.
    rewrite append_nil_r in E. cbn [strconv.parseDigits] in E.
    destruct (@formatBits_decimal 19 (- i) H) as [Z0 | c s Hp Hc Hs]; [lia|].
    rewrite E. cbn [Z.mul]. replace (0 + - i) with (- i) by lia.
    rewrite Z.opp_involutive. fold (int64 i). now rewrite R.
  - assert (H : 0 <= i < 10 ^ Z.of_nat 20) by lia.
    pose proof (@parseDigits_formatBits 20 _ 0 EmptyString H) as E.
    rewrite append_nil_r in E. cbn [strconv.parseDigits] in E.
    assert (Hd : forall c, 48 <= byteZ c <= 57 ->
                 c <> "-"%char /\ c <> "+"%char).
    { intros c Hc. split; intros ->; vm_compute in Hc; destruct Hc as [C1 C2];
        [apply C1 | apply C1]; reflexivity. }
    destruct (@formatBits_decimal 19 i H) as [Z0 | c s Hp Hc Hs].
    + subst i. reflexivity.
    + destruct (Hd c ltac:(lia)) as [D1 D2].
      assert (M : match String c s with
                  | String "-" s' => (true, s')
                  | String "+" s' => (false, s')
                  | _ => (false, String c s)
                  end = (false, String c s)).
      { destruct c as [[] [] [] [] [] [] [] []]; try reflexivity; congruence. }
      rewrite M, E. cbn [Z.mul]. replace (0 + i) with i by lia.
      fold (int64 i). now rewrite R.
Qed.

(** ** Values: what the encoder writes, the parser reads *)

(** What may follow a value inside a text that the encoder wrote: the end,
    a comma, or a closing bracket or brace. *)
Definition delimited (rest : string) : bool :=
  match rest with
  | EmptyString => true
  | String c _ => (byteZ c =? 44) || (byteZ c =? 93) || (byteZ c =? 125)
  end.

Lemma numNext_delimiter (c : ascii) :
  (byteZ c =? 44) || (byteZ c =? 93) || (byteZ c =? 125) = true ->
  numNext state0 c = endLit /\ numNext state1 c = endLit.
Proof.
  intros H. unfold numNext, strconv.isDigit.
  apply orb_true_iff in H as [H | H]; [apply orb_true_iff in H as [H | H]|];
    apply Z.eqb_eq in H; rewrite H; split; reflexivity.
Qed.

Lemma scanNumber_end (st : numState) (rest : string) :
  st = state0 \/ st = state1 ->
  delimited rest = true ->
  scanNumber st rest = OK (EmptyString, rest).
Proof.
  intros Hs D. destruct rest as [|c rest]; cbn [scanNumber].
  - destruct Hs as [-> | ->]; reflexivity.
  - destruct (numNext_delimiter c D) as [N0 N1].
    destruct Hs as [-> | ->]; [rewrite N0 | rewrite N1]; reflexivity.
Qed.

Lemma scanNumber_digits (s rest : string) :
  allDigits s = true -> delimited rest = true ->
  scanNumber state1 (s ++ rest) = OK (s, rest).
Proof.
  intros A D. induction s as [|c s IH]; cbn [append].
  - apply scanNumber_end; [now right | exact D].
  - cbn [allDigits] in A. apply andb_true_iff in A as [Ac As].
    cbn [scanNumber]. unfold numNext. rewrite Ac, (IH As). reflexivity.
Qed.

Ltac not_byte c :=
  repeat match goal with
         | |- context [byteZ c =? ?k] =>
             destruct (Z.eqb_spec (byteZ c) k); [lia|]
         end.

Lemma value_digit (d : nat) (c : ascii) (s1 : string) :
  49 <= byteZ c <= 57 ->
  value d (String c s1)
  = ('(lit, s2) <- scanNumber state1 s1 ;; OK (JNumber (String c lit), s2)).
Proof.
  intros H.
  assert (D : strconv.isDigit c = true).
  { unfold strconv.isDigit. apply andb_true_iff. split; apply Z.leb_le; lia. }
  destruct d; cbn [value skipSpace]; unfold isSpace; cbv zeta;
    not_byte c; cbn [orb]; cbv iota; not_byte c; rewrite D; reflexivity.
Qed.

Lemma value_int (d : nat) (i : Z) :
  int64 i = true ->
  forall rest, delimited rest = true ->
    value d (strconv.FormatInt i ++ rest)
    = OK (JNumber (strconv.FormatInt i), rest).
Proof.
  intros R rest D. pose proof R as R'. unfold int64 in R'.
  apply andb_true_iff in R' as [R1 R2]. apply Z.leb_le in R1, R2.
  unfold strconv.minInt64, strconv.maxInt64 in R1, R2.
  assert (B : 2 ^ 63 < 10 ^ Z.of_nat 20) by (vm_compute; reflexivity).
  unfold strconv.FormatInt. destruct (Z.ltb_spec i 0) as [N | P].
  - assert (H : 0 <= - i < 10 ^ Z.of_nat 20) by lia.
    destruct (@formatBits_decimal 19 (- i) H) as [Z0 | c s Hp Hc Hs]; [lia|].
    cbn [append].
    replace (value d (String "-" (String c (s ++ rest))))
      with ('(lit, s2) <- scanNumber stateNeg (String c (s ++ rest)) ;;
            OK (JNumber (String "-" lit), s2))
      by (destruct d; reflexivity).
    cbn [scanNumber]. unfold numNext.
    destruct (Z.eqb_spec (byteZ c) 48); [lia|].
    replace (strconv.isDigit c) with true
      by (symmetry; unfold strconv.isDigit; apply andb_true_iff;
          split; apply Z.leb_le; lia).
    rewrite scanNumber_digits by assumption. reflexivity.
  - assert (H : 0 <= i < 10 ^ Z.of_nat 20) by lia.
    destruct (@formatBits_decimal 19 i H) as [Z0 | c s Hp Hc Hs].
    + cbn [append].
      replace (value d (String "0" rest))
        with ('(lit, s2) <- scanNumber state0 rest ;;
              OK (JNumber (String "0" lit), s2))
        by (destruct d; reflexivity).
      rewrite scanNumber_end; [reflexivity | now left | exact D].
    + cbn [append]. rewrite value_digit by exact Hc.
      rewrite scanNumber_digits by assumption. reflexivity.
Qed.

Lemma value_string (d : nat) (s rest : string) :
  utf8.ValidString s = true ->
  value d (appendString s ++ rest) = OK (JString s, rest).
Proof.
  intros V. unfold appendString. cbn [append]. rewrite append_assoc.
  cbn [append].
  replace (value d (String quote (appendBody (String.length s) s ++ String quote rest)))
    with ('(t, s2) <- stringLit (appendBody (String.length s) s ++ String quote rest) ;;
          OK (JString t, s2))
    by (destruct d; reflexivity).
  rewrite stringLit_appendString by exact V. reflexivity.
Qed.

Lemma value_true (d : nat) (rest : string) :
  value d ("true" ++ rest) = OK (JBool true, rest).
Proof. destruct d; reflexivity. Qed.

Lemma value_false (d : nat) (rest : string) :
  value d ("false" ++ rest) = OK (JBool false, rest).
Proof. destruct d; reflexivity. Qed.

Lemma value_null (d : nat) (rest : string) :
  value d ("null" ++ rest) = OK (JNull, rest).
Proof. destruct d; reflexivity. Qed.

(** The first byte of a text that parses as a value is no closing
    bracket. *)
Lemma value_head (d : nat) (s : string) (j : jvalue) (rest : string) :
  value d s = OK (j, rest) ->
  exists c s1, skipSpace s = String c s1 /\ byteZ c <> 93.
Proof.
  intros H.
  assert (E : forall c s1, skipSpace s = String c s1 -> byteZ c = 93 ->
              exists e, value d s = Err e).
  { intros c s1 Hs Hc. destruct d; cbn [value]; rewrite Hs; cbv zeta;
      unfold strconv.isDigit; rewrite Hc; cbn; eexists; reflexivity. }
  destruct (skipSpace s) as [|c s1] eqn:Hs.
  - destruct d; cbn [value] in H; rewrite Hs in H; discriminate.
  - exists c, s1. split; [reflexivity|]. intros Hc.
    destruct (E c s1 eq_refl Hc) as [e He]. congruence.
Qed.

(** [t] is the text of [j] for the parser with [d] levels left. *)
Definition parsesTo (d : nat) (t : string) (j : jvalue) : Prop :=
  forall rest, delimited rest = true -> value d (t ++ rest) = OK (j, rest).

(** The elements after the first, each behind its comma. *)
Fixpoint tailText (ts : list string) : string :=
  match ts with
  | [] => EmptyString
  | t :: ts' => "," ++ t ++ tailText ts'
  end.

Lemma join_cons (t : string) (ts : list string) :
  join "," (t :: ts) = t ++ tailText ts.
Proof.
  revert t; induction ts as [|t2 ts IH]; intros t.
  - simpl. now rewrite append_nil_r.
  - change (join "," (t :: t2 :: ts)) with (t ++ "," ++ join "," (t2 :: ts)).
    now rewrite IH.
Qed.

Lemma delimited_tail (ts : list string) (close : ascii) (rest : string) :
  (byteZ close =? 93) || (byteZ close =? 125) = true ->
  delimited (tailText ts ++ String close rest) = true.
Proof.
  intros H. destruct ts as [|t ts]; [|reflexivity].
  cbn [tailText append delimited].
  apply orb_true_iff in H as [H | H]; rewrite H;
    destruct (byteZ close =? 44); try reflexivity;
    destruct (byteZ close =? 93); reflexivity.
Qed.

Lemma length_tail (ts : list string) (rest : string) :
  (List.length ts + String.length rest
   <= String.length (tailText ts ++ rest))%nat.
Proof.
  induction ts as [|t ts IH]; cbn [tailText List.length append]; [lia|].
  rewrite !append_assoc. cbn [append String.length].
  rewrite length_append. lia.
Qed.

Lemma value_array_unfold (d : nat) (s1 : string) :
  value (S d) (String "[" s1)
  = match skipSpace s1 with
    | EmptyString => unexpectedEnd
    | String c2 s2 =>
        if byteZ c2 =? 93 then OK (JArray [], s2)
        else
          '(v, s3) <- value d s1 ;;
          '(vs, s4) <- arrayRest (value d) (String.length s3) s3 ;;
          OK (JArray (v :: vs), s4)
    end.
Proof. reflexivity. Qed.

Lemma value_object_unfold (d : nat) (s1 : string) :
  value (S d) (String "{" s1)
  = match skipSpace s1 with
    | EmptyString => unexpectedEnd
    | String c2 s2 =>
        if byteZ c2 =? 125 then OK (JObject [], s2)
        else if byteZ c2 =? 34 then
          '(m, s3) <- member (value d) s2 ;;
          '(ms, s4) <- objectRest (value d) (String.length s3) s3 ;;
          OK (JObject (m :: ms), s4)
        else syntaxAt c2 "looking for beginning of object key string"
    end.
Proof. reflexivity. Qed.

Lemma arrayRest_ok (d : nat) (ts : list string) (js : list jvalue) :
  Forall2 (parsesTo d) ts js ->
  forall n rest,
    (List.length ts < n)%nat ->
    arrayRest (value d) n (tailText ts ++ String "]" rest) = OK (js, rest).
Proof.
  induction 1 as [|t j ts js Ht _ IH]; intros n rest Hn.
  - destruct n as [|n]; [lia|]. reflexivity.
  - destruct n as [|n]; [cbn [List.length] in Hn; lia|].
    cbn [tailText]. rewrite !append_assoc. cbn [append arrayRest skipSpace].
    change (isSpace ",") with false. cbv iota.
    change (byteZ "," =? 93) with false. change (byteZ "," =? 44) with true.
    cbv iota. rewrite Ht by (apply delimited_tail; reflexivity).
    cbn [rbind]. rewrite IH by (cbn [List.length] in Hn; lia). reflexivity.
Qed.

Lemma value_array_ok (d : nat) (ts : list string) (js : list jvalue) :
  Forall2 (parsesTo d) ts js ->
  parsesTo (S d) ("[" ++ join "," ts ++ "]") (JArray js).
Proof.
  intros F rest D. destruct F as [|t j ts js Ht Hts]; [reflexivity|].
  rewrite join_cons, !append_assoc. cbn [append].
  rewrite value_array_unfold.
  set (X := tailText ts ++ String "]" rest).
  assert (DX : delimited X = true) by (apply delimited_tail; reflexivity).
  pose proof (Ht X DX) as V.
  destruct (value_head _ _ V) as (c2 & s2 & Hs & Hc). rewrite Hs.
  destruct (Z.eqb_spec (byteZ c2) 93); [contradiction|].
  rewrite V. cbn [rbind]. unfold X at 1 2.
  rewrite arrayRest_ok with (js := js); [reflexivity | exact Hts |].
  pose proof (length_tail ts (String "]" rest)) as L.
  cbn [String.length] in L. lia.
Qed.

(** A member of an object: its key, a colon, its value. *)
Definition memberText (kt : string * string) : string :=
  appendString (fst kt) ++ ":" ++ snd kt.

Definition memberOk (d : nat) (kt : string * string) (kj : string * jvalue)
  : Prop :=
  fst kj = fst kt /\ utf8.ValidString (fst kt) = true /\
  parsesTo d (snd kt) (snd kj).

Lemma member_ok (d : nat) (kt : string * string) (kj : string * jvalue) :
  memberOk d kt kj ->
  forall rest, delimited rest = true ->
    exists s2,
      memberText kt ++ rest = String quote s2 /\
      member (value d) s2 = OK (kj, rest).
Proof.
  destruct kt as [k t], kj as [k' j]. intros (E & V & P) rest D.
  cbn [fst snd] in *. subst k'.
  unfold memberText, appendString. cbn [fst snd append].
  eexists. split; [reflexivity|].
  rewrite !append_assoc. cbn [append].
  unfold member. rewrite stringLit_appendString by exact V.
  cbn [rbind skipSpace]. change (isSpace ":") with false. cbv iota.
  change (byteZ ":" =? 58) with true. cbv iota.
  rewrite P by exact D. reflexivity.
Qed.

Lemma objectRest_ok (d : nat) (kts : list (string * string))
    (kjs : list (string * jvalue)) :
  Forall2 (memberOk d) kts kjs ->
  forall n rest,
    (List.length kts < n)%nat ->
    objectRest (value d) n (tailText (map memberText kts) ++ String "}" rest)
    = OK (kjs, rest).
Proof.
  induction 1 as [|kt kj kts kjs Hm _ IH]; intros n rest Hn.
  - destruct n as [|n]; [lia|]. reflexivity.
  - destruct n as [|n]; [cbn [List.length] in Hn; lia|].
    cbn [map tailText]. rewrite !append_assoc. cbn [append objectRest skipSpace].
    change (isSpace ",") with false. cbv iota.
    change (byteZ "," =? 125) with false. change (byteZ "," =? 44) with true.
    cbv iota.
    destruct (member_ok Hm (tailText (map memberText kts) ++ String "}" rest))
      as (s2 & E & M); [apply delimited_tail; reflexivity|].
    rewrite E. cbn [skipSpace]. change (isSpace quote) with false. cbv iota.
    change (byteZ quote =? 34) with true. cbv iota.
    rewrite M. cbn [rbind].
    rewrite IH by (cbn [List.length] in Hn; lia). reflexivity.
Qed.

Lemma value_object_ok (d : nat) (kts : list (string * string))
    (kjs : list (string * jvalue)) :
  Forall2 (memberOk d) kts kjs ->
  parsesTo (S d) ("{" ++ join "," (map memberText kts) ++ "}") (JObject kjs).
Proof.
  intros F rest D. destruct F as [|kt kj kts kjs Hm Hms]; [reflexivity|].
  cbn [map]. rewrite join_cons, !append_assoc. cbn [append].
  rewrite value_object_unfold.
  destruct (member_ok Hm (tailText (map memberText kts) ++ String "}" rest))
    as (s2 & E & M); [apply delimited_tail; reflexivity|].
  rewrite E. cbn [skipSpace]. change (isSpace quote) with false. cbv iota.
  change (byteZ quote =? 125) with false. change (byteZ quote =? 34) with true.
  cbv iota. rewrite M. cbn [rbind].
  rewrite objectRest_ok with (kjs := kjs); [reflexivity | exact Hms |].
  pose proof (length_tail (map memberText kts) (String "}" rest)) as L.
  rewrite length_map in L. cbn [String.length] in L. lia.
Qed.

(** ** Reflected values: encoding, then parsing *)

Section ValueInduction.

Variable P : Value -> Prop.
Hypothesis HBool : forall b, P (VBool b).
Hypothesis HInt : forall i, P (VInt i).
Hypothesis HString : forall s, P (VString s).
Hypothesis HNil : P (VSlice None).
Hypothesis HSlice : forall elems, Forall P elems -> P (VSlice (Some elems)).
Hypothesis HStruct :
  forall fields, Forall (fun kv => P (snd kv)) fields -> P (VStruct fields).
Hypothesis HChan : forall t, P (VChan t).
Hypothesis HFunc : forall t, P (VFunc t).

Fixpoint Value_nested_ind (v : Value) : P v :=
  match v with
  | VBool b => HBool b
  | VInt i => HInt i
  | VString s => HString s
  | VSlice None => HNil
  | VSlice (Some elems) =>
      HSlice
        ((fix all (l : list Value) : Forall P l :=
            match l with
            | [] => Forall_nil P
            | x :: l' => Forall_cons x (Value_nested_ind x) (all l')
            end) elems)
  | VStruct fields =>
      HStruct
        ((fix all (l : list (string * Value))
            : Forall (fun kv => P (snd kv)) l :=
            match l with
            | [] => Forall_nil _
            | kv :: l' =>
                Forall_cons kv (Value_nested_ind (snd kv)) (all l')
            end) fields)
  | VChan t => HChan t
  | VFunc t => HFunc t
  end.

End ValueInduction.

(** The JSON value that the text of a Go value stands for. *)
Fixpoint jsonOf (v : Value) : jvalue :=
  match v with
  | VBool b => JBool b
  | VInt i => JNumber (strconv.FormatInt i)
  | VString s => JString s
  | VSlice None => JNull
  | VSlice (Some elems) => JArray (map jsonOf elems)
  | VStruct fields => JObject (map (fun kv => (fst kv, jsonOf (snd kv))) fields)
  | VChan _ | VFunc _ => JNull
  end.

(** A value that has an encoding: no channel and no function in it. *)
Fixpoint supported (v : Value) : bool :=
  match v with
  | VSlice (Some elems) => forallb supported elems
  | VStruct fields => forallb (fun kv => supported (snd kv)) fields
  | VChan _ | VFunc _ => false
  | _ => true
  end.

(** A value whose encoding reads back as it is: its strings and its field
    names are valid UTF-8 and its integers are 64-bit integers. *)
Fixpoint faithful (v : Value) : bool :=
  match v with
  | VBool _ => true
  | VInt i => int64 i
  | VString s => utf8.ValidString s
  | VSlice None => true
  | VSlice (Some elems) => forallb faithful elems
  | VStruct fields =>
      forallb (fun kv => utf8.ValidString (fst kv) && faithful (snd kv)) fields
  | VChan _ | VFunc _ => false
  end.

(** A value nested no deeper than [d] slices and structs. *)
Fixpoint fits (v : Value) (d : nat) : bool :=
  match v with
  | VSlice (Some elems) =>
      match d with
      | O => false
      | S d' => forallb (fun e => fits e d') elems
      end
  | VStruct fields =>
      match d with
      | O => false
      | S d' => forallb (fun kv => fits (snd kv) d') fields
      end
  | _ => true
  end.

Lemma fits_mono (v : Value) :
  forall d d', (d <= d')%nat -> fits v d = true -> fits v d' = true.
Proof.
  induction v as [b|i|s| |elems IH|fields IH|t|t] using Value_nested_ind;
    intros d d' L H; try reflexivity.
  - destruct d as [|d]; [discriminate|]. destruct d' as [|d']; [lia|].
    cbn [fits] in *. rewrite forallb_forall in *. rewrite Forall_forall in IH.
    intros e He. apply (IH e He d d'); [lia | auto].
  - destruct d as [|d]; [discriminate|]. destruct d' as [|d']; [lia|].
    cbn [fits] in *. rewrite forallb_forall in *. rewrite Forall_forall in IH.
    intros kv Hkv. apply (IH kv Hkv d d'); [lia | auto].
Qed.

Lemma mapM_supported {A} (f : A -> result string) (l : list A) :
  Forall (fun a => exists t, f a = OK t) l -> exists ts, mapM f l = OK ts.
Proof.
  induction 1 as [|a l [t Ht] _ [ts Hts]]; cbn [mapM].
  - now exists [].
  - rewrite Ht, Hts. now eexists.
Qed.

(** Every value without channel and function has an encoding. *)
Lemma encode_supported (v : Value) :
  supported v = true -> exists t, encode v = OK t.
Proof.
  induction v as [b|i|s| |elems IH|fields IH|t|t] using Value_nested_ind;
    intros S; try discriminate S; try (eexists; reflexivity).
  - cbn [supported] in S. rewrite forallb_forall in S.
    destruct (mapM_supported encode (l := elems)) as [ts Hts].
    { rewrite Forall_forall in *. intros e He. apply (IH e He), S, He. }
    cbn [encode]. rewrite Hts. now eexists.
  - cbn [supported] in S. rewrite forallb_forall in S.
    destruct (mapM_supported
                (fun kv : string * Value =>
                   let '(k, fv) := kv in
                   t <- encode fv ;; OK (appendString k ++ ":" ++ t))
                (l := fields)) as [ts Hts].
    { rewrite Forall_forall in *. intros [k fv] He.
      destruct (IH _ He (S _ He)) as [t Ht]. cbn [snd] in Ht.
      rewrite Ht. now eexists. }
    cbn [encode]. rewrite Hts. now eexists.
Qed.

Lemma encode_elems (d : nat) (elems : list Value) :
  Forall (fun v => exists t, encode v = OK t /\ parsesTo d t (jsonOf v)) elems ->
  exists ts, mapM encode elems = OK ts /\
             Forall2 (parsesTo d) ts (map jsonOf elems).
Proof.
  induction 1 as [|v l (t & Ht & Pt) _ (ts & Hts & Pts)]; cbn [mapM map].
  - exists []. split; [reflexivity | constructor].
  - rewrite Ht, Hts. exists (t :: ts). split; [reflexivity | now constructor].
Qed.

Lemma encode_fields (d : nat) (fields : list (string * Value)) :
  Forall (fun kv => utf8.ValidString (fst kv) = true /\
                    exists t, encode (snd kv) = OK t /\
                              parsesTo d t (jsonOf (snd kv))) fields ->
  exists kts,
    mapM (fun kv : string * Value =>
            let '(k, fv) := kv in
            t <- encode fv ;; OK (appendString k ++ ":" ++ t)) fields
    = OK (map memberText kts) /\
    Forall2 (memberOk d) kts (map (fun kv => (fst kv, jsonOf (snd kv))) fields).
Proof.
  induction 1 as [|[k fv] l (V & t & Ht & Pt) _ (kts & Hts & Pts)];
    cbn [mapM map].
  - exists []. split; [reflexivity | constructor].
  - cbn [fst snd] in *. rewrite Ht. cbn [rbind]. rewrite Hts.
    exists ((k, t) :: kts). split; [reflexivity|].
    constructor; [|exact Pts]. repeat split; assumption.
Qed.

(** The text of a faithful value parses as the JSON value it stands
    for. *)
Theorem encode_parses (v : Value) :
  forall d,
    faithful v = true -> fits v d = true ->
    exists t, encode v = OK t /\ parsesTo d t (jsonOf v).
Proof.
  induction v as [b|i|s| |elems IH|fields IH|t|t] using Value_nested_ind;
    intros d F D; try discriminate F.
  - exists (if b then "true" else "false"). split; [reflexivity|].
    intros rest _. destruct b; [apply value_true | apply value_false].
  - eexists. split; [reflexivity|]. intros rest R. now apply value_int.
  - eexists. split; [reflexivity|]. intros rest _. now apply value_string.
  - eexists. split; [reflexivity|]. intros rest _. apply value_null.
  - destruct d as [|d]; [discriminate D|]. cbn [faithful fits] in F, D.
    rewrite forallb_forall in F, D.
    destruct (@encode_elems d elems) as (ts & Hts & Pts).
    { rewrite Forall_forall in *. intros e He. apply (IH e He); auto. }
    cbn [encode jsonOf]. rewrite Hts. eexists. split; [reflexivity|].
    now apply value_array_ok.
  - destruct d as [|d]; [discriminate D|]. cbn [faithful fits] in F, D.
    rewrite forallb_forall in F, D.
    destruct (@encode_fields d fields) as (kts & Hts & Pts).
    { rewrite Forall_forall in *. intros kv He.
      specialize (F kv He). apply andb_true_iff in F as [F1 F2].
      split; [exact F1|]. apply (IH kv He); auto. }
    cbn [encode jsonOf]. rewrite Hts. eexists. split; [reflexivity|].
    now apply value_object_ok.
Qed.

(** The same for the whole text, as [Unmarshal] parses it. *)
Corollary parse_encode (v : Value) :
  faithful v = true -> fits v maxNestingDepth = true ->
  exists t, encode v = OK t /\ parse t = OK (jsonOf v).
Proof.
  intros F D. destruct (@encode_parses v maxNestingDepth F D) as (t & E & P).
  exists t. split; [exact E|]. unfold parse.
  specialize (P EmptyString eq_refl). rewrite append_nil_r in P.
  rewrite P. reflexivity.
Qed.

(** ** Go types whose values survive [Marshal] and [Unmarshal] *)

(** The laws of a type of the program: every value has an encodable
    reflection of bounded nesting, and a value whose strings are valid
    UTF-8 and whose integers are 64-bit integers is read back from the
    JSON value of its reflection, whatever the variable held before. *)
Class Lawful (A : Type) `{GoType A} : Type := {
  wellTyped : A -> bool;
  nesting : nat;
  lawful_supported : forall a, supported (valueOf a) = true;
  lawful_fits : forall a, fits (valueOf a) nesting = true;
  lawful_faithful : forall a, wellTyped a = true -> faithful (valueOf a) = true;
  lawful_decode :
    forall a, wellTyped a = true ->
    forall ctx cur, decode ctx (jsonOf (valueOf a)) cur = OK a
}.
Arguments Lawful A {_}.

#[export, refine] Instance LawfulString : Lawful string := {
  wellTyped := utf8.ValidString;
  nesting := 0
}.
Proof.
  - reflexivity.
  - reflexivity.
  - intros a H. exact H.
  - reflexivity.
Defined.

#[export, refine] Instance LawfulInt : Lawful Z := {
  wellTyped := int64;
  nesting := 0
}.
Proof.
  - reflexivity.
  - reflexivity.
  - intros a H. exact H.
  - intros a H ctx cur. cbn [decode GoInt jsonOf valueOf].
    now rewrite ParseInt_FormatInt.
Defined.

Section Slices.

Context {A : Type} `{Lawful A}.

Definition wellTypedSlice (o : slice A) : bool :=
  match o with
  | None => true
  | Some l => forallb wellTyped l
  end.

Lemma slice_supported (o : slice A) : supported (valueOf o) = true.
Proof.
  destruct o as [l|]; [|reflexivity]. cbn [valueOf GoSlice option_map supported].
  induction l as [|a l IH]; [reflexivity|].
  cbn [map forallb]. now rewrite lawful_supported, IH.
Qed.

Lemma slice_fits (o : slice A) : fits (valueOf o) (S nesting) = true.
Proof.
  destruct o as [l|]; [|reflexivity]. cbn [valueOf GoSlice option_map fits].
  induction l as [|a l IH]; [reflexivity|].
  cbn [map forallb]. now rewrite lawful_fits, IH.
Qed.

Lemma slice_faithful (o : slice A) :
  wellTypedSlice o = true -> faithful (valueOf o) = true.
Proof.
  destruct o as [l|]; [|reflexivity].
  cbn [wellTypedSlice valueOf GoSlice option_map faithful].
  induction l as [|a l IH]; [reflexivity|].
  cbn [map forallb]. intros W. apply andb_true_iff in W as [Wa Wl].
  now rewrite lawful_faithful, IH.
Qed.

Lemma decodeElems_lawful (ctx : errorContext) (l : list A) :
  forallb wellTyped l = true ->
  forall old, decodeElems ctx (map jsonOf (map valueOf l)) old = OK l.
Proof.
  induction l as [|a l IH]; intros W old; [reflexivity|].
  cbn [forallb] in W. apply andb_true_iff in W as [Wa Wl].
  cbn [map decodeElems].
  destruct old as [|x xs]; cbv zeta iota beta;
    rewrite lawful_decode by exact Wa; cbn [rbind];
    rewrite IH by exact Wl; reflexivity.
Qed.

Lemma slice_decode (o : slice A) :
  wellTypedSlice o = true ->
  forall ctx cur, decode ctx (jsonOf (valueOf o)) cur = OK o.
Proof.
  intros W ctx cur. destruct o as [l|]; [|reflexivity].
  cbn [valueOf GoSlice option_map jsonOf decode].
  now rewrite decodeElems_lawful.
Qed.

#[export] Instance LawfulSlice : Lawful (slice A) := {
  wellTyped := wellTypedSlice;
  nesting := S nesting;
  lawful_supported := slice_supported;
  lawful_fits := slice_fits;
  lawful_faithful := slice_faithful;
  lawful_decode := slice_decode
}.

End Slices.

#[export, refine] Instance LawfulTextContent : Lawful ClaudeTextContent := {
  wellTyped c := wellTyped (Type_ c) && wellTyped (Text c);
  nesting := 1
}.
Proof.
  - reflexivity.
  - reflexivity.
  - intros [ty tx] W. cbn [Type_ Text] in W.
    apply andb_true_iff in W as [W1 W2].
    cbn [wellTyped LawfulString] in W1, W2.
    cbn [valueOf GoClaudeTextContent GoString faithful forallb fst snd Type_ Text].
    rewrite W1, W2. reflexivity.
  - intros [ty tx] W ctx cur. reflexivity.
Defined.

Lemma findField_message_role : findField ["role"; "content"] "role" = Some "role".
Proof. reflexivity. Qed.

Lemma findField_message_content :
  findField ["role"; "content"] "content" = Some "content".
Proof. reflexivity. Qed.

#[export, refine] Instance LawfulRequestMessage : Lawful ClaudeRequestMessage := {
  wellTyped m := wellTyped (Role m) && wellTyped (Content m);
  nesting := 3
}.
Proof.
  - intros [ro co].
    cbn [valueOf GoClaudeRequestMessage supported forallb snd Role Content].
    rewrite (lawful_supported (A := slice ClaudeTextContent)). reflexivity.
  - intros [ro co].
    assert (F : fits (valueOf co) 2 = true) by exact (lawful_fits co).
    cbn [valueOf GoClaudeRequestMessage fits forallb snd Role Content].
    rewrite F. reflexivity.
  - intros [ro co] W. cbn [Role Content] in W.
    apply andb_true_iff in W as [W1 W2].
    cbn [wellTyped LawfulString] in W1.
    cbn [valueOf GoClaudeRequestMessage faithful forallb fst snd Role Content].
    rewrite (lawful_faithful (A := slice ClaudeTextContent) co W2).
    cbn [valueOf GoString faithful]. rewrite W1. reflexivity.
  - intros [ro co] W ctx cur. cbn [Role Content] in W.
    apply andb_true_iff in W as [W1 W2].
    cbn [valueOf GoClaudeRequestMessage jsonOf map fst snd Role Content].
    cbn [decode GoClaudeRequestMessage decodeStruct decodeMembers].
    rewrite findField_message_role, findField_message_content.
    change (String.eqb "role" "role") with true.
    change (String.eqb "content" "role") with false. cbv iota.
    rewrite (lawful_decode (A := string)) by exact W1. cbn [rbind Role Content].
    rewrite (lawful_decode (A := slice ClaudeTextContent)) by exact W2.
    reflexivity.
Defined.

Definition requestFields : list string :=
  ["anthropic_version"; "max_tokens"; "system"; "messages"].

Lemma findField_request :
  findField requestFields "anthropic_version" = Some "anthropic_version" /\
  findField requestFields "max_tokens" = Some "max_tokens" /\
  findField requestFields "system" = Some "system" /\
  findField requestFields "messages" = Some "messages".
Proof. repeat split. Qed.

#[export, refine] Instance LawfulRequest : Lawful ClaudeRequest := {
  wellTyped r :=
    wellTyped (AnthropicVersion r) && wellTyped (MaxTokens r) &&
    wellTyped (System r) && wellTyped (Messages r);
  nesting := 5
}.
Proof.
  - intros [av mt sy ms].
    cbn [valueOf GoClaudeRequest supported forallb snd
         AnthropicVersion MaxTokens System Messages].
    rewrite (lawful_supported (A := slice ClaudeRequestMessage)). reflexivity.
  - intros [av mt sy ms].
    assert (F : fits (valueOf ms) 4 = true) by exact (lawful_fits ms).
    cbn [valueOf GoClaudeRequest fits forallb snd
         AnthropicVersion MaxTokens System Messages].
    rewrite F. reflexivity.
  - intros [av mt sy ms] W.
    cbn [AnthropicVersion MaxTokens System Messages] in W.
    rewrite !andb_true_iff in W. destruct W as [[[W1 W2] W3] W4].
    cbn [wellTyped LawfulString LawfulInt] in W1, W2, W3.
    cbn [valueOf GoClaudeRequest faithful forallb fst snd
         AnthropicVersion MaxTokens System Messages].
    rewrite (lawful_faithful (A := slice ClaudeRequestMessage) ms W4).
    cbn [valueOf GoString GoInt faithful]. rewrite W1, W2, W3. reflexivity.
  - intros [av mt sy ms] W ctx cur.
    cbn [AnthropicVersion MaxTokens System Messages] in W.
    rewrite !andb_true_iff in W. destruct W as [[[W1 W2] W3] W4].
    destruct findField_request as (F1 & F2 & F3 & F4).
    cbn [valueOf GoClaudeRequest jsonOf map fst snd
         AnthropicVersion MaxTokens System Messages].
    cbn [decode GoClaudeRequest decodeStruct decodeMembers].
    fold requestFields. rewrite F1, F2, F3, F4.
    change (String.eqb "anthropic_version" "anthropic_version") with true.
    change (String.eqb "max_tokens" "anthropic_version") with false.
    change (String.eqb "max_tokens" "max_tokens") with true.
    change (String.eqb "system" "anthropic_version") with false.
    change (String.eqb "system" "max_tokens") with false.
    change (String.eqb "system" "system") with true.
    change (String.eqb "messages" "anthropic_version") with false.
    change (String.eqb "messages" "max_tokens") with false.
    change (String.eqb "messages" "system") with false.
    cbv iota.
    rewrite (lawful_decode (A := string)) by exact W1.
    cbn [rbind AnthropicVersion MaxTokens System Messages].
    rewrite (lawful_decode (A := Z)) by exact W2.
    cbn [rbind AnthropicVersion MaxTokens System Messages].
    rewrite (lawful_decode (A := string)) by exact W3.
    cbn [rbind AnthropicVersion MaxTokens System Messages].
    rewrite (lawful_decode (A := slice ClaudeRequestMessage)) by exact W4.
    reflexivity.
Defined.

(** ** Round trips *)

Section RoundTrip.

Context {A : Type} `{Lawful A}.

(** [Marshal] succeeds on every value of a lawful type. *)
Lemma Marshal_total (a : A) : exists body, Marshal a = OK body.
Proof. apply encode_supported, lawful_supported. Qed.

(** A well-typed value of a lawful type is what [Unmarshal] reads from the
    text that [Marshal] wrote for it. *)
Lemma Marshal_Unmarshal (a : A) :
  wellTyped a = true ->
  (nesting <= maxNestingDepth)%nat ->
  exists body,
    Marshal a = OK body /\ forall cur, Unmarshal body cur = OK a.
Proof.
  intros W N.
  destruct (@parse_encode (valueOf a)) as (t & E & P).
  - now apply lawful_faithful.
  - apply fits_mono with (d := nesting); [exact N | apply lawful_fits].
  - exists t. split; [exact E|]. intros cur. unfold Unmarshal.
    rewrite P. cbn [rbind]. now apply lawful_decode.
Qed.

End RoundTrip.

(** A request whose [system] text is the one byte [0xFF], which is no
    UTF-8. *)
Definition badRequest : ClaudeRequest :=
  buildRequest (String (byte 255) EmptyString) "x" 1.

(** C5, as the specification states it, fails: the encoder writes a byte that is no
    UTF-8 as the escape of U+FFFD, and the decoder reads the three bytes of
    that rune. *)
Lemma roundtrip_loses_invalid_utf8 :
  ~ (forall r : ClaudeRequest,
       int64 (MaxTokens r) = true ->
       exists body,
         Marshal r = OK body /\
         exists r', Unmarshal body (zero (A := ClaudeRequest)) = OK r' /\
                    AnthropicVersion r' = AnthropicVersion r /\
                    MaxTokens r' = MaxTokens r /\
                    System r' = System r /\
                    Messages r' = Messages r).
Proof.
  intros H. destruct (H badRequest eq_refl) as (body & M & r' & U & _ & _ & S & _).
  vm_compute in M. injection M as <-.
  vm_compute in U. injection U as <-.
  vm_compute in S. discriminate S.
Qed.

(** The strings of a request are valid UTF-8. *)
Definition validText (c : ClaudeTextContent) : bool :=
  utf8.ValidString (Type_ c) && utf8.ValidString (Text c).

Definition validMessage (m : ClaudeRequestMessage) : bool :=
  utf8.ValidString (Role m) &&
  match Content m with
  | None => true
  | Some cs => forallb validText cs
  end.

Definition validUTF8 (r : ClaudeRequest) : bool :=
  utf8.ValidString (AnthropicVersion r) && utf8.ValidString (System r) &&
  match Messages r with
  | None => true
  | Some ms => forallb validMessage ms
  end.

Lemma wellTyped_request (r : ClaudeRequest) :
  validUTF8 r = true -> int64 (MaxTokens r) = true -> wellTyped r = true.
Proof.
  destruct r as [av mt sy ms]. unfold validUTF8.
  cbn [AnthropicVersion MaxTokens System Messages].
  rewrite !andb_true_iff. intros [[V1 V2] V3] V4.
  change (utf8.ValidString av && int64 mt && utf8.ValidString sy &&
          match ms with
          | None => true
          | Some l => forallb validMessage l
          end = true).
  now rewrite V1, V2, V3, V4.
Qed.

(** C5, amended. A request whose strings are valid UTF-8 (its token cap
    being a 64-bit integer, as a Go [int] is) is encoded, and decoding the
    bytes gives a request with the same [anthropic_version], [max_tokens],
    [system] and [messages]. *)
Theorem request_roundtrip (r : ClaudeRequest) :
  validUTF8 r = true ->
  int64 (MaxTokens r) = true ->
  exists body,
    Marshal r = OK body /\
    exists r', Unmarshal body (zero (A := ClaudeRequest)) = OK r' /\
               AnthropicVersion r' = AnthropicVersion r /\
               MaxTokens r' = MaxTokens r /\
               System r' = System r /\
               Messages r' = Messages r.
Proof.
  intros V I.
  destruct (Marshal_Unmarshal r (wellTyped_request r V I)) as (body & M & U).
  - apply Nat.leb_le. vm_compute. reflexivity.
  - exists body. split; [exact M|]. exists r. split; [apply U|].
    repeat split.
Qed.

Lemma request_roundtrip_witness :
  exists body,
    Marshal request = OK body /\
    exists r', Unmarshal body (zero (A := ClaudeRequest)) = OK r' /\
               AnthropicVersion r' = AnthropicVersion request /\
               MaxTokens r' = MaxTokens request /\
               System r' = System request /\
               Messages r' = Messages request.
Proof.
  apply (request_roundtrip request); vm_compute; reflexivity.
Defined.

(** C10. Encoding a request never fails, whatever its strings, its number
    and its messages are: the encoding-error branch of [main] is not
    taken.  The request of [main] is encoded as [requestBody]. *)
Theorem Marshal_request_succeeds :
  (forall r : ClaudeRequest, exists body, Marshal r = OK body) /\
  Marshal request = OK requestBody /\
  (forall (w : World) (cfg : Config),
     LoadDefaultConfig w region = OK cfg ->
     main w = afterInvoke w (InvokeModel w (NewFromConfig cfg)
                               (invokeInput requestBody))).
Proof.
  split; [|split].
  - intros r. apply Marshal_total.
  - exact Marshal_request.
  - intros w cfg Hc. now apply main_invokes.
Qed.

Lemma Marshal_request_succeeds_witness :
  main (answering bangkokBody)
  = afterInvoke (answering bangkokBody)
      (InvokeModel (answering bangkokBody)
         (NewFromConfig {| Region := region |}) (invokeInput requestBody)).
Proof.
  apply (proj2 (proj2 Marshal_request_succeeds) (answering bangkokBody)
           {| Region := region |}).
  reflexivity.
Defined.

(* ================================================================= *)
(** * Further properties of [main] *)

(** ** The fatal paths *)

(** The line that [log.Fatalf] writes for a message. *)
Definition fatalLine (st msg : string) : string :=
  st ++ " " ++ msg ++ (if log.endsWithNewline msg then EmptyString else nl).

(** The outcome of a run that ended in [log.Fatalf]. *)
Definition fatalOutcome (st msg : string) : Outcome :=
  {| console := {| stdout := []; stderr := [fatalLine st msg] |};
     status := 1 |}.

Lemma Sprintf_value_verb (f : string) (a : any) (args : list any) :
  fmt.Sprintf (String "%" (String "v" f)) (a :: args)
  = fmt.text a ++ fmt.Sprintf f args.
Proof. reflexivity. Qed.

Lemma Sprintf_wrap (p : string) (err : error) :
  noPercent p = true ->
  fmt.Sprintf (p ++ String "%" (String "v" EmptyString)) [anyError err]
  = p ++ Error err.
Proof.
  intros H. rewrite Sprintf_literal by exact H.
  rewrite Sprintf_value_verb. cbn [fmt.Sprintf fmt.text].
  now rewrite append_nil_r.
Qed.

Lemma exec_Fatalf_wrap (st p : string) (err : error) :
  noPercent p = true ->
  exec (log.Fatalf st (p ++ String "%" (String "v" EmptyString)) [anyError err])
  = fatalOutcome st (p ++ Error err).
Proof.
  intros H. unfold log.Fatalf. cbv zeta. rewrite (@Sprintf_wrap p err H).
  reflexivity.
Qed.

Definition configFailed : string := "AWSの設定読み込みに失敗しました: ".
Definition decodeFailed : string := "レスポンスの解析に失敗しました: ".

Lemma main_config_failure (w : World) (err : error) :
  LoadDefaultConfig w region = Err err ->
  exec (main w) = fatalOutcome (stamp w) (configFailed ++ Error err).
Proof.
  intros Hc. unfold main, mainWith. fold region. rewrite Hc.
  change "AWSの設定読み込みに失敗しました: %v"
    with (configFailed ++ String "%" (String "v" EmptyString)).
  apply exec_Fatalf_wrap. vm_compute. reflexivity.
Qed.

Lemma afterInvoke_decode_failure (w : World) (out : InvokeModelOutput)
    (err : error) :
  Unmarshal (OutputBody out) (zero (A := ClaudeResponse)) = Err err ->
  exec (afterInvoke w (OK out))
  = fatalOutcome (stamp w) (decodeFailed ++ Error err).
Proof.
  intros Hu. unfold afterInvoke. rewrite Hu.
  change "レスポンスの解析に失敗しました: %v"
    with (decodeFailed ++ String "%" (String "v" EmptyString)).
  apply exec_Fatalf_wrap. vm_compute. reflexivity.
Qed.

(** The outcome of a run that printed [line] and stopped with [code]. *)
Definition printed (line : string) (code : Z) : Outcome :=
  {| console := {| stdout := [line]; stderr := [] |}; status := code |}.

Definition panicOutcome : Outcome :=
  {| console :=
       {| stdout := [];
          stderr := ["panic: runtime error: index out of range [0] with length 0" ++ nl] |};
     status := 2 |}.

Lemma afterInvoke_empty (w : World) (out : InvokeModelOutput)
    (resp : ClaudeResponse) :
  Unmarshal (OutputBody out) (zero (A := ClaudeResponse)) = OK resp ->
  ResponseContent resp = None \/ ResponseContent resp = Some [] ->
  exec (afterInvoke w (OK out)) = panicOutcome.
Proof.
  intros Hu Hr. unfold afterInvoke. rewrite Hu. unfold exec, pbind, index.
  destruct Hr as [-> | ->]; reflexivity.
Qed.

(** The diagnostic that [handleInvokeError] selects, by the two tests of
    its switch. *)
Definition diagnostic (err : error) (m : string) : string :=
  if strings.Contains (Error err) "no such host" then regionUnavailableLine
  else if strings.Contains (Error err) "Could not resolve the foundation model"
       then modelUnresolvedLine m
       else invokeFailedLine err.

Lemma handleInvokeError_diagnostic (err : error) (m : string) :
  prints (diagnostic err m) (handleInvokeError err m).
Proof.
  intros k. unfold handleInvokeError, diagnostic, fmt.Printf, writeOut.
  destruct (strings.Contains (Error err) "no such host").
  - now rewrite Sprintf_regionUnavailable.
  - destruct (strings.Contains (Error err) "Could not resolve the foundation model").
    + now rewrite Sprintf_modelUnresolved.
    + now rewrite Sprintf_invokeFailed.
Qed.

Lemma afterInvoke_failure (w : World) (err : error) :
  exec (afterInvoke w (Err err)) = printed (diagnostic err modelID) 1.
Proof.
  unfold afterInvoke, exec, pbind.
  rewrite (handleInvokeError_diagnostic err modelID). reflexivity.
Qed.

(** Every run of [main], by what its collaborators answer. *)
Inductive run (w : World) : Outcome -> Prop :=
| run_unconfigured err :
    LoadDefaultConfig w region = Err err ->
    run w (fatalOutcome (stamp w) (configFailed ++ Error err))
| run_refused cfg err :
    LoadDefaultConfig w region = OK cfg ->
    InvokeModel w (NewFromConfig cfg) (invokeInput requestBody) = Err err ->
    run w (printed (diagnostic err modelID) 1)
| run_undecoded cfg out err :
    LoadDefaultConfig w region = OK cfg ->
    InvokeModel w (NewFromConfig cfg) (invokeInput requestBody) = OK out ->
    Unmarshal (OutputBody out) (zero (A := ClaudeResponse)) = Err err ->
    run w (fatalOutcome (stamp w) (decodeFailed ++ Error err))
| run_empty cfg out resp :
    LoadDefaultConfig w region = OK cfg ->
    InvokeModel w (NewFromConfig cfg) (invokeInput requestBody) = OK out ->
    Unmarshal (OutputBody out) (zero (A := ClaudeResponse)) = OK resp ->
    ResponseContent resp = None \/ ResponseContent resp = Some [] ->
    run w panicOutcome
| run_answered cfg out resp c rest :
    LoadDefaultConfig w region = OK cfg ->
    InvokeModel w (NewFromConfig cfg) (invokeInput requestBody) = OK out ->
    Unmarshal (OutputBody out) (zero (A := ClaudeResponse)) = OK resp ->
    ResponseContent resp = Some (c :: rest) ->
    run w (printed (Text c ++ nl) 0).

Lemma main_run (w : World) : run w (exec (main w)).
Proof.
  destruct (LoadDefaultConfig w region) as [cfg | err] eqn:Hc.
  - rewrite (main_invokes w Hc).
    destruct (InvokeModel w (NewFromConfig cfg) (invokeInput requestBody))
      as [out | err] eqn:Hi.
    + destruct (Unmarshal (OutputBody out) (zero (A := ClaudeResponse)))
        as [resp | err] eqn:Hu.
      * destruct (ResponseContent resp) as [[|c rest] |] eqn:Hr.
        -- rewrite (afterInvoke_empty w out Hu (or_intror Hr)).
           eapply run_empty; eauto.
        -- rewrite (afterInvoke_success w out Hu Hr).
           eapply run_answered; eauto.
        -- rewrite (afterInvoke_empty w out Hu (or_introl Hr)).
           eapply run_empty; eauto.
      * rewrite (afterInvoke_decode_failure w out Hu).
        eapply run_undecoded; eauto.
    + rewrite afterInvoke_failure. eapply run_refused; eauto.
  - rewrite (main_config_failure w Hc). now apply run_unconfigured.
Qed.

Ltac run_cases w :=
  let R := fresh "R" in
  pose proof (main_run w) as R; inversion R;
  match goal with
  | E : _ = exec (main w) |- _ => rewrite <- E in *; clear E
  end.

(** X1. Whatever the collaborators answer, a run writes one message and no
    more, on one of the two channels; what goes to standard output ends
    with a newline. *)
Theorem main_writes_one_message (w : World) :
  (List.length (stdout (console (exec (main w))))
   + List.length (stderr (console (exec (main w)))) = 1)%nat /\
  forall line, In line (stdout (console (exec (main w)))) ->
               exists text, line = text ++ nl.
Proof.
  assert (D : forall err m, exists text, diagnostic err m = text ++ nl).
  { intros err m. unfold diagnostic.
    destruct (strings.Contains (Error err) "no such host");
      [|destruct (strings.Contains (Error err) "Could not resolve the foundation model")].
    - eexists. reflexivity.
    - unfold modelUnresolvedLine. rewrite <- !append_assoc. eexists. reflexivity.
    - unfold invokeFailedLine. rewrite <- append_assoc. eexists. reflexivity. }
  run_cases w; (split; [reflexivity|]); cbn [stdout console printed fatalOutcome panicOutcome];
    intros line Hl; try contradiction;
    destruct Hl as [<- | []]; [apply D | eexists; reflexivity].
Qed.

Lemma main_writes_one_message_witness :
  exists text, "Bangkok" ++ nl = text ++ nl.
Proof.
  apply (proj2 (main_writes_one_message (answering bangkokBody))).
  vm_compute. left. reflexivity.
Defined.

(** The conditions of the success path. *)
Definition answered (w : World) (c : ClaudeTextContent) : Prop :=
  exists cfg out resp rest,
    LoadDefaultConfig w region = OK cfg /\
    InvokeModel w (NewFromConfig cfg) (invokeInput requestBody) = OK out /\
    Unmarshal (OutputBody out) (zero (A := ClaudeResponse)) = OK resp /\
    ResponseContent resp = Some (c :: rest).

(** X2. The exit status is 0 exactly when the configuration was loaded, the
    remote call succeeded, its body was decoded and the decoded response
    has a content block. *)
Theorem exit_zero_iff_answered (w : World) :
  status (exec (main w)) = 0 <-> exists c, answered w c.
Proof.
  split.
  - intros S. run_cases w; cbn [status printed fatalOutcome panicOutcome] in S;
      try discriminate S.
    exists c, cfg, out, resp, rest. auto.
  - intros (c & cfg & out & resp & rest & Hc & Hi & Hu & Hr).
    rewrite (main_invokes w Hc), Hi, (afterInvoke_success w out Hu Hr).
    reflexivity.
Qed.

Lemma exit_zero_iff_answered_witness :
  exists c, answered (answering bangkokBody) c.
Proof.
  apply (proj1 (exit_zero_iff_answered (answering bangkokBody))).
  vm_compute. reflexivity.
Defined.

(** X3. The exit status is 0, 1 or 2.  It is 2 exactly when the body was
    decoded into a response without content block, and 1 exactly when the
    configuration could not be loaded, the remote call failed or its body
    could not be decoded. *)
Theorem exit_status_cases (w : World) :
  (status (exec (main w)) = 0 \/ status (exec (main w)) = 1 \/
   status (exec (main w)) = 2) /\
  (status (exec (main w)) = 2 <->
   exists cfg out resp,
     LoadDefaultConfig w region = OK cfg /\
     InvokeModel w (NewFromConfig cfg) (invokeInput requestBody) = OK out /\
     Unmarshal (OutputBody out) (zero (A := ClaudeResponse)) = OK resp /\
     (ResponseContent resp = None \/ ResponseContent resp = Some [])) /\
  (status (exec (main w)) = 1 <->
   (exists err, LoadDefaultConfig w region = Err err) \/
   (exists cfg err,
      LoadDefaultConfig w region = OK cfg /\
      InvokeModel w (NewFromConfig cfg) (invokeInput requestBody) = Err err) \/
   (exists cfg out err,
      LoadDefaultConfig w region = OK cfg /\
      InvokeModel w (NewFromConfig cfg) (invokeInput requestBody) = OK out /\
      Unmarshal (OutputBody out) (zero (A := ClaudeResponse)) = Err err)).
Proof.
  split; [|split; split].
  - run_cases w; cbn [status printed fatalOutcome panicOutcome]; auto.
  - intros S. run_cases w; cbn [status printed fatalOutcome panicOutcome] in S;
      try discriminate S.
    exists cfg, out, resp. auto.
  - intros (cfg & out & resp & Hc & Hi & Hu & Hr).
    rewrite (main_invokes w Hc), Hi, (afterInvoke_empty w out Hu Hr).
    reflexivity.
  - intros S. run_cases w; cbn [status printed fatalOutcome panicOutcome] in S;
      try discriminate S.
    + left. now exists err.
    + right. left. now exists cfg, err.
    + right. right. now exists cfg, out, err.
  - intros [(err & Hc) | [(cfg & err & Hc & Hi) | (cfg & out & err & Hc & Hi & Hu)]].
    + now rewrite (main_config_failure w Hc).
    + now rewrite (main_invokes w Hc), Hi, afterInvoke_failure.
    + now rewrite (main_invokes w Hc), Hi, (afterInvoke_decode_failure w out Hu).
Qed.

Lemma exit_status_cases_witness : status (exec (main unconfigured)) = 1.
Proof.
  apply (proj2 (proj2 (proj2 (exit_status_cases unconfigured)))).
  left. exists (errorString "failed to load shared config"). reflexivity.
Defined.

(** X4. When the configuration cannot be loaded, the program reports it on
    standard error with the text of the error, exits with 1, and the remote
    call plays no part: any other remote service gives the same run. *)
Theorem config_failure_skips_remote (w : World) (err : error) :
  LoadDefaultConfig w region = Err err ->
  exec (main w) = fatalOutcome (stamp w) (configFailed ++ Error err) /\
  forall invoke,
    exec (main {| LoadDefaultConfig := LoadDefaultConfig w;
                  InvokeModel := invoke;
                  stamp := stamp w |})
    = exec (main w).
Proof.
  intros Hc. split; [now apply main_config_failure|].
  intros invoke. rewrite (main_config_failure w Hc).
  now rewrite (@main_config_failure
                 {| LoadDefaultConfig := LoadDefaultConfig w;
                    InvokeModel := invoke; stamp := stamp w |} err Hc).
Qed.

Lemma config_failure_skips_remote_witness :
  exec (main unconfigured)
  = fatalOutcome "2024/06/21 10:00:00"
      (configFailed ++ "failed to load shared config") /\
  forall invoke,
    exec (main {| LoadDefaultConfig := LoadDefaultConfig unconfigured;
                  InvokeModel := invoke;
                  stamp := stamp unconfigured |})
    = exec (main unconfigured).
Proof.
  apply (@config_failure_skips_remote unconfigured
           (errorString "failed to load shared config")).
  reflexivity.
Defined.

(** X5. When the body of the response cannot be decoded, the program
    prints nothing: it reports the decoding error with its text on standard
    error and exits with 1. *)
Theorem decode_failure_reported (w : World) (cfg : Config)
    (out : InvokeModelOutput) (err : error) :
  LoadDefaultConfig w region = OK cfg ->
  InvokeModel w (NewFromConfig cfg) (invokeInput requestBody) = OK out ->
  Unmarshal (OutputBody out) (zero (A := ClaudeResponse)) = Err err ->
  exec (main w) = fatalOutcome (stamp w) (decodeFailed ++ Error err).
Proof.
  intros Hc Hi Hu. rewrite (main_invokes w Hc), Hi.
  now apply afterInvoke_decode_failure.
Qed.

(** A body cut off inside the literal [null]. *)
Definition cutBody : string :=
  dq "{'content':[{'type':'text','text':'Bangkok'}],'stop_sequence':nul".

Lemma decode_failure_reported_witness :
  exec (main (answering "<html>"))
  = fatalOutcome "2024/06/21 10:00:00"
      (decodeFailed ++ "invalid character '<' looking for beginning of value") /\
  exec (main (answering cutBody))
  = fatalOutcome "2024/06/21 10:00:00"
      (decodeFailed ++ "invalid character ' ' in literal null (expecting 'l')").
Proof.
  split.
  - apply (@decode_failure_reported (answering "<html>") {| Region := region |}
             {| OutputBody := "<html>" |}
             (SyntaxError "invalid character '<' looking for beginning of value"));
      vm_compute; reflexivity.
  - apply (@decode_failure_reported (answering cutBody) {| Region := region |}
             {| OutputBody := cutBody |}
             (SyntaxError "invalid character ' ' in literal null (expecting 'l')"));
      vm_compute; reflexivity.
Defined.

(** X6. When the remote call fails, [main] prints the diagnostic of
    [handleInvokeError] for the hard-coded model identifier and exits with
    1: the region diagnostic for "no such host", else the model diagnostic
    for "Could not resolve the foundation model", else the generic one. *)
Theorem invoke_failure_classified (w : World) (cfg : Config) (err : error) :
  LoadDefaultConfig w region = OK cfg ->
  InvokeModel w (NewFromConfig cfg) (invokeInput requestBody) = Err err ->
  (occursIn "no such host" (Error err) ->
   exec (main w) = printed regionUnavailableLine 1) /\
  (~ occursIn "no such host" (Error err) ->
   occursIn "Could not resolve the foundation model" (Error err) ->
   exec (main w)
   = printed (modelUnresolvedLine "anthropic.claude-3-5-sonnet-20240620-v1:0") 1) /\
  (~ occursIn "no such host" (Error err) ->
   ~ occursIn "Could not resolve the foundation model" (Error err) ->
   exec (main w) = printed (invokeFailedLine err) 1).
Proof.
  intros Hc Hi. rewrite (main_invokes w Hc), Hi, afterInvoke_failure.
  unfold diagnostic. split; [|split].
  - intros H. apply Contains_spec in H. now rewrite H.
  - intros H1 H2. rewrite (Contains_false H1).
    apply Contains_spec in H2. now rewrite H2.
  - intros H1 H2. now rewrite (Contains_false H1), (Contains_false H2).
Qed.

Lemma invoke_failure_classified_witness :
  exec (main (failing "ResourceNotFoundException: Could not resolve the foundation model from the provided model identifier."))
  = printed (modelUnresolvedLine "anthropic.claude-3-5-sonnet-20240620-v1:0") 1.
Proof.
  apply (proj1 (proj2 (@invoke_failure_classified
           (failing "ResourceNotFoundException: Could not resolve the foundation model from the provided model identifier.")
           {| Region := region |}
           (errorString "ResourceNotFoundException: Could not resolve the foundation model from the provided model identifier.")
           eq_refl eq_refl))).
  - intros H. apply Contains_spec in H. vm_compute in H. discriminate.
  - exists "ResourceNotFoundException: ", " from the provided model identifier.".
    reflexivity.
Defined.

(** X7. The run depends on the remote service only through its answer to
    one call: the client of the loaded configuration, the hard-coded model
    identifier, the content type "application/json" and the encoded request
    as body.  Two worlds that agree there (and on configuration and clock)
    give the same run. *)
Theorem remote_called_with_request (w w' : World) (cfg : Config) :
  LoadDefaultConfig w region = OK cfg ->
  LoadDefaultConfig w' region = OK cfg ->
  stamp w = stamp w' ->
  InvokeModel w (NewFromConfig cfg)
    {| ModelId := "anthropic.claude-3-5-sonnet-20240620-v1:0";
       ContentType := "application/json";
       Body := requestBody |}
  = InvokeModel w' (NewFromConfig cfg)
      {| ModelId := "anthropic.claude-3-5-sonnet-20240620-v1:0";
         ContentType := "application/json";
         Body := requestBody |} ->
  exec (main w) = exec (main w').
Proof.
  intros Hc Hc' Hs Hi.
  rewrite (main_invokes w Hc), (main_invokes w' Hc').
  change (invokeInput requestBody)
    with {| ModelId := "anthropic.claude-3-5-sonnet-20240620-v1:0";
            ContentType := "application/json";
            Body := requestBody |}.
  rewrite <- Hi. unfold afterInvoke. now rewrite Hs.
Qed.

(** A remote service that answers the one expected call and refuses every
    other. *)
Definition strict (body : string) : World :=
  {| LoadDefaultConfig := okConfig;
     InvokeModel := fun _ input =>
       if String.eqb (ModelId input) modelID
          && String.eqb (ContentType input) "application/json"
          && String.eqb (Body input) requestBody
       then OK {| OutputBody := body |}
       else Err (errorString "unexpected call");
     stamp := "2024/06/21 10:00:00" |}.

Lemma remote_called_with_request_witness :
  exec (main (strict bangkokBody)) = exec (main (answering bangkokBody)).
Proof.
  apply (@remote_called_with_request (strict bangkokBody) (answering bangkokBody)
           {| Region := region |}); reflexivity.
Defined.

(* ================================================================= *)
(** * Further properties of the response *)

(** ** Responses survive [Marshal] and [Unmarshal] *)

Ltac eqb_consts :=
  repeat match goal with
         | |- context [String.eqb ?a ?b] =>
             let v := eval vm_compute in (String.eqb a b) in
             change (String.eqb a b) with v
         end;
  cbv iota.

Definition usageFields : list string := ["input_tokens"; "output_tokens"].

Lemma findField_usage :
  findField usageFields "input_tokens" = Some "input_tokens" /\
  findField usageFields "output_tokens" = Some "output_tokens".
Proof. repeat split. Qed.

#[export, refine] Instance LawfulUsage : Lawful ClaudeUsage := {
  wellTyped u := wellTyped (InputTokens u) && wellTyped (OutputTokens u);
  nesting := 1
}.
Proof.
  - reflexivity.
  - reflexivity.
  - intros [i o] W. cbn [InputTokens OutputTokens] in W.
    apply andb_true_iff in W as [W1 W2].
    cbn [wellTyped LawfulInt] in W1, W2.
    cbn [valueOf GoClaudeUsage GoInt faithful forallb fst snd
         InputTokens OutputTokens].
    rewrite W1, W2. reflexivity.
  - intros [i o] W ctx cur. cbn [InputTokens OutputTokens] in W.
    apply andb_true_iff in W as [W1 W2].
    destruct findField_usage as (F1 & F2).
    cbn [valueOf GoClaudeUsage jsonOf map fst snd InputTokens OutputTokens].
    cbn [decode GoClaudeUsage decodeStruct decodeMembers].
    fold usageFields. rewrite F1, F2. eqb_consts.
    rewrite (lawful_decode (A := Z)) by exact W1.
    cbn [rbind InputTokens OutputTokens].
    rewrite (lawful_decode (A := Z)) by exact W2.
    reflexivity.
Defined.

Definition responseFields : list string :=
  ["id"; "type"; "role"; "content"; "stop_reason"; "stop_sequence"; "usage"].

Lemma findField_response :
  findField responseFields "id" = Some "id" /\
  findField responseFields "type" = Some "type" /\
  findField responseFields "role" = Some "role" /\
  findField responseFields "content" = Some "content" /\
  findField responseFields "stop_reason" = Some "stop_reason" /\
  findField responseFields "stop_sequence" = Some "stop_sequence" /\
  findField responseFields "usage" = Some "usage".
Proof. repeat split. Qed.

#[export, refine] Instance LawfulResponse : Lawful ClaudeResponse := {
  wellTyped r :=
    wellTyped (ID r) && wellTyped (ResponseType r) &&
    wellTyped (ResponseRole r) && wellTyped (ResponseContent r) &&
    wellTyped (StopReason r) && wellTyped (StopSequence r) &&
    wellTyped (Usage r);
  nesting := 3
}.
Proof.
  - intros [i t ro c sr ss u].
    cbn [valueOf GoClaudeResponse supported forallb snd ID ResponseType
         ResponseRole ResponseContent StopReason StopSequence Usage].
    rewrite (lawful_supported (A := slice ClaudeTextContent)). reflexivity.
  - intros [i t ro c sr ss u].
    assert (F : fits (valueOf c) 2 = true) by exact (lawful_fits c).
    cbn [valueOf GoClaudeResponse fits forallb snd ID ResponseType
         ResponseRole ResponseContent StopReason StopSequence Usage].
    rewrite F. reflexivity.
  - intros [i t ro c sr ss u] W.
    cbn [ID ResponseType ResponseRole ResponseContent StopReason
         StopSequence Usage] in W.
    rewrite !andb_true_iff in W.
    destruct W as [[[[[[W1 W2] W3] W4] W5] W6] W7].
    cbn [wellTyped LawfulString] in W1, W2, W3, W5, W6.
    cbn [valueOf GoClaudeResponse faithful forallb fst snd ID ResponseType
         ResponseRole ResponseContent StopReason StopSequence Usage].
    rewrite (lawful_faithful (A := slice ClaudeTextContent) c W4).
    rewrite (lawful_faithful (A := ClaudeUsage) u W7).
    cbn [valueOf GoString faithful]. rewrite W1, W2, W3, W5, W6. reflexivity.
  - intros [i t ro c sr ss u] W ctx cur.
    cbn [ID ResponseType ResponseRole ResponseContent StopReason
         StopSequence Usage] in W.
    rewrite !andb_true_iff in W.
    destruct W as [[[[[[W1 W2] W3] W4] W5] W6] W7].
    destruct findField_response as (F1 & F2 & F3 & F4 & F5 & F6 & F7).
    destruct cur as [i0 t0 ro0 c0 sr0 ss0 u0].
    cbn [valueOf GoClaudeResponse jsonOf map fst snd ID ResponseType
         ResponseRole ResponseContent StopReason StopSequence Usage].
    cbn [decode GoClaudeResponse decodeStruct decodeMembers].
    fold responseFields. rewrite F1, F2, F3, F4, F5, F6, F7.
    unfold setResponseField at 1. eqb_consts.
    rewrite (lawful_decode (A := string)) by exact W1. cbn [rbind].
    unfold setResponseField at 1. eqb_consts.
    rewrite (lawful_decode (A := string)) by exact W2. cbn [rbind].
    unfold setResponseField at 1. eqb_consts.
    rewrite (lawful_decode (A := string)) by exact W3. cbn [rbind].
    unfold setResponseField at 1. eqb_consts.
    rewrite (lawful_decode (A := slice ClaudeTextContent)) by exact W4.
    cbn [rbind].
    unfold setResponseField at 1. eqb_consts.
    rewrite (lawful_decode (A := string)) by exact W5. cbn [rbind].
    unfold setResponseField at 1. eqb_consts.
    rewrite (lawful_decode (A := string)) by exact W6. cbn [rbind].
    unfold setResponseField at 1. eqb_consts.
    rewrite (lawful_decode (A := ClaudeUsage)) by exact W7.
    reflexivity.
Defined.

(** The strings of a response are valid UTF-8 and its token counts are
    64-bit integers. *)
Definition validResponse (r : ClaudeResponse) : bool :=
  utf8.ValidString (ID r) && utf8.ValidString (ResponseType r) &&
  utf8.ValidString (ResponseRole r) &&
  match ResponseContent r with
  | None => true
  | Some cs => forallb validText cs
  end &&
  utf8.ValidString (StopReason r) && utf8.ValidString (StopSequence r) &&
  (int64 (InputTokens (Usage r)) && int64 (OutputTokens (Usage r))).

Lemma wellTyped_response (r : ClaudeResponse) :
  validResponse r = true -> wellTyped r = true.
Proof. intros V. exact V. Qed.

Lemma nesting_response : (nesting (A := ClaudeResponse) <= maxNestingDepth)%nat.
Proof. apply Nat.leb_le. vm_compute. reflexivity. Qed.

(** X8. A response whose strings are valid UTF-8 is what [Unmarshal] reads
    from the bytes that [Marshal] writes for it, whatever the variable held
    before: the seven fields of [ClaudeResponse], the content blocks and the
    token counts come back as they were. *)
Theorem response_roundtrip (r : ClaudeResponse) :
  validResponse r = true ->
  exists body,
    Marshal r = OK body /\ forall cur, Unmarshal body cur = OK r.
Proof.
  intros V.
  exact (Marshal_Unmarshal r (wellTyped_response r V) nesting_response).
Qed.

(** A response whose text has a quote, a backslash, a newline, markup and
    text outside ASCII. *)
Definition trickyText : string :=
  dq "バンコク 'Bangkok' <b>&" ++ String backslash "n" ++ nl ++ "!".

Definition trickyResponse : ClaudeResponse :=
  {| ID := "msg_01"; ResponseType := "message"; ResponseRole := "assistant";
     ResponseContent := Some [ {| Type_ := "text"; Text := trickyText |};
                               {| Type_ := "text"; Text := "second" |} ];
     StopReason := "end_turn"; StopSequence := EmptyString;
     Usage := {| InputTokens := 25; OutputTokens := 4 |} |}.

Definition trickyBody : string :=
  match Marshal trickyResponse with
  | OK body => body
  | Err _ => EmptyString
  end.

Lemma Marshal_tricky : Marshal trickyResponse = OK trickyBody.
Proof. vm_compute. reflexivity. Qed.

Lemma response_roundtrip_witness :
  exists body,
    Marshal trickyResponse = OK body /\
    forall cur, Unmarshal body cur = OK trickyResponse.
Proof.
  apply (response_roundtrip trickyResponse). vm_compute. reflexivity.
Defined.

(** X9. When the remote service answers with the bytes that [Marshal] gives
    for a response of valid UTF-8 strings with a content block, the program
    prints the text of the first block byte for byte, whatever the text
    holds (quotes, backslashes, newlines, markup, text outside ASCII), and
    exits with 0. *)
Theorem main_prints_encoded_text (w : World) (cfg : Config)
    (resp : ClaudeResponse) (body : string)
    (c : ClaudeTextContent) (rest : list ClaudeTextContent) :
  LoadDefaultConfig w region = OK cfg ->
  validResponse resp = true ->
  Marshal resp = OK body ->
  InvokeModel w (NewFromConfig cfg) (invokeInput requestBody)
  = OK {| OutputBody := body |} ->
  ResponseContent resp = Some (c :: rest) ->
  exec (main w) = printed (Text c ++ nl) 0.
Proof.
  intros Hc V M Hi Hr.
  destruct (Marshal_Unmarshal resp (wellTyped_response resp V) nesting_response)
    as (body' & M' & U).
  rewrite M in M'. injection M' as <-.
  rewrite (main_invokes w Hc), Hi.
  exact (afterInvoke_success w {| OutputBody := body |} (U zero) Hr).
Qed.

Lemma main_prints_encoded_text_witness :
  exec (main (answering trickyBody)) = printed (trickyText ++ nl) 0.
Proof.
  apply (@main_prints_encoded_text (answering trickyBody) {| Region := region |}
           trickyResponse trickyBody
           {| Type_ := "text"; Text := trickyText |}
           [{| Type_ := "text"; Text := "second" |}]);
    vm_compute; reflexivity.
Defined.

(** ** Members of the response object *)

Lemma decode_response_object (ctx : errorContext)
    (ms : list (string * jvalue)) (cur : ClaudeResponse) :
  decode ctx (JObject ms) cur
  = decodeMembers "ClaudeResponse" responseFields setResponseField ctx ms cur.
Proof. reflexivity. Qed.

Section Members.

Variable A : Type.
Variables (name : string) (names : list string).
Variable set : string -> errorContext -> jvalue -> A -> result A.

Lemma decodeMembers_app (ctx : errorContext) (ms1 ms2 : list (string * jvalue))
    (cur : A) :
  decodeMembers name names set ctx (ms1 ++ ms2) cur
  = (cur' <- decodeMembers name names set ctx ms1 cur ;;
     decodeMembers name names set ctx ms2 cur').
Proof.
  revert cur; induction ms1 as [|[k v] ms1 IH]; intros cur; [reflexivity|].
  cbn [app decodeMembers]. destruct (findField names k) as [f|]; [|apply IH].
  destruct (set f _ v cur) as [cur'|e]; cbn [rbind]; [apply IH | reflexivity].
Qed.

Lemma decodeMembers_unknown (ctx : errorContext) (k : string) (v : jvalue)
    (ms : list (string * jvalue)) (cur : A) :
  findField names k = None ->
  decodeMembers name names set ctx ((k, v) :: ms) cur
  = decodeMembers name names set ctx ms cur.
Proof. intros H. cbn [decodeMembers]. now rewrite H. Qed.

(** The members whose key selects a field. *)
Definition selects (kv : string * jvalue) : bool :=
  match findField names (fst kv) with
  | Some _ => true
  | None => false
  end.

Lemma decodeMembers_filter (ctx : errorContext) (ms : list (string * jvalue)) :
  forall cur : A,
    decodeMembers name names set ctx (filter selects ms) cur
    = decodeMembers name names set ctx ms cur.
Proof.
  induction ms as [|[k v] ms IH]; intros cur; [reflexivity|].
  cbn [filter]. unfold selects at 1. cbn [fst].
  destruct (findField names k) as [f|] eqn:E.
  - cbn [decodeMembers]. rewrite E.
    destruct (set f _ v cur) as [cur'|e]; cbn [rbind]; [apply IH | reflexivity].
  - rewrite IH. cbn [decodeMembers]. now rewrite E.
Qed.

End Members.

Lemma setResponseField_keeps_content (f : string) (ctx : errorContext)
    (j : jvalue) (r r' : ClaudeResponse) :
  f <> "content" ->
  setResponseField f ctx j r = OK r' ->
  ResponseContent r' = ResponseContent r.
Proof.
  intros Hf. destruct r as [i t ro c sr ss u]. unfold setResponseField.
  repeat match goal with
         | |- context [if String.eqb f ?n then _ else _] =>
             destruct (String.eqb_spec f n)
         end; try contradiction;
    match goal with
    | |- context [decode ctx j ?x] => destruct (decode ctx j x)
    end; cbn [rbind]; intros E; inversion E; reflexivity.
Qed.

Lemma decodeMembers_keeps_content (ctx : errorContext)
    (ms : list (string * jvalue)) :
  (forall k v, In (k, v) ms -> findField responseFields k <> Some "content") ->
  forall cur r,
    decodeMembers "ClaudeResponse" responseFields setResponseField ctx ms cur
    = OK r ->
    ResponseContent r = ResponseContent cur.
Proof.
  induction ms as [|[k v] ms IH]; intros H cur r E.
  - cbn [decodeMembers] in E. now inversion E.
  - cbn [decodeMembers] in E.
    assert (Hk : findField responseFields k <> Some "content")
      by (apply (H k v); now left).
    assert (H' : forall k v, In (k, v) ms ->
                 findField responseFields k <> Some "content")
      by (intros k' v' I; apply (H k' v'); now right).
    destruct (findField responseFields k) as [f|].
    + destruct (setResponseField f _ v cur) as [cur'|e] eqn:S;
        cbn [rbind] in E; [|discriminate E].
      rewrite (IH H' cur' r E).
      eapply setResponseField_keeps_content; [|exact S]. congruence.
    + exact (IH H' cur r E).
Qed.

Lemma Unmarshal_object (body : string) (ms : list (string * jvalue)) :
  parse body = OK (JObject ms) ->
  Unmarshal body (zero (A := ClaudeResponse))
  = decodeMembers "ClaudeResponse" responseFields setResponseField
      {| ctxStruct := EmptyString; FieldStack := [] |} ms zero.
Proof. intros Hp. unfold Unmarshal. rewrite Hp. reflexivity. Qed.

Lemma afterInvoke_same (w w' : World) (out out' : InvokeModelOutput) :
  stamp w = stamp w' ->
  Unmarshal (OutputBody out) (zero (A := ClaudeResponse))
  = Unmarshal (OutputBody out') (zero (A := ClaudeResponse)) ->
  afterInvoke w (OK out) = afterInvoke w' (OK out').
Proof. intros Hs Hu. unfold afterInvoke. now rewrite Hs, Hu. Qed.

(** X10. The response depends on the body only through the members whose
    key selects one of the seven fields of [ClaudeResponse]: when two
    bodies are JSON objects that the scanner accepts, and the second has
    the members of the first without those whose key selects no field,
    [Unmarshal] gives the same response or the same error for both, and
    [main] the same run. *)
Theorem unknown_member_ignored (w w' : World) (cfg : Config)
    (out out' : InvokeModelOutput) (ms : list (string * jvalue)) :
  LoadDefaultConfig w region = OK cfg ->
  LoadDefaultConfig w' region = OK cfg ->
  stamp w = stamp w' ->
  InvokeModel w (NewFromConfig cfg) (invokeInput requestBody) = OK out ->
  InvokeModel w' (NewFromConfig cfg) (invokeInput requestBody) = OK out' ->
  parse (OutputBody out) = OK (JObject ms) ->
  parse (OutputBody out') = OK (JObject (filter (selects responseFields) ms)) ->
  Unmarshal (OutputBody out) (zero (A := ClaudeResponse))
  = Unmarshal (OutputBody out') (zero (A := ClaudeResponse)) /\
  exec (main w) = exec (main w').
Proof.
  intros Hc Hc' Hs Hi Hi' Hp Hp'.
  assert (U : Unmarshal (OutputBody out) (zero (A := ClaudeResponse))
              = Unmarshal (OutputBody out') (zero (A := ClaudeResponse))).
  { rewrite (Unmarshal_object _ Hp), (Unmarshal_object _ Hp').
    symmetry. apply decodeMembers_filter. }
  split; [exact U|].
  rewrite (main_invokes w Hc), (main_invokes w' Hc'), Hi, Hi'.
  now rewrite (afterInvoke_same w w' out out' Hs U).
Qed.

(** A body with members that select no field, among them one that holds
    a content of its own, and the body without them. *)
Definition annotatedBody : string :=
  dq "{'id':'msg_01','model':['claude',3.5,true],'Content':[{'type':'text','text':'Bangkok'}],'metadata':{'content':'Chiang Mai'}}".

Definition plainBody : string :=
  dq "{'id':'msg_01','Content':[{'type':'text','text':'Bangkok'}]}".

Definition annotatedMembers : list (string * jvalue) :=
  match parse annotatedBody with
  | OK (JObject ms) => ms
  | _ => []
  end.

Lemma unknown_member_ignored_witness :
  Unmarshal annotatedBody (zero (A := ClaudeResponse))
  = Unmarshal plainBody (zero (A := ClaudeResponse)) /\
  exec (main (answering annotatedBody)) = exec (main (answering plainBody)).
Proof.
  apply (@unknown_member_ignored (answering annotatedBody) (answering plainBody)
           {| Region := region |} {| OutputBody := annotatedBody |}
           {| OutputBody := plainBody |} annotatedMembers);
    vm_compute; reflexivity.
Defined.


(** X11. When the body of the response is a JSON object without a member
    that selects the field [content], nothing is printed and the exit
    status is not 0; if the object is decoded, the read of the first block
    is the run-time panic. *)
Theorem no_content_member (w : World) (cfg : Config)
    (out : InvokeModelOutput) (ms : list (string * jvalue)) :
  LoadDefaultConfig w region = OK cfg ->
  InvokeModel w (NewFromConfig cfg) (invokeInput requestBody) = OK out ->
  parse (OutputBody out) = OK (JObject ms) ->
  (forall k v, In (k, v) ms -> findField responseFields k <> Some "content") ->
  stdout (console (exec (main w))) = [] /\
  status (exec (main w)) <> 0 /\
  (forall resp,
     Unmarshal (OutputBody out) (zero (A := ClaudeResponse)) = OK resp ->
     exec (main w) = panicOutcome).
Proof.
  intros Hc Hi Hp Hm. rewrite (main_invokes w Hc), Hi.
  pose proof (Unmarshal_object _ Hp) as U.
  destruct (Unmarshal (OutputBody out) (zero (A := ClaudeResponse)))
    as [resp|err] eqn:E.
  - symmetry in U.
    pose proof (@decodeMembers_keeps_content _ ms Hm _ _ U) as N.
    rewrite (afterInvoke_empty w out E (or_introl N)).
    split; [reflexivity | split; [discriminate | intros; reflexivity]].
  - rewrite (afterInvoke_decode_failure w out E).
    split; [reflexivity | split; [discriminate | intros resp E'; discriminate E']].
Qed.

Lemma no_content_member_witness :
  stdout (console (exec (main (answering (dq "{'id':'msg_03','Type':'message','stop_reason':'end_turn'}"))))) = [] /\
  status (exec (main (answering (dq "{'id':'msg_03','Type':'message','stop_reason':'end_turn'}")))) <> 0 /\
  (forall resp,
     Unmarshal (dq "{'id':'msg_03','Type':'message','stop_reason':'end_turn'}")
       (zero (A := ClaudeResponse)) = OK resp ->
     exec (main (answering (dq "{'id':'msg_03','Type':'message','stop_reason':'end_turn'}")))
     = panicOutcome).
Proof.
  apply (@no_content_member
           (answering (dq "{'id':'msg_03','Type':'message','stop_reason':'end_turn'}"))
           {| Region := region |}
           {| OutputBody := dq "{'id':'msg_03','Type':'message','stop_reason':'end_turn'}" |}
           [("id", JString "msg_03"); ("Type", JString "message");
            ("stop_reason", JString "end_turn")]).
  - reflexivity.
  - reflexivity.
  - vm_compute. reflexivity.
  - intros k v [E | [E | [E | []]]]; inversion E; vm_compute; discriminate.
Defined.

(** A JSON value that is neither an array nor [null]. *)
Definition notList (v : jvalue) : bool :=
  match v with
  | JArray _ | JNull => false
  | _ => true
  end.

Lemma setResponseField_content_rejects (ctx : errorContext) (v : jvalue)
    (cur : ClaudeResponse) :
  notList v = true -> exists e, setResponseField "content" ctx v cur = Err e.
Proof.
  intros H. destruct cur as [i t ro c sr ss u]. unfold setResponseField.
  eqb_consts. destruct v; try discriminate H; eexists; reflexivity.
Qed.

Lemma decodeMembers_rejects_content (k : string) (v : jvalue)
    (ms : list (string * jvalue)) :
  In (k, v) ms ->
  findField responseFields k = Some "content" ->
  notList v = true ->
  forall ctx cur,
    exists e,
      decodeMembers "ClaudeResponse" responseFields setResponseField ctx ms cur
      = Err e.
Proof.
  intros I F N ctx. induction ms as [|[k' v'] ms IH]; intros cur; [contradiction|].
  cbn [decodeMembers]. destruct I as [E | I].
  - injection E as -> ->. rewrite F.
    destruct (setResponseField_content_rejects
                {| ctxStruct := "ClaudeResponse";
                   FieldStack := FieldStack ctx ++ ["content"] |} v cur N)
      as [e He].
    rewrite He. now exists e.
  - destruct (findField responseFields k') as [f|]; [|now apply IH].
    destruct (setResponseField f _ v' cur) as [cur'|e]; cbn [rbind];
      [now apply IH | now exists e].
Qed.

(** X12. When the body of the response is a JSON object with a member that
    selects the field [content] and whose value is a string, a number, a
    boolean or an object, the body is rejected: nothing is printed, the
    decoding error is reported on standard error and the exit status is
    1. *)
Theorem content_not_array_rejected (w : World) (cfg : Config)
    (out : InvokeModelOutput) (ms : list (string * jvalue))
    (k : string) (v : jvalue) :
  LoadDefaultConfig w region = OK cfg ->
  InvokeModel w (NewFromConfig cfg) (invokeInput requestBody) = OK out ->
  parse (OutputBody out) = OK (JObject ms) ->
  In (k, v) ms ->
  findField responseFields k = Some "content" ->
  notList v = true ->
  exists err,
    exec (main w) = fatalOutcome (stamp w) (decodeFailed ++ Error err).
Proof.
  intros Hc Hi Hp I F N.
  destruct (@decodeMembers_rejects_content k v ms I F N
              {| ctxStruct := EmptyString; FieldStack := [] |} zero) as [e He].
  exists e. rewrite (main_invokes w Hc), Hi.
  apply afterInvoke_decode_failure.
  now rewrite (Unmarshal_object _ Hp).
Qed.

Lemma content_not_array_rejected_witness :
  exists err,
    exec (main (answering (dq "{'id':'msg_04','CONTENT':'Bangkok'}")))
    = fatalOutcome "2024/06/21 10:00:00" (decodeFailed ++ Error err).
Proof.
  apply (@content_not_array_rejected
           (answering (dq "{'id':'msg_04','CONTENT':'Bangkok'}"))
           {| Region := region |}
           {| OutputBody := dq "{'id':'msg_04','CONTENT':'Bangkok'}" |}
           [("id", JString "msg_04"); ("CONTENT", JString "Bangkok")]
           "CONTENT" (JString "Bangkok")).
  - reflexivity.
  - reflexivity.
  - vm_compute. reflexivity.
  - right. left. reflexivity.
  - vm_compute. reflexivity.
  - reflexivity.
Defined.

(** A JSON value that is neither an object nor [null]. *)
Definition notStruct (j : jvalue) : bool :=
  match j with
  | JObject _ | JNull => false
  | _ => true
  end.

(** X13. When the body of the response is a JSON text that is no object:
    for [null] the response stays empty and the read of the first block is
    the run-time panic; for a string, a number, a boolean or an array the
    body is rejected with the type error of the decoder, reported on
    standard error, and the exit status is 1. *)
Theorem body_not_object (w : World) (cfg : Config) (out : InvokeModelOutput)
    (j : jvalue) :
  LoadDefaultConfig w region = OK cfg ->
  InvokeModel w (NewFromConfig cfg) (invokeInput requestBody) = OK out ->
  parse (OutputBody out) = OK j ->
  (j = JNull -> exec (main w) = panicOutcome) /\
  (notStruct j = true ->
   exec (main w)
   = fatalOutcome (stamp w)
       (decodeFailed ++ "json: cannot unmarshal " ++ describe j
        ++ " into Go value of type main.ClaudeResponse")).
Proof.
  intros Hc Hi Hp. rewrite (main_invokes w Hc), Hi.
  assert (U : Unmarshal (OutputBody out) (zero (A := ClaudeResponse))
              = decode {| ctxStruct := EmptyString; FieldStack := [] |} j zero)
    by (unfold Unmarshal; rewrite Hp; reflexivity).
  split.
  - intros ->. apply (@afterInvoke_empty w out zero); [exact U | now left].
  - intros N.
    assert (E : Unmarshal (OutputBody out) (zero (A := ClaudeResponse))
                = Err (UnmarshalTypeError (describe j) "main.ClaudeResponse"
                         EmptyString EmptyString))
      by (rewrite U; destruct j; try discriminate N; reflexivity).
    rewrite (afterInvoke_decode_failure w out E). reflexivity.
Qed.

Lemma body_not_object_witness :
  exec (main (answering "null")) = panicOutcome /\
  exec (main (answering (dq "['Bangkok']")))
  = fatalOutcome "2024/06/21 10:00:00"
      (decodeFailed ++ "json: cannot unmarshal array into Go value of type main.ClaudeResponse").
Proof.
  split.
  - apply (proj1 (@body_not_object (answering "null") {| Region := region |}
                    {| OutputBody := "null" |} JNull eq_refl eq_refl eq_refl)).
    reflexivity.
  - apply (proj2 (@body_not_object (answering (dq "['Bangkok']"))
                    {| Region := region |}
                    {| OutputBody := dq "['Bangkok']" |}
                    (JArray [JString "Bangkok"]) eq_refl eq_refl eq_refl)).
    reflexivity.
Defined.

(** ** The handler and the request *)

(** X14. Whatever the error and the model identifier, [handleInvokeError]
    writes one line on standard output, leaves standard error as it is and
    returns: it never ends the process itself. *)
Theorem handleInvokeError_returns (err : error) (m : string) (k : Console) :
  exists text,
    handleInvokeError err m k
    = ({| stdout := stdout k ++ [text ++ nl]; stderr := stderr k |}, inl tt).
Proof.
  rewrite (handleInvokeError_diagnostic err m k). unfold diagnostic.
  destruct (strings.Contains (Error err) "no such host");
    [|destruct (strings.Contains (Error err) "Could not resolve the foundation model")].
  - eexists. reflexivity.
  - unfold modelUnresolvedLine. rewrite <- !append_assoc. eexists. reflexivity.
  - unfold invokeFailedLine. rewrite <- append_assoc. eexists. reflexivity.
Qed.

(** X15. Two different requests of valid UTF-8 strings are encoded by
    [Marshal] to different bytes: the encoding of the request loses
    nothing. *)
Theorem request_encoding_injective (r1 r2 : ClaudeRequest) :
  validUTF8 r1 = true -> int64 (MaxTokens r1) = true ->
  validUTF8 r2 = true -> int64 (MaxTokens r2) = true ->
  r1 <> r2 ->
  Marshal r1 <> Marshal r2.
Proof.
  intros V1 I1 V2 I2 D E. apply D.
  assert (N : (nesting (A := ClaudeRequest) <= maxNestingDepth)%nat)
    by (apply Nat.leb_le; vm_compute; reflexivity).
  destruct (Marshal_Unmarshal r1 (wellTyped_request r1 V1 I1) N) as (b1 & M1 & U1).
  destruct (Marshal_Unmarshal r2 (wellTyped_request r2 V2 I2) N) as (b2 & M2 & U2).
  rewrite M1, M2 in E. injection E as ->.
  specialize (U1 zero). specialize (U2 zero). congruence.
Qed.

Lemma request_encoding_injective_witness :
  Marshal request
  <> Marshal (buildRequest "Act as a kindergartner."
                "What is the capital of Thailand?" 1024).
Proof.
  apply request_encoding_injective; try (vm_compute; reflexivity).
  intros E. apply (f_equal System) in E. vm_compute in E. discriminate E.
Defined.

(* ================================================================= *)
(** * Further properties of the request *)

(** The JSON value of the request of [main] for a system instruction, a
    prompt and the literal of a token cap. *)
Definition requestTree (sys p lit : string) : jvalue :=
  JObject
    [("anthropic_version", JString "bedrock-2023-05-31");
     ("max_tokens", JNumber lit);
     ("system", JString sys);
     ("messages",
      JArray
        [JObject
           [("role", JString "user");
            ("content",
             JArray [JObject [("type", JString "text"); ("text", JString p)]])]])].

(** X16. The bytes that [Marshal] gives for the request built from a
    system instruction and a prompt of valid UTF-8 and a 64-bit token cap
    are well-formed JSON: the scanner and the literal decoder read from
    them one object with the members [anthropic_version], [max_tokens],
    [system] and [messages] in this order, the version
    "bedrock-2023-05-31", a number literal that [strconv.ParseInt] reads
    as the token cap, the system instruction as a string, and one message
    of role "user" with one content block of type "text" whose text is
    the prompt, whatever quotes, backslashes, control bytes or markup the
    two texts hold. *)
Theorem request_wire_format (sys p : string) (mt : Z) :
  utf8.ValidString sys = true ->
  utf8.ValidString p = true ->
  int64 mt = true ->
  exists body lit,
    Marshal (buildRequest sys p mt) = OK body /\
    parse body = OK (requestTree sys p lit) /\
    strconv.ParseInt lit = Some mt.
Proof.
  intros Vs Vp I.
  destruct (@parse_encode (valueOf (buildRequest sys p mt))) as (t & E & P).
  - apply (lawful_faithful (A := ClaudeRequest)).
    apply wellTyped_request; [|exact I].
    unfold validUTF8, buildRequest, validMessage, validText.
    cbn [AnthropicVersion System Messages Role Content Type_ Text forallb].
    rewrite Vs, Vp. reflexivity.
  - apply fits_mono with (d := nesting (A := ClaudeRequest));
      [apply Nat.leb_le; vm_compute; reflexivity | apply lawful_fits].
  - exists t, (strconv.FormatInt mt). split; [exact E|].
    split; [exact P | now apply ParseInt_FormatInt].
Qed.

(** A system instruction and a prompt with quotes, a backslash, a
    newline, markup and text outside ASCII. *)
Definition quotedPrompt : string :=
  dq "'タイ' <b>&" ++ String backslash "u0041" ++ nl ++ "?".

Lemma request_wire_format_witness :
  exists body lit,
    Marshal (buildRequest (dq "say 'hi'") quotedPrompt (-7)) = OK body /\
    parse body = OK (requestTree (dq "say 'hi'") quotedPrompt lit) /\
    strconv.ParseInt lit = Some (-7).
Proof. apply request_wire_format; vm_compute; reflexivity. Defined.

(** ** What the encoder makes of bytes that are no UTF-8 *)

(** The string with every byte that starts no valid encoding replaced by
    the three bytes of U+FFFD. *)
Fixpoint coerceFrom (fuel : nat) (s : string) : string :=
  match s with
  | EmptyString => EmptyString
  | String _ _ =>
      match fuel with
      | O => EmptyString
      | S fuel' =>
          let '(r, size) := utf8.DecodeRune s in
          if (r =? utf8.RuneError) && (size =? 1)%nat then
            utf8.EncodeRune utf8.RuneError ++ coerceFrom fuel' (drop 1 s)
          else take size s ++ coerceFrom fuel' (drop size s)
      end
  end.

Definition coerce (s : string) : string := coerceFrom (String.length s) s.

Lemma coerceFrom_ascii (n : nat) (c : ascii) (s : string) :
  byteZ c < 128 ->
  coerceFrom (S n) (String c s) = String c (coerceFrom n s).
Proof.
  intros H. cbn [coerceFrom]. rewrite DecodeRune_ascii by exact H.
  replace (byteZ c =? utf8.RuneError) with false
    by (symmetry; apply Z.eqb_neq; unfold utf8.RuneError; lia).
  reflexivity.
Qed.

Lemma coerceFrom_invalid (n : nat) (c : ascii) (s : string) :
  utf8.DecodeRune (String c s) = (utf8.RuneError, 1%nat) ->
  coerceFrom (S n) (String c s)
  = utf8.EncodeRune utf8.RuneError ++ coerceFrom n s.
Proof. intros E. cbn [coerceFrom]. rewrite E. reflexivity. Qed.

Lemma coerceFrom_valid (n : nat) (c : ascii) (s : string) (r : Z) (m : nat) :
  utf8.DecodeRune (String c s) = (r, m) ->
  (r =? utf8.RuneError) && (m =? 1)%nat = false ->
  coerceFrom (S n) (String c s)
  = take m (String c s) ++ coerceFrom n (drop m (String c s)).
Proof. intros E B. cbn [coerceFrom]. rewrite E, B. reflexivity. Qed.

(** A string that is valid UTF-8 is left as it is. *)
Lemma coerceFrom_id (n : nat) :
  forall s, (String.length s <= n)%nat -> utf8.validFrom n s = true ->
            coerceFrom n s = s.
Proof.
  induction n as [|n IH]; intros [|c s] Hn Hv; try reflexivity;
    try (cbn [String.length] in Hn; lia).
  cbn [utf8.validFrom] in Hv.
  destruct (runeAt_total c s) as [E | r m E B Acc].
  - rewrite E in Hv. discriminate Hv.
  - rewrite E, B in Hv. rewrite (@coerceFrom_valid n _ _ _ _ E B).
    pose proof (acc_width Acc) as W.
    rewrite IH; [apply take_drop | shorter | exact Hv].
Qed.

Lemma unquoteStep_replacement (k : string -> option string) (t : string) :
  unquoteStep k (escapeU "f" "f" "f" "d" t)
  = option_map (append (utf8.EncodeRune utf8.RuneError)) (k t).
Proof. vm_compute. reflexivity. Qed.

(** [unquoteFrom] reads the coerced string from what [appendBody] made of
    any bytes. *)
Lemma unquote_appendBody_any (n : nat) :
  forall (s : string) (f : nat),
    (String.length s <= n)%nat ->
    (String.length (appendBody n s) <= f)%nat ->
    unquoteFrom f (appendBody n s) = Some (coerceFrom n s).
Proof.
  induction n as [|n IH]; intros [|c s1] f Hn Hf;
    try (cbn [String.length] in *; lia);
    try (destruct f; reflexivity).
  cbn [appendBody] in *.
  destruct (byteZ c <? utf8.RuneSelf) eqn:A.
  - assert (Hc : byteZ c < 128) by (now apply Z.ltb_lt in A).
    rewrite (@coerceFrom_ascii n c s1 Hc).
    destruct (htmlSafeSet (byteZ c)) eqn:S.
    + destruct f as [|f]; [cbn [String.length] in Hf; lia|].
      cbn [unquoteFrom]. rewrite A.
      unfold htmlSafeSet in S.
      rewrite !andb_true_iff, !negb_true_iff, !orb_false_iff in S.
      destruct S as [[S1 S2] [[[[S3 _] _] _] S4]].
      apply Z.leb_le in S1.
      replace (byteZ c <? 32) with false by (symmetry; apply Z.ltb_ge; lia).
      rewrite S3, S4. cbn [orb].
      rewrite IH; [reflexivity | shorter | shorter].
    + pose proof (length_escapeByte c) as L.
      rewrite length_append in Hf.
      destruct f as [|f]; [lia|].
      rewrite unquoteFrom_S
        by (destruct (escapeByte c); [cbn [String.length] in L; lia | discriminate]).
      rewrite unquoteStep_escapeByte by assumption.
      rewrite IH; [reflexivity | shorter | lia].
  - rewrite DecodeRune_take in *.
    destruct (runeAt_total c s1) as [E | r m E B Acc].
    + rewrite E in *. rewrite (@coerceFrom_invalid n _ _ E).
      change ((utf8.RuneError =? utf8.RuneError) && (1 =? 1)%nat) with true in *.
      cbv iota in *. cbn [drop] in *.
      destruct f as [|f]; [cbn [String.length append] in Hf; lia|].
      cbn [String.length append] in Hf.
      change (unquoteFrom (S f) (escapeU "f" "f" "f" "d" (appendBody n s1))
              = Some (utf8.EncodeRune utf8.RuneError ++ coerceFrom n s1)).
      rewrite unquoteFrom_S by discriminate.
      rewrite unquoteStep_replacement, IH; [reflexivity | shorter | lia].
    + rewrite E, B in *. rewrite (@coerceFrom_valid n _ _ _ _ E B).
      pose proof (acc_width Acc) as W.
      assert (Hd : (String.length (drop m (String c s1)) <= n)%nat) by shorter.
      destruct ((r =? 8232) || (r =? 8233)) eqn:L.
      * destruct f as [|f]; [cbn [String.length append] in Hf; lia|].
        cbn [String.length append] in Hf.
        rewrite <- (acc_encode Acc).
        apply orb_true_iff in L as [L | L]; apply Z.eqb_eq in L; subst r.
        -- change (unquoteFrom (S f) (escapeU "2" "0" "2" "8"
                     (appendBody n (drop m (String c s1))))
                   = Some (utf8.EncodeRune 8232
                           ++ coerceFrom n (drop m (String c s1)))).
           rewrite unquoteFrom_S by discriminate.
           rewrite unquoteStep_line_separator, IH; [reflexivity | exact Hd | lia].
        -- change (unquoteFrom (S f) (escapeU "2" "0" "2" "9"
                     (appendBody n (drop m (String c s1))))
                   = Some (utf8.EncodeRune 8233
                           ++ coerceFrom n (drop m (String c s1)))).
           rewrite unquoteFrom_S by discriminate.
           rewrite unquoteStep_paragraph_separator, IH;
             [reflexivity | exact Hd | lia].
      * rewrite length_append in Hf.
        pose proof (acc_decode Acc (appendBody n (drop m (String c s1)))) as D.
        pose proof (acc_encode Acc) as En.
        destruct m as [|m]; [lia|].
        rewrite take_S in *. cbn [append String.length] in *.
        destruct f as [|f]; [lia|].
        cbn [unquoteFrom]. rewrite A, D.
        apply Z.ltb_ge in A. unfold utf8.RuneSelf in A.
        replace (byteZ c =? 92) with false by (symmetry; apply Z.eqb_neq; lia).
        replace (byteZ c =? 34) with false by (symmetry; apply Z.eqb_neq; lia).
        replace (byteZ c <? 32) with false by (symmetry; apply Z.ltb_ge; lia).
        cbn [orb].
        change (String c (take m s1 ++ ?t)) with (take (S m) (String c s1) ++ t).
        rewrite drop_app_take by exact (proj2 W).
        rewrite IH; [|exact Hd | lia].
        cbn [option_map]. rewrite En. reflexivity.
Qed.

Lemma stringLit_appendString_any (s rest : string) :
  stringLit (appendBody (String.length s) s ++ String quote rest)
  = OK (coerce s, rest).
Proof.
  unfold stringLit.
  rewrite scanString_literal by apply appendBody_literal.
  cbn [rbind]. rewrite unquoteBytes_eq, unquote_appendBody_any;
    [reflexivity | lia | lia].
Qed.

Lemma value_string_any (d : nat) (s rest : string) :
  value d (appendString s ++ rest) = OK (JString (coerce s), rest).
Proof.
  unfold appendString. cbn [append]. rewrite append_assoc.
  cbn [append].
  replace (value d (String quote (appendBody (String.length s) s ++ String quote rest)))
    with ('(t, s2) <- stringLit (appendBody (String.length s) s ++ String quote rest) ;;
          OK (JString t, s2))
    by (destruct d; reflexivity).
  rewrite stringLit_appendString_any. reflexivity.
Qed.

(** ** The encoder on any value *)

(** The JSON value that the text of a Go value stands for when its strings
    may hold any bytes. *)
Fixpoint wireOf (v : Value) : jvalue :=
  match v with
  | VBool b => JBool b
  | VInt i => JNumber (strconv.FormatInt i)
  | VString s => JString (coerce s)
  | VSlice None => JNull
  | VSlice (Some elems) => JArray (map wireOf elems)
  | VStruct fields => JObject (map (fun kv => (fst kv, wireOf (snd kv))) fields)
  | VChan _ | VFunc _ => JNull
  end.

(** A value of 64-bit integers whose field names are valid UTF-8, without
    channel or function; its strings are any bytes. *)
Fixpoint sound (v : Value) : bool :=
  match v with
  | VBool _ => true
  | VInt i => int64 i
  | VString _ => true
  | VSlice None => true
  | VSlice (Some elems) => forallb sound elems
  | VStruct fields =>
      forallb (fun kv => utf8.ValidString (fst kv) && sound (snd kv)) fields
  | VChan _ | VFunc _ => false
  end.

Section AnyJSON.

Variable J : Value -> jvalue.

Lemma encode_elems_as (d : nat) (elems : list Value) :
  Forall (fun v => exists t, encode v = OK t /\ parsesTo d t (J v)) elems ->
  exists ts, mapM encode elems = OK ts /\
             Forall2 (parsesTo d) ts (map J elems).
Proof.
  induction 1 as [|v l (t & Ht & Pt) _ (ts & Hts & Pts)]; cbn [mapM map].
  - exists []. split; [reflexivity | constructor].
  - rewrite Ht, Hts. exists (t :: ts). split; [reflexivity | now constructor].
Qed.

Lemma encode_fields_as (d : nat) (fields : list (string * Value)) :
  Forall (fun kv => utf8.ValidString (fst kv) = true /\
                    exists t, encode (snd kv) = OK t /\
                              parsesTo d t (J (snd kv))) fields ->
  exists kts,
    mapM (fun kv : string * Value =>
            let '(k, fv) := kv in
            t <- encode fv ;; OK (appendString k ++ ":" ++ t)) fields
    = OK (map memberText kts) /\
    Forall2 (memberOk d) kts (map (fun kv => (fst kv, J (snd kv))) fields).
Proof.
  induction 1 as [|[k fv] l (V & t & Ht & Pt) _ (kts & Hts & Pts)];
    cbn [mapM map].
  - exists []. split; [reflexivity | constructor].
  - cbn [fst snd] in *. rewrite Ht. cbn [rbind]. rewrite Hts.
    exists ((k, t) :: kts). split; [reflexivity|].
    constructor; [|exact Pts]. repeat split; assumption.
Qed.

End AnyJSON.

(** The text of a sound value parses, as the JSON value with its strings
    coerced to valid UTF-8. *)
Lemma encode_parses_any (v : Value) :
  forall d,
    sound v = true -> fits v d = true ->
    exists t, encode v = OK t /\ parsesTo d t (wireOf v).
Proof.
  induction v as [b|i|s| |elems IH|fields IH|t|t] using Value_nested_ind;
    intros d F D; try discriminate F.
  - exists (if b then "true" else "false"). split; [reflexivity|].
    intros rest _. destruct b; [apply value_true | apply value_false].
  - eexists. split; [reflexivity|]. intros rest R. now apply value_int.
  - eexists. split; [reflexivity|]. intros rest _. apply value_string_any.
  - eexists. split; [reflexivity|]. intros rest _. apply value_null.
  - destruct d as [|d]; [discriminate D|]. cbn [sound fits] in F, D.
    rewrite forallb_forall in F, D.
    destruct (@encode_elems_as wireOf d elems) as (ts & Hts & Pts).
    { rewrite Forall_forall in *. intros e He. apply (IH e He); auto. }
    cbn [encode wireOf]. rewrite Hts. eexists. split; [reflexivity|].
    now apply value_array_ok.
  - destruct d as [|d]; [discriminate D|]. cbn [sound fits] in F, D.
    rewrite forallb_forall in F, D.
    destruct (@encode_fields_as wireOf d fields) as (kts & Hts & Pts).
    { rewrite Forall_forall in *. intros kv He.
      specialize (F kv He). apply andb_true_iff in F as [F1 F2].
      split; [exact F1|]. apply (IH kv He); auto. }
    cbn [encode wireOf]. rewrite Hts. eexists. split; [reflexivity|].
    now apply value_object_ok.
Qed.

Lemma parse_encode_any (v : Value) :
  sound v = true -> fits v maxNestingDepth = true ->
  exists t, encode v = OK t /\ parse t = OK (wireOf v).
Proof.
  intros F D. destruct (@encode_parses_any v maxNestingDepth F D) as (t & E & P).
  exists t. split; [exact E|]. unfold parse.
  specialize (P EmptyString eq_refl). rewrite append_nil_r in P.
  rewrite P. reflexivity.
Qed.

(** ** The request read back, whatever its bytes *)

(** A type whose values are read back coerced: the strings with every
    invalid byte replaced, the rest as it was. *)
Class Coercing (A : Type) `{Lawful A} : Type := {
  coerced : A -> A;
  numeric : A -> bool;
  coercing_sound : forall a, numeric a = true -> sound (valueOf a) = true;
  coercing_decode :
    forall a, numeric a = true ->
    forall ctx cur, decode ctx (wireOf (valueOf a)) cur = OK (coerced a)
}.
Arguments Coercing A {_ _}.

#[export, refine] Instance CoercingString : Coercing string := {
  coerced := coerce;
  numeric _ := true
}.
Proof.
  - reflexivity.
  - reflexivity.
Defined.

#[export, refine] Instance CoercingInt : Coercing Z := {
  coerced i := i;
  numeric := int64
}.
Proof.
  - intros a H. exact H.
  - intros a H ctx cur. cbn [decode GoInt wireOf valueOf].
    now rewrite ParseInt_FormatInt.
Defined.

Section CoercingSlices.

Context {A : Type} `{Coercing A}.

Definition numericSlice (o : slice A) : bool :=
  match o with
  | None => true
  | Some l => forallb numeric l
  end.

Lemma slice_sound (o : slice A) :
  numericSlice o = true -> sound (valueOf o) = true.
Proof.
  destruct o as [l|]; [|reflexivity].
  cbn [numericSlice valueOf GoSlice option_map sound].
  induction l as [|a l IH]; [reflexivity|].
  cbn [map forallb]. intros W. apply andb_true_iff in W as [Wa Wl].
  now rewrite coercing_sound, IH.
Qed.

Lemma decodeElems_coercing (ctx : errorContext) (l : list A) :
  forallb numeric l = true ->
  forall old,
    decodeElems ctx (map wireOf (map valueOf l)) old = OK (map coerced l).
Proof.
  induction l as [|a l IH]; intros W old; [reflexivity|].
  cbn [forallb] in W. apply andb_true_iff in W as [Wa Wl].
  cbn [map decodeElems].
  destruct old as [|x xs]; cbv zeta iota beta;
    rewrite coercing_decode by exact Wa; cbn [rbind];
    rewrite IH by exact Wl; reflexivity.
Qed.

Lemma slice_coercing_decode (o : slice A) :
  numericSlice o = true ->
  forall ctx cur,
    decode ctx (wireOf (valueOf o)) cur = OK (option_map (map coerced) o).
Proof.
  intros W ctx cur. destruct o as [l|]; [|reflexivity].
  cbn [valueOf GoSlice option_map wireOf decode].
  now rewrite decodeElems_coercing.
Qed.

#[export] Instance CoercingSlice : Coercing (slice A) := {
  coerced := option_map (map coerced);
  numeric := numericSlice;
  coercing_sound := slice_sound;
  coercing_decode := slice_coercing_decode
}.

End CoercingSlices.

#[export, refine] Instance CoercingTextContent : Coercing ClaudeTextContent := {
  coerced c := {| Type_ := coerce (Type_ c); Text := coerce (Text c) |};
  numeric _ := true
}.
Proof.
  - intros [ty tx] _. reflexivity.
  - intros [ty tx] _ ctx cur. reflexivity.
Defined.

#[export, refine] Instance CoercingRequestMessage : Coercing ClaudeRequestMessage := {
  coerced m := {| Role := coerce (Role m); Content := coerced (Content m) |};
  numeric m := numeric (Content m)
}.
Proof.
  - intros [ro co] W. cbn [Content] in W.
    cbn [valueOf GoClaudeRequestMessage sound forallb fst snd Role Content].
    rewrite (coercing_sound (A := slice ClaudeTextContent) co W).
    reflexivity.
  - intros [ro co] W ctx cur. cbn [Content] in W.
    cbn [valueOf GoClaudeRequestMessage wireOf map fst snd Role Content].
    cbn [decode GoClaudeRequestMessage decodeStruct decodeMembers].
    rewrite findField_message_role, findField_message_content.
    change (String.eqb "role" "role") with true.
    change (String.eqb "content" "role") with false. cbv iota.
    rewrite (coercing_decode (A := string)) by reflexivity.
    cbn [rbind Role Content].
    rewrite (coercing_decode (A := slice ClaudeTextContent)) by exact W.
    reflexivity.
Defined.

#[export, refine] Instance CoercingRequest : Coercing ClaudeRequest := {
  coerced r :=
    {| AnthropicVersion := coerce (AnthropicVersion r);
       MaxTokens := MaxTokens r;
       System := coerce (System r);
       Messages := coerced (Messages r) |};
  numeric r := int64 (MaxTokens r) && numeric (Messages r)
}.
Proof.
  - intros [av mt sy ms] W. cbn [MaxTokens Messages] in W.
    apply andb_true_iff in W as [W2 W4].
    cbn [valueOf GoClaudeRequest sound forallb fst snd
         AnthropicVersion MaxTokens System Messages].
    rewrite (coercing_sound (A := slice ClaudeRequestMessage) ms W4).
    cbn [valueOf GoString GoInt sound]. rewrite W2. reflexivity.
  - intros [av mt sy ms] W ctx cur. cbn [MaxTokens Messages] in W.
    apply andb_true_iff in W as [W2 W4].
    destruct findField_request as (F1 & F2 & F3 & F4).
    cbn [valueOf GoClaudeRequest wireOf map fst snd
         AnthropicVersion MaxTokens System Messages].
    cbn [decode GoClaudeRequest decodeStruct decodeMembers].
    fold requestFields. rewrite F1, F2, F3, F4.
    change (String.eqb "anthropic_version" "anthropic_version") with true.
    change (String.eqb "max_tokens" "anthropic_version") with false.
    change (String.eqb "max_tokens" "max_tokens") with true.
    change (String.eqb "system" "anthropic_version") with false.
    change (String.eqb "system" "max_tokens") with false.
    change (String.eqb "system" "system") with true.
    change (String.eqb "messages" "anthropic_version") with false.
    change (String.eqb "messages" "max_tokens") with false.
    change (String.eqb "messages" "system") with false.
    cbv iota.
    rewrite (coercing_decode (A := string)) by reflexivity.
    cbn [rbind AnthropicVersion MaxTokens System Messages].
    rewrite (coercing_decode (A := Z)) by exact W2.
    cbn [rbind AnthropicVersion MaxTokens System Messages].
    rewrite (coercing_decode (A := string)) by reflexivity.
    cbn [rbind AnthropicVersion MaxTokens System Messages].
    rewrite (coercing_decode (A := slice ClaudeRequestMessage)) by exact W4.
    reflexivity.
Defined.

(** The requests have no integer below a slice: every message and every
    content is numeric. *)
Lemma numeric_messages (ms : slice ClaudeRequestMessage) : numeric ms = true.
Proof.
  destruct ms as [l|]; [|reflexivity]. cbn [numeric CoercingSlice numericSlice].
  apply forallb_forall. intros [ro [co|]] _; [|reflexivity].
  cbn [numeric CoercingRequestMessage CoercingSlice numericSlice Content].
  apply forallb_forall. reflexivity.
Qed.

(** A text, a message and a request with every string made valid UTF-8. *)
Definition coerceText (c : ClaudeTextContent) : ClaudeTextContent :=
  {| Type_ := coerce (Type_ c); Text := coerce (Text c) |}.

Definition coerceMessage (m : ClaudeRequestMessage) : ClaudeRequestMessage :=
  {| Role := coerce (Role m);
     Content := option_map (map coerceText) (Content m) |}.

Definition coerceRequest (r : ClaudeRequest) : ClaudeRequest :=
  {| AnthropicVersion := coerce (AnthropicVersion r);
     MaxTokens := MaxTokens r;
     System := coerce (System r);
     Messages := option_map (map coerceMessage) (Messages r) |}.

Lemma coerced_request (r : ClaudeRequest) : coerced r = coerceRequest r.
Proof. reflexivity. Qed.

(** A request of valid strings is its own coercion. *)
Lemma coerce_valid (s : string) : utf8.ValidString s = true -> coerce s = s.
Proof. intros V. apply coerceFrom_id; [apply Nat.le_refl | exact V]. Qed.

Lemma coerceText_valid (c : ClaudeTextContent) :
  validText c = true -> coerceText c = c.
Proof.
  destruct c as [ty tx]. unfold validText, coerceText. cbn [Type_ Text].
  intros V. apply andb_true_iff in V as [V1 V2].
  now rewrite !coerce_valid.
Qed.

Lemma coerceMessage_valid (m : ClaudeRequestMessage) :
  validMessage m = true -> coerceMessage m = m.
Proof.
  destruct m as [ro co]. unfold validMessage, coerceMessage. cbn [Role Content].
  intros V. apply andb_true_iff in V as [V1 V2].
  rewrite coerce_valid by exact V1. f_equal.
  destruct co as [l|]; [|reflexivity]. cbn [option_map]. f_equal.
  induction l as [|c l IH]; [reflexivity|].
  cbn [forallb map] in *. apply andb_true_iff in V2 as [Vc Vl].
  now rewrite coerceText_valid, IH.
Qed.

Lemma coerceRequest_valid (r : ClaudeRequest) :
  validUTF8 r = true -> coerceRequest r = r.
Proof.
  destruct r as [av mt sy ms]. unfold validUTF8, coerceRequest.
  cbn [AnthropicVersion MaxTokens System Messages].
  rewrite !andb_true_iff. intros [[V1 V3] V4].
  rewrite !coerce_valid by assumption. f_equal.
  destruct ms as [l|]; [|reflexivity]. cbn [option_map]. f_equal.
  induction l as [|c l IH]; [reflexivity|].
  cbn [forallb map] in *. apply andb_true_iff in V4 as [Vc Vl].
  now rewrite coerceMessage_valid, IH.
Qed.

(** ** The coerced string is valid UTF-8 *)

Lemma DecodeRune_replacement (t : string) :
  utf8.DecodeRune (utf8.EncodeRune utf8.RuneError ++ t) = (utf8.RuneError, 3%nat).
Proof. reflexivity. Qed.

Lemma length_replacement :
  String.length (utf8.EncodeRune utf8.RuneError) = 3%nat.
Proof. reflexivity. Qed.

Lemma coerceFrom_validFrom (n : nat) :
  forall (s : string) (f : nat),
    (String.length s <= n)%nat ->
    (String.length (coerceFrom n s) <= f)%nat ->
    utf8.validFrom f (coerceFrom n s) = true.
Proof.
  induction n as [|n IH]; intros [|c s1] f Hn Hf;
    try (cbn [String.length] in Hn; lia);
    try (destruct f; reflexivity).
  destruct (runeAt_total c s1) as [E | r m E B Acc].
  - rewrite (@coerceFrom_invalid n _ _ E) in *.
    rewrite length_append, length_replacement in Hf.
    destruct f as [|f]; [lia|].
    change (utf8.validFrom (S f) (utf8.EncodeRune utf8.RuneError ++ coerceFrom n s1))
      with (utf8.validFrom f (coerceFrom n s1)).
    apply IH; [shorter | lia].
  - rewrite (@coerceFrom_valid n _ _ _ _ E B) in *.
    pose proof (acc_width Acc) as W.
    assert (L : (String.length (take m (String c s1)) = m)%nat).
    { pose proof (take_drop m (String c s1)) as TD.
      apply (f_equal String.length) in TD. rewrite length_append in TD.
      pose proof (length_drop m (String c s1)). lia. }
    rewrite length_append, L in Hf.
    destruct f as [|f]; [lia|].
    destruct (take m (String c s1) ++ coerceFrom n (drop m (String c s1)))
      as [|c0 u] eqn:U.
    { reflexivity. }
    rewrite <- U.
    assert (V : utf8.validFrom (S f)
                  (take m (String c s1) ++ coerceFrom n (drop m (String c s1)))
                = utf8.validFrom f (coerceFrom n (drop m (String c s1)))).
    { rewrite U. cbn [utf8.validFrom]. rewrite <- U.
      rewrite (acc_decode Acc), B. now rewrite drop_app_take. }
    rewrite V. apply IH; [shorter | lia].
Qed.

Lemma coerce_ValidString (s : string) : utf8.ValidString (coerce s) = true.
Proof.
  unfold utf8.ValidString, coerce.
  apply coerceFrom_validFrom; apply Nat.le_refl.
Qed.

Lemma coerceText_validText (c : ClaudeTextContent) :
  validText (coerceText c) = true.
Proof.
  unfold validText, coerceText. cbn [Type_ Text].
  now rewrite !coerce_ValidString.
Qed.

Lemma coerceMessage_validMessage (m : ClaudeRequestMessage) :
  validMessage (coerceMessage m) = true.
Proof.
  unfold validMessage, coerceMessage. cbn [Role Content].
  rewrite coerce_ValidString. cbn [andb].
  destruct (Content m) as [l|]; [|reflexivity]. cbn [option_map].
  apply forallb_forall. intros c Hc. apply in_map_iff in Hc as (c0 & <- & _).
  apply coerceText_validText.
Qed.

Lemma coerceRequest_validUTF8 (r : ClaudeRequest) :
  validUTF8 (coerceRequest r) = true.
Proof.
  unfold validUTF8, coerceRequest. cbn [AnthropicVersion System Messages].
  rewrite !coerce_ValidString. cbn [andb].
  destruct (Messages r) as [l|]; [|reflexivity]. cbn [option_map].
  apply forallb_forall. intros c Hc. apply in_map_iff in Hc as (c0 & <- & _).
  apply coerceMessage_validMessage.
Qed.

(** ** Round trip of any request *)

Section CoercedRoundTrip.

Context {A : Type} `{Coercing A}.

(** A numeric value of a coercing type is encoded, and what [Unmarshal]
    reads from the text is the value coerced. *)
Lemma Marshal_Unmarshal_coerced (a : A) :
  numeric a = true ->
  (nesting <= maxNestingDepth)%nat ->
  exists body,
    Marshal a = OK body /\ forall cur, Unmarshal body cur = OK (coerced a).
Proof.
  intros W N.
  destruct (@parse_encode_any (valueOf a)) as (t & E & P).
  - now apply coercing_sound.
  - apply fits_mono with (d := nesting); [exact N | apply lawful_fits].
  - exists t. split; [exact E|]. intros cur. unfold Unmarshal.
    rewrite P. cbn [rbind]. now apply coercing_decode.
Qed.

End CoercedRoundTrip.

Lemma request_coerced (r : ClaudeRequest) :
  int64 (MaxTokens r) = true ->
  exists body,
    Marshal r = OK body /\
    forall cur, Unmarshal body cur = OK (coerceRequest r).
Proof.
  intros I. rewrite <- coerced_request.
  apply (@Marshal_Unmarshal_coerced ClaudeRequest _ _ _ r).
  - cbn [numeric CoercingRequest]. rewrite I, numeric_messages. reflexivity.
  - cbn. unfold maxNestingDepth. lia.
Qed.

(** A request whose system instruction and prompt hold bytes that are no
    UTF-8: a lone 0xFF before a letter, and a lone 0xC0. *)
Definition rawRequest : ClaudeRequest :=
  buildRequest (String (byte 255) "a") (String (byte 192) EmptyString) 7.

Definition rawBody : string :=
  match Marshal rawRequest with
  | OK body => body
  | Err _ => EmptyString
  end.

(** X17. Whatever bytes the strings of a request hold (its token cap being
    a 64-bit integer, as a Go [int] is), [Marshal] encodes the request, the
    bytes are well-formed JSON, and [Unmarshal] reads from them the request
    with every byte that is no UTF-8 replaced by U+FFFD, the token cap and
    the shape of the messages as they were. *)
Theorem request_read_back_coerced (r : ClaudeRequest) :
  int64 (MaxTokens r) = true ->
  exists body,
    Marshal r = OK body /\
    forall cur, Unmarshal body cur = OK (coerceRequest r).
Proof. exact (@request_coerced r). Qed.

Lemma request_read_back_coerced_witness :
  exists body,
    Marshal rawRequest = OK body /\
    forall cur, Unmarshal body cur = OK (coerceRequest rawRequest).
Proof. apply request_read_back_coerced. reflexivity. Defined.

(** X18. What [Unmarshal] reads from the bytes that [Marshal] wrote for a
    request holds only valid UTF-8 and the same token cap, and a second
    round trip returns it unchanged: the loss of a round trip happens once. *)
Theorem read_back_is_stable
    (r r' : ClaudeRequest) (body : string) (cur : ClaudeRequest) :
  int64 (MaxTokens r) = true ->
  Marshal r = OK body ->
  Unmarshal body cur = OK r' ->
  validUTF8 r' = true /\
  MaxTokens r' = MaxTokens r /\
  exists body',
    Marshal r' = OK body' /\ forall cur', Unmarshal body' cur' = OK r'.
Proof.
  intros I M U.
  destruct (@request_coerced r I) as (b & Mb & Ub).
  rewrite Mb in M. injection M as ->.
  rewrite Ub in U. injection U as <-.
  pose proof (coerceRequest_validUTF8 r) as V.
  split; [exact V|]. split; [reflexivity|].
  destruct (@request_coerced (coerceRequest r) I) as (b' & Mb' & Ub').
  exists b'. split; [exact Mb'|]. intros cur'.
  rewrite Ub'. now rewrite (coerceRequest_valid _ V).
Qed.

Lemma read_back_is_stable_witness :
  validUTF8 (coerceRequest rawRequest) = true /\
  MaxTokens (coerceRequest rawRequest) = MaxTokens rawRequest /\
  exists body',
    Marshal (coerceRequest rawRequest) = OK body' /\
    forall cur', Unmarshal body' cur' = OK (coerceRequest rawRequest).
Proof.
  apply (@read_back_is_stable rawRequest (coerceRequest rawRequest) rawBody zero);
    vm_compute; reflexivity.
Defined.
